(** * Verification of the lyric conversion core of lyric-api

    A shallow embedding of [api/lyric-api.go]: the time codec, the LRC and
    YRC parsers, the line matchers, the paragraph grouper, the three
    serializers and the response builder.  Go values are modelled as the
    program has them:

    - a Go [string] is a sequence of bytes, here [list ascii];
    - a Go [int] is a 64-bit two's-complement integer, here a [Z] whose
      arithmetic wraps around ([GoInt]);
    - the four compiled regular expressions are hand-written matchers that
      return the capture groups of the leftmost-first match;
    - [for ... range] loops are left folds over the slice, the loop body
      being a step function on the variables the loop updates;
    - [sort.Slice] and the iteration order of a Go map are not fixed by the
      language: they are parameters of the development. *)

From Stdlib Require Import ZArith String Ascii List Bool Lia Permutation Sorted.
Import ListNotations.
Local Open Scope Z_scope.

(** ** Go strings *)

Definition gostring : Type := list ascii.

Definition str (s : string) : gostring := list_ascii_of_string s.
Arguments str s%_string.

Definition gostring_eqb (a b : gostring) : bool :=
  if list_eq_dec ascii_dec a b then true else false.

(** [len(x) == 0], for strings ([s == ""]) and slices alike. *)
Definition isEmpty {A : Type} (l : list A) : bool :=
  match l with [] => true | _ :: _ => false end.

Definition newline : ascii := "010"%char.

(** ** Go's [int] on a 64-bit platform *)

Module GoInt.

Definition maxInt : Z := 9223372036854775807.
Definition minInt : Z := -9223372036854775808.

Definition wrap (z : Z) : Z :=
  (z + 9223372036854775808) mod 18446744073709551616 - 9223372036854775808.

Definition inRange (z : Z) : Prop := minInt <= z <= maxInt.

Definition add (a b : Z) : Z := wrap (a + b).
Definition sub (a b : Z) : Z := wrap (a - b).
Definition mul (a b : Z) : Z := wrap (a * b).
Definition neg (a : Z) : Z := wrap (- a).
(** [/] and [%] truncate towards zero. *)
Definition div (a b : Z) : Z := wrap (Z.quot a b).
Definition rem (a b : Z) : Z := Z.rem a b.

End GoInt.

(** [func abs(x int) int] *)
Definition abs (x : Z) : Z :=
  if x <? 0 then GoInt.neg x else x.

(** ** Package [strings] *)

Fixpoint HasPrefix (s prefix : gostring) : bool :=
  match prefix, s with
  | [], _ => true
  | p :: prefix', c :: s' => Ascii.eqb p c && HasPrefix s' prefix'
  | _ :: _, [] => false
  end.

Definition HasSuffix (s suffix : gostring) : bool :=
  HasPrefix (rev s) (rev suffix).

Fixpoint Contains (s substr : gostring) : bool :=
  HasPrefix s substr ||
  match s with
  | [] => false
  | _ :: s' => Contains s' substr
  end.

(** [strings.Split(s, sep)] for a one-byte separator: never empty, the
    empty string splits into one empty piece. *)
Fixpoint Split (s : gostring) (sep : ascii) : list gostring :=
  match s with
  | [] => [[]]
  | c :: s' =>
      if Ascii.eqb c sep then [] :: Split s' sep
      else match Split s' sep with
           | piece :: pieces => (c :: piece) :: pieces
           | [] => [[c]]
           end
  end.

Definition byte (n : N) : ascii := ascii_of_N n.

(** The runes for which [unicode.IsSpace] holds, in their UTF-8 encoding.
    The first six are the ASCII ones; U+0085 and U+00A0 are the Latin-1
    ones; the rest is the White_Space property of the Unicode tables. *)
Definition spaceRunes : list gostring :=
  [ [byte 9]; [byte 10]; [byte 11]; [byte 12]; [byte 13]; [byte 32];
    [byte 194; byte 133]; [byte 194; byte 160];
    [byte 225; byte 154; byte 128];
    [byte 226; byte 128; byte 128]; [byte 226; byte 128; byte 129];
    [byte 226; byte 128; byte 130]; [byte 226; byte 128; byte 131];
    [byte 226; byte 128; byte 132]; [byte 226; byte 128; byte 133];
    [byte 226; byte 128; byte 134]; [byte 226; byte 128; byte 135];
    [byte 226; byte 128; byte 136]; [byte 226; byte 128; byte 137];
    [byte 226; byte 128; byte 138];
    [byte 226; byte 128; byte 168]; [byte 226; byte 128; byte 169];
    [byte 226; byte 128; byte 175];
    [byte 226; byte 129; byte 159];
    [byte 227; byte 128; byte 128] ].

(** Strip white-space runes from the front, one rune per unit of fuel. *)
Fixpoint trimLeftFuel (fuel : nat) (s : gostring) : gostring :=
  match fuel with
  | O => s
  | S fuel' =>
      match find (HasPrefix s) spaceRunes with
      | Some r => trimLeftFuel fuel' (skipn (length r) s)
      | None => s
      end
  end.

Definition TrimLeftSpace (s : gostring) : gostring :=
  trimLeftFuel (length s) s.

(** Strip white-space runes from the back.  A trailing white-space rune
    is recognised by [utf8.DecodeLastRuneInString] exactly when the
    string ends with the bytes of its encoding. *)
Fixpoint trimRightFuel (fuel : nat) (s : gostring) : gostring :=
  match fuel with
  | O => s
  | S fuel' =>
      match find (HasSuffix s) spaceRunes with
      | Some r => trimRightFuel fuel' (firstn (length s - length r) s)
      | None => s
      end
  end.

Definition TrimRightSpace (s : gostring) : gostring :=
  trimRightFuel (length s) s.

(** [strings.TrimSpace] *)
Definition TrimSpace (s : gostring) : gostring :=
  TrimRightSpace (TrimLeftSpace s).

(** ** Package [strconv] *)

(** [\d] of package [regexp], and the bytes [strconv] accepts as digits. *)
Definition isDigit (c : ascii) : bool :=
  ((48 <=? N_of_ascii c) && (N_of_ascii c <=? 57))%N.

Definition digitVal (c : ascii) : Z := Z.of_N (N_of_ascii c) - 48.

Definition decimalValue (s : gostring) : Z :=
  fold_left (fun n c => 10 * n + digitVal c) s 0.

(** What [strconv.ParseUint(s, 10, 64)] returns: the number and no
    error, 0 and [ErrSyntax], or the largest [uint64] and [ErrRange]. *)
Inductive parsed : Type :=
  | parsedOk (n : Z)
  | errSyntax
  | errRange.

Definition maxUint64 : Z := 18446744073709551615.

(** The loop of [ParseUint] over the bytes of [s] on the variable [n].
    A byte that is no digit ends it with the syntax error, a digit that
    takes the number above the largest [uint64] ends it with the range
    error: whichever comes first, the bytes behind it are not read. *)
Fixpoint ParseUint_loop (s : gostring) (n : Z) : parsed :=
  match s with
  | [] => parsedOk n
  | c :: s' =>
      if negb (isDigit c) then errSyntax
      else if maxUint64 / 10 + 1 <=? n then errRange
      else
        let n1 := 10 * n + digitVal c in
        if maxUint64 <? n1 then errRange else ParseUint_loop s' n1
  end.

Definition ParseUint (s : gostring) : parsed :=
  if isEmpty s then errSyntax else ParseUint_loop s 0.

(** [strconv.Atoi] with its error dropped, as every caller does
    ([n, _ := strconv.Atoi(s)]); the value is that of
    [ParseInt(s, 10, 0)], which the short path for texts of fewer than
    19 bytes returns as well.  A syntax error gives 0, a range error
    the nearest bound. *)
Definition Atoi (s : gostring) : Z :=
  let '(negative, body) :=
    match s with
    | c :: s' =>
        if Ascii.eqb c "+" then (false, s')
        else if Ascii.eqb c "-" then (true, s')
        else (false, s)
    | [] => (false, s)
    end in
  let cutoff := 9223372036854775808 in
  let clamp (un : Z) :=
    if negb negative && (cutoff <=? un) then GoInt.maxInt
    else if negative && (cutoff <? un) then GoInt.minInt
    else if negative then - un else un in
  match ParseUint body with
  | errSyntax => 0
  | errRange => clamp maxUint64
  | parsedOk un => clamp un
  end.

(** ** Package [fmt]: the verbs [%d], [%02d], [%03d] *)

Definition digitChar (d : Z) : ascii := ascii_of_N (48 + Z.to_N d).

Fixpoint utoa (fuel : nat) (n : Z) : gostring :=
  match fuel with
  | O => []
  | S fuel' =>
      if n <? 10 then [digitChar n]
      else utoa fuel' (n / 10) ++ [digitChar (n mod 10)]
  end.

(** The decimal digits of a non-negative number; a number has no more
    decimal digits than bits. *)
Definition formatUint (n : Z) : gostring :=
  utoa (S (Z.to_nat (Z.log2 n))) n.

Definition zeroPad (width : nat) (digits : gostring) : gostring :=
  repeat "0"%char (width - length digits) ++ digits.

(** [fmt.Sprintf("%0<width>d", n)]: the sign counts towards the width. *)
Definition formatInt (width : nat) (n : Z) : gostring :=
  if n <? 0 then "-"%char :: zeroPad (width - 1) (formatUint (- n))
  else zeroPad width (formatUint n).

(** ** Package [regexp]: the four compiled patterns

    Each matcher returns the capture groups of the leftmost-first match,
    [None] when [FindStringSubmatch] returns [nil].  [.] matches every
    rune but the newline, [$] matches at the end of the text only. *)

Definition bind {A B : Type} (o : option A) (k : A -> option B) : option B :=
  match o with
  | Some a => k a
  | None => None
  end.

Notation "x <- e ;; k" := (bind e (fun x => k))
  (at level 61, e at next level, right associativity).
Notation "' p <- e ;; k" := (bind e (fun x => match x with p => k end))
  (at level 61, p pattern, e at next level, right associativity).

(** One literal byte. *)
Definition lit (c : ascii) (s : gostring) : option gostring :=
  match s with
  | x :: s' => if Ascii.eqb x c then Some s' else None
  | [] => None
  end.

(** [\d{n}] *)
Definition digitsExactly (n : nat) (s : gostring) : option (gostring * gostring) :=
  if (n <=? length s)%nat && forallb isDigit (firstn n s)
  then Some (firstn n s, skipn n s)
  else None.

(** The longest run of digits at the front of the text. *)
Fixpoint spanDigits (s : gostring) : gostring * gostring :=
  match s with
  | c :: s' =>
      if isDigit c
      then let '(ds, rest) := spanDigits s' in (c :: ds, rest)
      else ([], s)
  | [] => ([], [])
  end.

(** [\d+] before a literal that is no digit: the run has to be the
    longest one, a shorter run is followed by a digit. *)
Definition digitsPlus (s : gostring) : option (gostring * gostring) :=
  let '(ds, rest) := spanDigits s in
  if isEmpty ds then None else Some (ds, rest).

Definition noNewline (s : gostring) : bool :=
  forallb (fun c => negb (Ascii.eqb c newline)) s.

(** The final group of [yrcLineRe] and [lrcTimeRe], any runes up to the
    end of the text: the rest of the text, which holds no newline. *)
Definition restOfText (s : gostring) : option gostring :=
  if noNewline s then Some s else None.

(** [yrcLineRe], compiled from "^\[(\d+),(\d+)\](.{0,})$" (the source
    writes the last group with a star). *)
Definition yrcLineRe (line : gostring) : option (gostring * gostring * gostring) :=
  s1 <- lit "[" line ;;
  '(start, s2) <- digitsPlus s1 ;;
  s3 <- lit "," s2 ;;
  '(dur, s4) <- digitsPlus s3 ;;
  s5 <- lit "]" s4 ;;
  content <- restOfText s5 ;;
  Some (start, dur, content).

(** The timing group "\((\d+),(\d+)\)" at the front of the text: the
    two numbers and what follows the closing parenthesis. *)
Definition wordTiming (s : gostring) : option (gostring * gostring * gostring) :=
  s1 <- lit "(" s ;;
  '(start, s2) <- digitsPlus s1 ;;
  s3 <- lit "," s2 ;;
  '(dur, s4) <- digitsPlus s3 ;;
  s5 <- lit ")" s4 ;;
  Some (start, dur, s5).

(** One match of [wordInfoRe], compiled from "(.*?)\((\d+),(\d+)\)",
    searched from the front of [s]: the lazy first group stops at the first timing group, and
    since [.] does not cross a newline the match starts after the last
    newline before that group.  [text] collects group 1. *)
Fixpoint wordInfoRe_from (text s : gostring)
  : option (gostring * gostring * gostring * gostring) :=
  match wordTiming s with
  | Some (start, dur, rest) => Some (text, start, dur, rest)
  | None =>
      match s with
      | [] => None
      | c :: s' =>
          if Ascii.eqb c newline then wordInfoRe_from [] s'
          else wordInfoRe_from (text ++ [c]) s'
      end
  end.

Definition wordInfoRe (s : gostring)
  : option (gostring * gostring * gostring * gostring) :=
  wordInfoRe_from [] s.

(** [wordInfoRe.FindAllStringSubmatch(content, -1)]: successive
    non-overlapping matches, each search starting where the previous
    match ended.  A match consumes at least five bytes, so the length of
    the text bounds the number of matches. *)
Fixpoint wordInfoRe_all (fuel : nat) (s : gostring)
  : list (gostring * gostring * gostring) :=
  match fuel with
  | O => []
  | S fuel' =>
      match wordInfoRe s with
      | Some (text, start, dur, rest) =>
          (text, start, dur) :: wordInfoRe_all fuel' rest
      | None => []
      end
  end.

Definition wordInfoRe_FindAll (content : gostring)
  : list (gostring * gostring * gostring) :=
  wordInfoRe_all (length content) content.

(** [lrcTimeRe], compiled from
    "^\[(\d{2}):(\d{2})\.(\d{2,3})\](.{0,})$" (the source writes the last
    group with a star); the greedy third group tries three digits before
    two. *)
Definition lrcTimeRe (line : gostring)
  : option (gostring * gostring * gostring * gostring) :=
  s1 <- lit "[" line ;;
  '(mm, s2) <- digitsExactly 2 s1 ;;
  s3 <- lit ":" s2 ;;
  '(ss, s4) <- digitsExactly 2 s3 ;;
  s5 <- lit "." s4 ;;
  let close (n : nat) :=
    '(frac, s6) <- digitsExactly n s5 ;;
    s7 <- lit "]" s6 ;;
    content <- restOfText s7 ;;
    Some (mm, ss, frac, content) in
  match close 3%nat with
  | Some groups => Some groups
  | None => close 2%nat
  end.

Definition metaKeys : list gostring :=
  [str "ti"; str "ar"; str "al"; str "by"; str "offset"; str "kana";
   str "re"; str "ve"].

(** [metaRe], compiled from "^\[(ti|ar|al|by|offset|kana|re|ve):(.*?)\]$". *)
Definition metaRe (line : gostring) : option (gostring * gostring) :=
  s1 <- lit "[" line ;;
  key <- find (fun k => HasPrefix s1 (k ++ [":"%char])) metaKeys ;;
  let body := skipn (length key + 1) s1 in
  if HasSuffix body ["]"%char] && noNewline body
  then Some (key, removelast body)
  else None.

(** [func isMetadataLine(line string) bool] *)
Definition isMetadataLine (line : gostring) : bool :=
  HasPrefix line (str "[ti:") ||
  HasPrefix line (str "[ar:") ||
  HasPrefix line (str "[al:") ||
  HasPrefix line (str "[by:") ||
  HasPrefix line (str "[offset:") ||
  HasPrefix line (str "[kana:") ||
  HasPrefix line (str "[re:") ||
  HasPrefix line (str "[ve:").

(** ** Time codec *)

(** The decoding of a matched LRC time stamp, written twice in the
    source (in [parseLrcTimedLines] and in [mergeLrcWithTranslation]):
    [totalMs := minutes*60*1000 + seconds*1000 + milliseconds]. *)
Definition lrcTotalMs (mm ss msStr : gostring) : Z :=
  let minutes := Atoi mm in
  let seconds := Atoi ss in
  let milliseconds :=
    if (length msStr =? 2)%nat then GoInt.mul (Atoi msStr) 10 else Atoi msStr in
  GoInt.add (GoInt.add (GoInt.mul (GoInt.mul minutes 60) 1000)
                       (GoInt.mul seconds 1000))
            milliseconds.

(** [func msToLrcTime(ms int) string] *)
Definition msToLrcTime (ms : Z) : gostring :=
  let seconds := GoInt.div ms 1000 in
  let milliseconds := GoInt.div (GoInt.rem ms 1000) 10 in
  let minutes := GoInt.div seconds 60 in
  let seconds := GoInt.rem seconds 60 in
  str "[" ++ formatInt 2 minutes ++ str ":" ++ formatInt 2 seconds ++
  str "." ++ formatInt 2 milliseconds ++ str "]".

(** [func msToEnhancedLrcTime(ms int) string] *)
Definition msToEnhancedLrcTime (ms : Z) : gostring :=
  let seconds := GoInt.div ms 1000 in
  let milliseconds := GoInt.div (GoInt.rem ms 1000) 10 in
  let minutes := GoInt.div seconds 60 in
  let seconds := GoInt.rem seconds 60 in
  str "<" ++ formatInt 2 minutes ++ str ":" ++ formatInt 2 seconds ++
  str "." ++ formatInt 2 milliseconds ++ str ">".

(** [func msToTtmlTime(ms int) string] *)
Definition msToTtmlTime (ms : Z) : gostring :=
  let hours := GoInt.div ms 3600000 in
  let ms := GoInt.rem ms 3600000 in
  let minutes := GoInt.div ms 60000 in
  let ms := GoInt.rem ms 60000 in
  let seconds := GoInt.div ms 1000 in
  let milliseconds := GoInt.rem ms 1000 in
  if 0 <? hours
  then formatInt 2 hours ++ str ":" ++ formatInt 2 minutes ++ str ":" ++
       formatInt 2 seconds ++ str "." ++ formatInt 3 milliseconds
  else formatInt 2 minutes ++ str ":" ++ formatInt 2 seconds ++ str "." ++
       formatInt 3 milliseconds.

(** The time a time stamp at the front of a line stands for: the match
    of [lrcTimeRe] followed by the decoding. *)
Definition decodeLrcTime (stamp : gostring) : option Z :=
  '(mm, ss, msStr, _) <- lrcTimeRe stamp ;;
  Some (lrcTotalMs mm ss msStr).

(** ** Data model *)

Module WordInfo.
Record t : Type := mk { Text : gostring; StartTime : Z; Duration : Z }.
End WordInfo.

Module LineInfo.
Record t : Type := mk { Words : list WordInfo.t; StartTime : Z; EndTime : Z }.
End LineInfo.

Module DivInfo.
Record t : Type := mk { StartTime : Z; EndTime : Z; Lines : list LineInfo.t }.
End DivInfo.

Module MetaLine.
Record t : Type := mk { Time : Z; Content : gostring }.
End MetaLine.

(** The payload of the upstream lyric API. *)
Module LyricData.
Record data : Type :=
  mkData { Lrc : gostring; Trans : gostring; Yrc : gostring; Roma : gostring }.
Record t : Type := mk { Code : Z; Message : gostring; Data : data }.
End LyricData.

Module UnifiedLyricResponse.
Record data : Type :=
  mkData { Song : gostring; Singer : gostring; Album : gostring;
           LRC : gostring; ESLRC : gostring; TTML : gostring }.
Record t : Type := mk { Code : Z; Message : gostring; Data : data }.
End UnifiedLyricResponse.

(** A Go result pair [(value, error)]; an error is its message. *)
Inductive result (A : Type) : Type :=
| Ok (value : A)
| Err (message : gostring).
Arguments Ok {A} value.
Arguments Err {A} message.

Definition zeroWord : WordInfo.t := WordInfo.mk [] 0 0.
Definition zeroLine : LineInfo.t := LineInfo.mk [] 0 0.
Definition zeroMetaLine : MetaLine.t := MetaLine.mk 0 [].

(** ** YRC parser *)

(** The body of the loop over [wordMatches] in [parseYrcLine]; [words]
    is [lineInfo.Words]. *)
Definition parseYrcWord (words : list WordInfo.t)
    (m : gostring * gostring * gostring) : list WordInfo.t :=
  let '(text, m2, m3) := m in
  let wordStartTime := Atoi m2 in
  let wordDuration := Atoi m3 in
  if wordDuration =? 0 then
    if negb (isEmpty (TrimSpace text))
    then words ++ [WordInfo.mk text wordStartTime 1]
    else words
  else words ++ [WordInfo.mk text wordStartTime wordDuration].

(** [func parseYrcLine(line string)], which returns a [*LineInfo] and an
    [error]. *)
Definition parseYrcLine (line : gostring) : result LineInfo.t :=
  match yrcLineRe line with
  | None => Err (str "invalid YRC line format: " ++ line)
  | Some (m1, m2, content) =>
      let startTime := Atoi m1 in
      let duration := Atoi m2 in
      let words := fold_left parseYrcWord (wordInfoRe_FindAll content) [] in
      let words :=
        if isEmpty words && negb (isEmpty content)
        then words ++ [WordInfo.mk content startTime
                         (if duration =? 0 then 1 else duration)]
        else words in
      Ok (LineInfo.mk words startTime (GoInt.add startTime duration))
  end.

(** The body of the loop of [parseYrcToLines]. *)
Definition parseYrcToLines_step (parsedLines : list LineInfo.t)
    (line : gostring) : list LineInfo.t :=
  if negb (HasPrefix line (str "[")) || isMetadataLine line then parsedLines
  else
    match parseYrcLine line with
    | Err _ => parsedLines
    | Ok lineInfo =>
        if isEmpty (LineInfo.Words lineInfo) then parsedLines
        else parsedLines ++ [lineInfo]
    end.

(** [func parseYrcToLines(yrcContent string) []*LineInfo] *)
Definition parseYrcToLines (yrcContent : gostring) : list LineInfo.t :=
  fold_left parseYrcToLines_step (Split yrcContent newline) [].

(** ** Line matchers *)

(** The body of the loop of [findClosestLine] on the loop index and the
    variables [minDiff] and [bestIndex]. *)
Definition findClosestLine_step (time : Z) (st : Z * Z * Z)
    (line : MetaLine.t) : Z * Z * Z :=
  let '(i, minDiff, bestIndex) := st in
  let timeDiff := abs (GoInt.sub (MetaLine.Time line) time) in
  if timeDiff <? minDiff then (i + 1, timeDiff, i)
  else (i + 1, minDiff, bestIndex).

(** [func findClosestLine(time int, lines []MetaLine) string] *)
Definition findClosestLine (time : Z) (lines : list MetaLine.t) : gostring :=
  let '(_, _, bestIndex) :=
    fold_left (findClosestLine_step time) lines (0, 500, -1) in
  if negb (bestIndex =? -1)
  then MetaLine.Content (nth (Z.to_nat bestIndex) lines zeroMetaLine)
  else [].

(** [func matchRomajiLine(mainLineTime int, romajiLines []*LineInfo)],
    which returns a [*LineInfo]; [None] is the [nil] pointer. *)
Fixpoint matchRomajiLine (mainLineTime : Z) (romajiLines : list LineInfo.t)
  : option LineInfo.t :=
  match romajiLines with
  | [] => None
  | romaLine :: rest =>
      let timeDiff := abs (GoInt.sub (LineInfo.StartTime romaLine) mainLineTime) in
      if timeDiff <=? 100 then Some romaLine
      else matchRomajiLine mainLineTime rest
  end.

(** ** Paragraph grouper *)

(** The content end of a line, which the source computes in place in
    [groupLinesIntoDivs], [calculateSongDuration] and [convertYrcToTtml]:
    the end of the last word when there is one, else [EndTime]. *)
Definition contentEndTime (line : LineInfo.t) : Z :=
  if (0 <? length (LineInfo.Words line))%nat then
    let lastWord := last (LineInfo.Words line) zeroWord in
    GoInt.add (WordInfo.StartTime lastWord) (WordInfo.Duration lastWord)
  else LineInfo.EndTime line.

(** [currentDiv.EndTime = ...] from the last line of [currentDiv]. *)
Definition closeDiv (currentDiv : DivInfo.t) : DivInfo.t :=
  let lastLineInCurrentDiv := last (DivInfo.Lines currentDiv) zeroLine in
  DivInfo.mk (DivInfo.StartTime currentDiv)
             (contentEndTime lastLineInCurrentDiv)
             (DivInfo.Lines currentDiv).

(** The body of the loop [for i := 1; i < len(lines); i++] on [divs],
    [currentDiv] and [lines[i-1]]; [line] is [lines[i]]. *)
Definition groupLinesIntoDivs_step (maxGap : Z)
    (st : list DivInfo.t * DivInfo.t * LineInfo.t) (line : LineInfo.t)
  : list DivInfo.t * DivInfo.t * LineInfo.t :=
  let '(divs, currentDiv, prevLine) := st in
  let prevContentEndTime := contentEndTime prevLine in
  let gap := GoInt.sub (LineInfo.StartTime line) prevContentEndTime in
  if maxGap <? gap then
    (divs ++ [closeDiv currentDiv],
     DivInfo.mk (LineInfo.StartTime line) 0 [line],
     line)
  else
    (divs,
     DivInfo.mk (DivInfo.StartTime currentDiv) (DivInfo.EndTime currentDiv)
                (DivInfo.Lines currentDiv ++ [line]),
     line).

(** [func groupLinesIntoDivs(lines []*LineInfo, maxGap int) []DivInfo] *)
Definition groupLinesIntoDivs (lines : list LineInfo.t) (maxGap : Z)
  : list DivInfo.t :=
  match lines with
  | [] => []
  | line0 :: rest =>
      let '(divs, currentDiv, _) :=
        fold_left (groupLinesIntoDivs_step maxGap) rest
          ([], DivInfo.mk (LineInfo.StartTime line0) 0 [line0], line0) in
      if (0 <? length (DivInfo.Lines currentDiv))%nat
      then divs ++ [closeDiv currentDiv]
      else divs
  end.

(** [func calculateSongDuration(lines []*LineInfo) int] *)
Definition calculateSongDuration (lines : list LineInfo.t) : Z :=
  if isEmpty lines then 0
  else
    let maxEndTime :=
      fold_left (fun maxEndTime line =>
                   if maxEndTime <? contentEndTime line
                   then contentEndTime line else maxEndTime)
                lines 0 in
    GoInt.add maxEndTime 1000.

(** ** Conversions that depend on the Go runtime *)

Section Conversions.

(** [sort.Slice(x, less)] on a slice of [MetaLine]: the sorted slice.
    The package documents that the sort is not guaranteed to be stable;
    which sorted arrangement comes out is the library's choice. *)
Variable sort_Slice :
  (MetaLine.t -> MetaLine.t -> bool) -> list MetaLine.t -> list MetaLine.t.

(** The order in which [for key, value := range meta] visits the entries
    of a map, which Go leaves unspecified. *)
Variable map_range : list (gostring * gostring) -> list (gostring * gostring).

(** *** LRC timeline parser *)

(** The body of the loop of [parseLrcTimedLines]. *)
Definition parseLrcTimedLines_step (timedLines : list MetaLine.t)
    (line : gostring) : list MetaLine.t :=
  let line := TrimSpace line in
  if isEmpty line then timedLines
  else
    match lrcTimeRe line with
    | Some (m1, m2, msStr, m4) =>
        let totalMs := lrcTotalMs m1 m2 msStr in
        let content := TrimSpace m4 in
        if negb (isEmpty content) &&
           negb (gostring_eqb content (str "//")) &&
           negb (Contains content (str "QQ音乐")) &&
           negb (Contains content (str "制作"))
        then timedLines ++ [MetaLine.mk totalMs content]
        else timedLines
    | None => timedLines
    end.

(** [less] of the call of [sort.Slice] in [parseLrcTimedLines]. *)
Definition lessTime (a b : MetaLine.t) : bool :=
  MetaLine.Time a <? MetaLine.Time b.

(** [func parseLrcTimedLines(lrcContent string) []MetaLine] *)
Definition parseLrcTimedLines (lrcContent : gostring) : list MetaLine.t :=
  if isEmpty (TrimSpace lrcContent) then []
  else
    let timedLines :=
      fold_left parseLrcTimedLines_step (Split lrcContent newline) [] in
    sort_Slice lessTime timedLines.

(** *** Merged-LRC writer *)

(** The body of the loop of [mergeLrcWithTranslation]; [result] is the
    content of the string builder. *)
Definition mergeLrcWithTranslation_step (translations : list MetaLine.t)
    (result : gostring) (line : gostring) : gostring :=
  let line := TrimSpace line in
  if isEmpty line then result
  else
    let result := result ++ line ++ [newline] in
    if isMetadataLine line then result
    else
      match lrcTimeRe line with
      | Some (m1, m2, msStr, _) =>
          let totalMs := lrcTotalMs m1 m2 msStr in
          let transText := findClosestLine totalMs translations in
          if negb (isEmpty transText)
          then result ++ msToLrcTime totalMs ++ transText ++ [newline]
          else result
      | None => result
      end.

(** [func mergeLrcWithTranslation(originalLrc, transLrc string) string] *)
Definition mergeLrcWithTranslation (originalLrc transLrc : gostring) : gostring :=
  if isEmpty (TrimSpace transLrc) then originalLrc
  else
    let translations := parseLrcTimedLines transLrc in
    fold_left (mergeLrcWithTranslation_step translations)
              (Split originalLrc newline) [].

(** *** Metadata parser *)

(** [meta[key] = value] on a map kept as a list of entries with distinct
    keys. *)
Fixpoint map_set (meta : list (gostring * gostring)) (key value : gostring)
  : list (gostring * gostring) :=
  match meta with
  | [] => [(key, value)]
  | (k, v) :: meta' =>
      if gostring_eqb k key then (key, value) :: meta'
      else (k, v) :: map_set meta' key value
  end.

(** [func parseLrcMeta(lrcContent string) map[string]string] *)
Definition parseLrcMeta (lrcContent : gostring) : list (gostring * gostring) :=
  fold_left (fun meta line =>
               match metaRe line with
               | Some (m1, m2) => map_set meta (TrimSpace m1) (TrimSpace m2)
               | None => meta
               end)
            (Split lrcContent newline) [].

(** *** TTML writer *)

Definition dquote : gostring := [ascii_of_N 34].
Definition nl : gostring := [newline].

(** A quoted attribute value. *)
Definition q (s : gostring) : gostring := dquote ++ s ++ dquote.

(** The loop over [line.Words]: one [<span>] per word. *)
Definition ttml_word (sb : gostring) (word : WordInfo.t) : gostring :=
  let wordBegin := msToTtmlTime (WordInfo.StartTime word) in
  let wordEnd :=
    msToTtmlTime (GoInt.add (WordInfo.StartTime word) (WordInfo.Duration word)) in
  sb ++ str "                <span begin=" ++ q wordBegin ++ str " end=" ++
  q wordEnd ++ str ">" ++ WordInfo.Text word ++ str "</span>" ++ nl.

(** The loop over [romaLine.Words] on [hasContent] and [romaBuilder]. *)
Definition ttml_roma_word (st : bool * gostring) (word : WordInfo.t)
  : bool * gostring :=
  let '(hasContent, romaBuilder) := st in
  let trimmed := TrimSpace (WordInfo.Text word) in
  if negb (isEmpty trimmed) then (true, romaBuilder ++ WordInfo.Text word)
  else (hasContent, romaBuilder).

(** The loop over [div.Lines] on the builder and [lineCounter]. *)
Definition ttml_line (translations : list MetaLine.t)
    (parsedRomaji : list LineInfo.t) (st : gostring * Z) (line : LineInfo.t)
  : gostring * Z :=
  let '(sb, lineCounter) := st in
  let lineBegin := msToTtmlTime (LineInfo.StartTime line) in
  let pTagEndTimeStr := msToTtmlTime (contentEndTime line) in
  let sb :=
    sb ++ str "            <p begin=" ++ q lineBegin ++ str " end=" ++
    q pTagEndTimeStr ++ str " ttm:agent=" ++ q (str "v1") ++
    str " itunes:key=" ++ q (str "L" ++ formatInt 0 lineCounter) ++
    str ">" ++ nl in
  let sb := fold_left ttml_word (LineInfo.Words line) sb in
  let transText := findClosestLine (LineInfo.StartTime line) translations in
  let sb :=
    if negb (isEmpty transText)
    then sb ++ str "                <span ttm:role=" ++ q (str "x-translation") ++
         str " xml:lang=" ++ q (str "zh-CN") ++ str ">" ++ transText ++
         str "</span>" ++ nl
    else sb in
  let sb :=
    match matchRomajiLine (LineInfo.StartTime line) parsedRomaji with
    | Some romaLine =>
        let '(hasContent, romaBuilder) :=
          fold_left ttml_roma_word (LineInfo.Words romaLine) (false, []) in
        if hasContent then
          let romaText := TrimSpace romaBuilder in
          if negb (isEmpty romaText)
          then sb ++ str "                <span ttm:role=" ++ q (str "x-roman") ++
               str ">" ++ romaText ++ str "</span>" ++ nl
          else sb
        else sb
    | None => sb
    end in
  (sb ++ str "            </p>" ++ nl, GoInt.add lineCounter 1).

(** The loop over [divs] on the builder, [lineCounter] and [divIdx]. *)
Definition ttml_div (translations : list MetaLine.t)
    (parsedRomaji : list LineInfo.t) (ndivs : Z) (st : gostring * Z * Z)
    (div : DivInfo.t) : gostring * Z * Z :=
  let '(sb, lineCounter, divIdx) := st in
  let divBegin := msToTtmlTime (DivInfo.StartTime div) in
  let divEnd := msToTtmlTime (DivInfo.EndTime div) in
  let sb :=
    sb ++ str "        <div begin=" ++ q divBegin ++ str " end=" ++ q divEnd ++
    str ">" ++ nl in
  let '(sb, lineCounter) :=
    fold_left (ttml_line translations parsedRomaji) (DivInfo.Lines div)
              (sb, lineCounter) in
  let sb := sb ++ str "        </div>" ++ nl in
  let sb := if divIdx <? ndivs - 1 then sb ++ nl else sb in
  (sb, lineCounter, divIdx + 1).

(** [func convertYrcToTtml(data *LyricData) (string, error)] *)
Definition convertYrcToTtml (data : LyricData.t) : result gostring :=
  let translations := parseLrcTimedLines (LyricData.Trans (LyricData.Data data)) in
  let parsedLines := parseYrcToLines (LyricData.Yrc (LyricData.Data data)) in
  let parsedRomaji := parseYrcToLines (LyricData.Roma (LyricData.Data data)) in
  if isEmpty parsedLines then Err (str "未找到有效的YRC歌词行")
  else
    let sb :=
      str "<?xml version=" ++ q (str "1.0") ++ str " encoding=" ++
      q (str "UTF-8") ++ str "?>" ++ nl in
    let sb :=
      sb ++ str "<tt xmlns=" ++ q (str "http://www.w3.org/ns/ttml") ++
      str " xmlns:ttm=" ++ q (str "http://www.w3.org/ns/ttml#metadata") ++
      str " xmlns:itunes=" ++
      q (str "http://music.apple.com/lyric-ttml-internal") ++
      str " itunes:timing=" ++ q (str "Word") ++ str ">" ++ nl in
    let sb := sb ++ str "    <head>" ++ nl ++ str "        <metadata>" ++ nl in
    let sb :=
      sb ++ str "            <ttm:agent type=" ++ q (str "person") ++
      str " xml:id=" ++ q (str "v1") ++ str "/>" ++ nl in
    let sb := sb ++ str "        </metadata>" ++ nl ++ str "    </head>" ++ nl in
    let songDuration := calculateSongDuration parsedLines in
    let songDurationStr := msToTtmlTime songDuration in
    let divs := groupLinesIntoDivs parsedLines 1000 in
    let sb := sb ++ str "    <body dur=" ++ q songDurationStr ++ str ">" ++ nl in
    let '(sb, _, _) :=
      fold_left (ttml_div translations parsedRomaji (Z.of_nat (length divs)))
                divs (sb, 1, 0) in
    Ok (sb ++ str "    </body>" ++ nl ++ str "</tt>" ++ nl).

(** *** Enhanced-LRC writer *)

(** The body of the loop over [rawLines] in [convertYrcToEnhancedLrc]. *)
Definition eslrc_line (translations : list MetaLine.t) (result : gostring)
    (line : gostring) : gostring :=
  let line := TrimSpace line in
  if isEmpty line || isMetadataLine line then result
  else
    match parseYrcLine line with
    | Err _ => result
    | Ok lineInfo =>
        if isEmpty (LineInfo.Words lineInfo) then result
        else
          let mainTimestamp := msToLrcTime (LineInfo.StartTime lineInfo) in
          let result := result ++ mainTimestamp in
          let result :=
            fold_left (fun result word =>
                         result ++
                         msToEnhancedLrcTime (WordInfo.StartTime word) ++
                         WordInfo.Text word)
                      (LineInfo.Words lineInfo) result in
          let result :=
            if (0 <? length (LineInfo.Words lineInfo))%nat then
              let lastWord := last (LineInfo.Words lineInfo) zeroWord in
              result ++
              msToEnhancedLrcTime
                (GoInt.add (WordInfo.StartTime lastWord)
                           (WordInfo.Duration lastWord))
            else result in
          let result := result ++ nl in
          if (0 <? length translations)%nat then
            let translation :=
              findClosestLine (LineInfo.StartTime lineInfo) translations in
            if negb (isEmpty translation)
            then result ++ mainTimestamp ++ translation ++ nl
            else result
          else result
    end.

(** [func convertYrcToEnhancedLrc(yrcContent, lrcContent, transContent,
    romaContent string) (string, error)]; the error is always [nil]. *)
Definition convertYrcToEnhancedLrc
    (yrcContent lrcContent transContent romaContent : gostring)
  : result gostring :=
  let meta := parseLrcMeta lrcContent in
  let result :=
    fold_left (fun result (entry : gostring * gostring) =>
                 let '(key, value) := entry in
                 if negb (gostring_eqb key (str "kana"))
                 then result ++ str "[" ++ key ++ str ":" ++ value ++
                      str "]" ++ nl
                 else result)
              (map_range meta) [] in
  let translations := parseLrcTimedLines transContent in
  Ok (fold_left (eslrc_line translations) (Split yrcContent newline) result).

(** *** Response builder *)

(** The closure [buildResponse] of [lyricHandler].  A failed conversion
    is logged and its field keeps the zero value, the empty string. *)
Definition buildResponse (song singer album : gostring) (data : LyricData.t)
  : UnifiedLyricResponse.t :=
  let d := LyricData.Data data in
  let lrc := mergeLrcWithTranslation (LyricData.Lrc d) (LyricData.Trans d) in
  let '(ttml, eslrc) :=
    if negb (isEmpty (LyricData.Yrc d)) then
      let ttml :=
        match convertYrcToTtml data with
        | Ok ttml => ttml
        | Err _ => []
        end in
      let eslrc :=
        match convertYrcToEnhancedLrc (LyricData.Yrc d) (LyricData.Lrc d)
                (LyricData.Trans d) (LyricData.Roma d) with
        | Ok eslrc => eslrc
        | Err _ => []
        end in
      (ttml, eslrc)
    else ([], []) in
  UnifiedLyricResponse.mk 200 (str "请求成功")
    (UnifiedLyricResponse.mkData song singer album lrc eslrc ttml).

End Conversions.

(** ** Package [sort]: [sort.Slice] as Go 1.19 and later implement it

    [sort.Slice(x, less)] runs [pdqsort_func] of [sort/zsortfunc.go]
    (pattern-defeating quicksort) on the index range of the slice.  The
    slice is a list, [Less] and [Swap] act on two indices as the
    [lessSwap] pair of the package does.  Loops whose trip count is not
    a literal carry fuel that bounds it.  The step of the pseudo-random
    generator of [breakPatterns_func] is a parameter, instantiated
    below with the package's own. *)
Module GoSort.

Local Open Scope nat_scope.

Section Pdqsort.

Context {A : Type}.
Variable less : A -> A -> bool.
Variable xorshift_Next : N -> N.

Definition Less (data : list A) (i j : nat) : bool :=
  match nth_error data i, nth_error data j with
  | Some x, Some y => less x y
  | _, _ => false
  end.

Fixpoint store (data : list A) (i : nat) (x : A) : list A :=
  match data, i with
  | [], _ => []
  | _ :: tl, O => x :: tl
  | y :: tl, S i' => y :: store tl i' x
  end.

Definition Swap (data : list A) (i j : nat) : list A :=
  match nth_error data i, nth_error data j with
  | Some x, Some y => store (store data i y) j x
  | _, _ => data
  end.

(** [for j := i; j > a && data.Less(j, j-1); j-- { data.Swap(j, j-1) }] *)
Fixpoint insertionSort_inner (data : list A) (a j : nat) : list A :=
  match j with
  | O => data
  | S j' =>
      if (a <? j) && Less data j j'
      then insertionSort_inner (Swap data j j') a j'
      else data
  end.

(** [func insertionSort_func(data lessSwap, a, b int)] *)
Definition insertionSort_func (data : list A) (a b : nat) : list A :=
  fold_left (fun data i => insertionSort_inner data a i)
            (seq (a + 1) (b - (a + 1))) data.

Fixpoint siftDown_loop (fuel : nat) (data : list A) (root hi first : nat)
  : list A :=
  match fuel with
  | O => data
  | S fuel' =>
      let child := 2 * root + 1 in
      if hi <=? child then data
      else
        let child :=
          if (child + 1 <? hi) && Less data (first + child) (first + child + 1)
          then child + 1 else child in
        if negb (Less data (first + root) (first + child)) then data
        else siftDown_loop fuel' (Swap data (first + root) (first + child))
                           child hi first
  end.

(** [func siftDown_func(data lessSwap, lo, hi, first int)] *)
Definition siftDown_func (data : list A) (lo hi first : nat) : list A :=
  siftDown_loop hi data lo hi first.

(** [func heapSort_func(data lessSwap, a, b int)] *)
Definition heapSort_func (data : list A) (a b : nat) : list A :=
  let first := a in
  let lo := 0 in
  let hi := b - a in
  let data :=
    fold_left (fun data i => siftDown_func data i hi first)
              (rev (seq 0 ((hi - 1) / 2 + 1))) data in
  fold_left (fun data i => siftDown_func (Swap data first (first + i)) lo i first)
            (rev (seq 0 hi)) data.

(** [bits.Len] *)
Definition bits_Len (n : nat) : nat := N.to_nat (N.size (N.of_nat n)).

(** [func breakPatterns_func(data lessSwap, a, b int)] *)
Definition breakPatterns_func (data : list A) (a b : nat) : list A :=
  let length := b - a in
  if 8 <=? length then
    let modulus := N.shiftl 1 (N.of_nat (bits_Len length)) in
    let idx := a + (length / 4) * 2 - 1 in
    fst (fold_left
           (fun (st : list A * N) i =>
              let '(data, random) := st in
              let random := xorshift_Next random in
              let other := N.to_nat (N.land random (modulus - 1)) in
              let other := if length <=? other then other - length else other in
              (Swap data (idx - 1 + i) (a + other), random))
           [0; 1; 2] (data, N.of_nat length))
  else data.

Inductive sortedHint : Type := unknownHint | increasingHint | decreasingHint.

(** [func order2_func(data lessSwap, a, b int, swaps *int) (int, int)] *)
Definition order2_func (data : list A) (a b swaps : nat) : nat * nat * nat :=
  if Less data b a then (b, a, swaps + 1) else (a, b, swaps).

(** [func median_func(data lessSwap, a, b, c int, swaps *int) int] *)
Definition median_func (data : list A) (a b c swaps : nat) : nat * nat :=
  let '(a, b, swaps) := order2_func data a b swaps in
  let '(b, c, swaps) := order2_func data b c swaps in
  let '(a, b, swaps) := order2_func data a b swaps in
  (b, swaps).

(** [func medianAdjacent_func(data lessSwap, a int, swaps *int) int] *)
Definition medianAdjacent_func (data : list A) (a swaps : nat) : nat * nat :=
  median_func data (a - 1) a (a + 1) swaps.

(** [func choosePivot_func(data lessSwap, a, b int) (pivot int, hint sortedHint)] *)
Definition choosePivot_func (data : list A) (a b : nat) : nat * sortedHint :=
  let l := b - a in
  let swaps := 0 in
  let i := a + l / 4 * 1 in
  let j := a + l / 4 * 2 in
  let k := a + l / 4 * 3 in
  let '(j, swaps) :=
    if 8 <=? l then
      let '(i, j, k, swaps) :=
        if 50 <=? l then
          let '(i, swaps) := medianAdjacent_func data i swaps in
          let '(j, swaps) := medianAdjacent_func data j swaps in
          let '(k, swaps) := medianAdjacent_func data k swaps in
          (i, j, k, swaps)
        else (i, j, k, swaps) in
      median_func data i j k swaps
    else (j, swaps) in
  if swaps =? 0 then (j, increasingHint)
  else if swaps =? 4 * 3 then (j, decreasingHint)
  else (j, unknownHint).

Fixpoint reverseRange_loop (fuel : nat) (data : list A) (i j : nat) : list A :=
  match fuel with
  | O => data
  | S fuel' =>
      if i <? j then reverseRange_loop fuel' (Swap data i j) (i + 1) (j - 1)
      else data
  end.

(** [func reverseRange_func(data lessSwap, a, b int)] *)
Definition reverseRange_func (data : list A) (a b : nat) : list A :=
  reverseRange_loop (b - a) data a (b - 1).

(** [for i < b && !data.Less(i, i-1) { i++ }] *)
Fixpoint skipOrdered (fuel : nat) (data : list A) (i b : nat) : nat :=
  match fuel with
  | O => i
  | S fuel' =>
      if (i <? b) && negb (Less data i (i - 1))
      then skipOrdered fuel' data (i + 1) b
      else i
  end.

(** [for j := i - 1; j >= 1; j-- { if !data.Less(j, j-1) { break }; data.Swap(j, j-1) }] *)
Fixpoint shiftLeft (data : list A) (j : nat) : list A :=
  match j with
  | O => data
  | S j' =>
      if negb (Less data j j') then data
      else shiftLeft (Swap data j j') j'
  end.

(** [for j := i + 1; j < b; j++ { if !data.Less(j, j-1) { break }; data.Swap(j, j-1) }] *)
Fixpoint shiftRight (fuel : nat) (data : list A) (j b : nat) : list A :=
  match fuel with
  | O => data
  | S fuel' =>
      if j <? b then
        if negb (Less data j (j - 1)) then data
        else shiftRight fuel' (Swap data j (j - 1)) (j + 1) b
      else data
  end.

Fixpoint partialInsertionSort_loop (steps : nat) (data : list A) (i a b : nat)
  : list A * bool :=
  match steps with
  | O => (data, false)
  | S steps' =>
      let i := skipOrdered b data i b in
      if i =? b then (data, true)
      else if b - a <? 50 then (data, false)
      else
        let data := Swap data i (i - 1) in
        let data := if 2 <=? i - a then shiftLeft data (i - 1) else data in
        let data := if 2 <=? b - i then shiftRight b data (i + 1) b else data in
        partialInsertionSort_loop steps' data i a b
  end.

(** [func partialInsertionSort_func(data lessSwap, a, b int) bool] *)
Definition partialInsertionSort_func (data : list A) (a b : nat)
  : list A * bool :=
  partialInsertionSort_loop 5 data (a + 1) a b.

(** [for i <= j && data.Less(i, a) { i++ }] *)
Fixpoint scanUp (fuel : nat) (data : list A) (a i j : nat) : nat :=
  match fuel with
  | O => i
  | S fuel' =>
      if (i <=? j) && Less data i a then scanUp fuel' data a (i + 1) j else i
  end.

(** [for i <= j && !data.Less(j, a) { j-- }] *)
Fixpoint scanDown (fuel : nat) (data : list A) (a i j : nat) : nat :=
  match fuel with
  | O => j
  | S fuel' =>
      if (i <=? j) && negb (Less data j a) then scanDown fuel' data a i (j - 1)
      else j
  end.

Fixpoint partition_loop (fuel : nat) (data : list A) (a i j : nat)
  : list A * nat :=
  match fuel with
  | O => (data, j)
  | S fuel' =>
      let i := scanUp (S j) data a i j in
      let j := scanDown (S j) data a i j in
      if j <? i then (data, j)
      else partition_loop fuel' (Swap data i j) a (i + 1) (j - 1)
  end.

(** [func partition_func(data lessSwap, a, b, pivot int) (newpivot int, alreadyPartitioned bool)] *)
Definition partition_func (data : list A) (a b pivot : nat)
  : list A * nat * bool :=
  let data := Swap data a pivot in
  let i := a + 1 in
  let j := b - 1 in
  let i := scanUp (S j) data a i j in
  let j := scanDown (S j) data a i j in
  if j <? i then (Swap data j a, j, true)
  else
    let data := Swap data i j in
    let '(data, j) := partition_loop (b - a) data a (i + 1) (j - 1) in
    (Swap data j a, j, false).

(** [for i <= j && !data.Less(a, i) { i++ }] *)
Fixpoint scanUpEqual (fuel : nat) (data : list A) (a i j : nat) : nat :=
  match fuel with
  | O => i
  | S fuel' =>
      if (i <=? j) && negb (Less data a i) then scanUpEqual fuel' data a (i + 1) j
      else i
  end.

(** [for i <= j && data.Less(a, j) { j-- }] *)
Fixpoint scanDownEqual (fuel : nat) (data : list A) (a i j : nat) : nat :=
  match fuel with
  | O => j
  | S fuel' =>
      if (i <=? j) && Less data a j then scanDownEqual fuel' data a i (j - 1)
      else j
  end.

Fixpoint partitionEqual_loop (fuel : nat) (data : list A) (a i j : nat)
  : list A * nat :=
  match fuel with
  | O => (data, i)
  | S fuel' =>
      let i := scanUpEqual (S j) data a i j in
      let j := scanDownEqual (S j) data a i j in
      if j <? i then (data, i)
      else partitionEqual_loop fuel' (Swap data i j) a (i + 1) (j - 1)
  end.

(** [func partitionEqual_func(data lessSwap, a, b, pivot int) (newpivot int)] *)
Definition partitionEqual_func (data : list A) (a b pivot : nat)
  : list A * nat :=
  let data := Swap data a pivot in
  partitionEqual_loop (S (b - a)) data a (a + 1) (b - 1).

(** [func pdqsort_func(data lessSwap, a, b, limit int)]: one unit of
    fuel per turn of its loop and per nested call; every turn shortens
    the range [a, b). *)
Fixpoint pdqsort_loop (fuel : nat) (data : list A) (a b limit : nat)
    (wasBalanced wasPartitioned : bool) : list A :=
  match fuel with
  | O => data
  | S fuel' =>
      let length := b - a in
      if length <=? 12 then insertionSort_func data a b
      else if limit =? 0 then heapSort_func data a b
      else
        let '(data, limit) :=
          if negb wasBalanced then (breakPatterns_func data a b, limit - 1)
          else (data, limit) in
        let '(pivot, hint) := choosePivot_func data a b in
        let '(data, pivot, hint) :=
          match hint with
          | decreasingHint =>
              (reverseRange_func data a b, (b - 1) - (pivot - a), increasingHint)
          | _ => (data, pivot, hint)
          end in
        let '(data, sorted) :=
          match hint with
          | increasingHint =>
              if wasBalanced && wasPartitioned
              then partialInsertionSort_func data a b
              else (data, false)
          | _ => (data, false)
          end in
        if sorted then data
        else if (0 <? a) && negb (Less data (a - 1) pivot) then
          let '(data, mid) := partitionEqual_func data a b pivot in
          pdqsort_loop fuel' data mid b limit wasBalanced wasPartitioned
        else
          let '(data, mid, alreadyPartitioned) := partition_func data a b pivot in
          let wasPartitioned := alreadyPartitioned in
          let leftLen := mid - a in
          let rightLen := b - mid in
          let balanceThreshold := length / 8 in
          if leftLen <? rightLen then
            let wasBalanced := balanceThreshold <=? leftLen in
            let data := pdqsort_loop fuel' data a mid limit true true in
            pdqsort_loop fuel' data (mid + 1) b limit wasBalanced wasPartitioned
          else
            let wasBalanced := balanceThreshold <=? rightLen in
            let data := pdqsort_loop fuel' data (mid + 1) b limit true true in
            pdqsort_loop fuel' data a mid limit wasBalanced wasPartitioned
  end.

(** [func Slice(x any, less func(i, j int) bool)] *)
Definition Slice (x : list A) : list A :=
  let length := List.length x in
  let limit := bits_Len length in
  pdqsort_loop (S length) x 0 length limit true true.

End Pdqsort.

End GoSort.

(** [func (r *xorshift) Next() uint64] of package [sort]: on the 64-bit
    state, a shift left by 13, right by 17 and left by 5.  The generator
    is consulted only after a badly balanced partition. *)
Definition xorshift64 (r : N) : N :=
  let mask := 18446744073709551615%N in
  let r := N.lxor r (N.land (N.shiftl r 13) mask) in
  let r := N.lxor r (N.shiftr r 17) in
  N.lxor r (N.land (N.shiftl r 5) mask).

(** [sort.Slice] on a slice of [MetaLine]. *)
Definition go_sort_Slice (less : MetaLine.t -> MetaLine.t -> bool)
    (x : list MetaLine.t) : list MetaLine.t :=
  GoSort.Slice less xorshift64 x.

(** One order in which a map can be ranged over: the order of insertion. *)
Definition insertion_order (meta : list (gostring * gostring))
  : list (gostring * gostring) := meta.

(** ** The HTTP handler

    The handler reaches the upstream service through [http.Client.Get]
    and decodes its answers with [json.Unmarshal]; both are parameters.
    Every function that may call the upstream service returns, beside
    its result, the URLs it requested, in order.  Logging, the response
    headers of [renderJSON] and the JSON encoding of a reply are left
    out: a reply is its status code and the value that is encoded. *)

(** The value a map holds for a key, if any. *)
Fixpoint map_lookup (meta : list (gostring * gostring)) (key : gostring)
  : option gostring :=
  match meta with
  | [] => None
  | (k, v) :: meta' => if gostring_eqb k key then Some v else map_lookup meta' key
  end.

(** [meta[key]]: the zero value, the empty string, for a missing key. *)
Definition map_index (meta : list (gostring * gostring)) (key : gostring)
  : gostring :=
  match map_lookup meta key with
  | Some value => value
  | None => []
  end.

(** The bytes [url.QueryEscape] leaves as they are: letters, digits and
    the four marks. *)
Definition isUnreserved (c : ascii) : bool :=
  let n := N_of_ascii c in
  ((97 <=? n) && (n <=? 122) || (65 <=? n) && (n <=? 90) ||
   (48 <=? n) && (n <=? 57))%N ||
  Ascii.eqb c "-" || Ascii.eqb c "_" || Ascii.eqb c "." || Ascii.eqb c "~".

Definition upperhex (n : N) : ascii :=
  nth (N.to_nat n) (str "0123456789ABCDEF") "0"%char.

(** [url.QueryEscape]: a space becomes a plus sign, every other byte
    that is not unreserved becomes a percent sign and two hexadecimal
    digits. *)
Definition QueryEscape (s : gostring) : gostring :=
  flat_map (fun c =>
              if isUnreserved c then [c]
              else if Ascii.eqb c " " then ["+"%char]
              else ["%"%char; upperhex (N_of_ascii c / 16);
                    upperhex (N_of_ascii c mod 16)])
           s.

Module SearchSongItemRaw.
Record t : Type :=
  mk { ID : Z; MID : gostring; Song : gostring; Singer : gostring;
       Album : gostring }.
End SearchSongItemRaw.

Module SearchSongItemSimplified.
Record t : Type :=
  mk { N : Z; Song : gostring; Singer : gostring; ID : Z; MID : gostring;
       Album : gostring }.
End SearchSongItemSimplified.

(** The anonymous struct [rawResult] of [searchSongs]. *)
Module RawSearchResult.
Record t : Type :=
  mk { Code : Z; Message : gostring; Data : list SearchSongItemRaw.t }.
End RawSearchResult.

Module SearchResponse.
Record t : Type :=
  mk { Code : Z; Message : gostring; Data : list SearchSongItemSimplified.t }.
End SearchResponse.

Module ErrorResponse.
Record t : Type := mk { Code : Z; Message : gostring; Details : gostring }.
End ErrorResponse.

(** What [client.Get] returns when it returns no error; [Body] is the
    outcome of [io.ReadAll(resp.Body)]. *)
Module HttpResponse.
Record t : Type :=
  mk { StatusCode : Z; Status : gostring; Body : result gostring }.
End HttpResponse.

(** The part of a request the handler reads: the method and the four
    query parameters ([query.Get] gives the empty string for a missing
    one). *)
Module Request.
Record t : Type :=
  mk { Method : gostring; id : gostring; mid : gostring; word : gostring;
       n : gostring }.
End Request.

(** What the handler writes: the status code and the value encoded as
    JSON, the raw bytes written as they are, or nothing. *)
Inductive Reply : Type :=
| ReplyError (status : Z) (resp : ErrorResponse.t)
| ReplySearch (status : Z) (resp : SearchResponse.t)
| ReplyLyric (status : Z) (resp : UnifiedLyricResponse.t)
| ReplyRaw (status : Z) (body : gostring)
| ReplyEmpty (status : Z).

Definition zeroSong : SearchSongItemSimplified.t :=
  SearchSongItemSimplified.mk 0 [] [] 0 [] [].

Definition UPSTREAM_API_BASE : gostring :=
  str "https://api.vkeys.cn/v2/music/tencent".

Definition UPSTREAM_LYRIC_API : gostring := UPSTREAM_API_BASE ++ str "/lyric".

Section Handler.

Variable sort_Slice :
  (MetaLine.t -> MetaLine.t -> bool) -> list MetaLine.t -> list MetaLine.t.
Variable map_range : list (gostring * gostring) -> list (gostring * gostring).

(** [client.Get(url)] of a client with a ten-second timeout: the
    response, or the message of the error. *)
Variable http_Get : gostring -> result HttpResponse.t.

(** [json.Unmarshal] of the body of a search answer and of a lyric
    answer: the decoded value, or the message of the error. *)
Variable json_Unmarshal_search : gostring -> result RawSearchResult.t.
Variable json_Unmarshal_lyric : gostring -> result LyricData.t.

(** The body of the loop over [rawResult.Data] on [simplifiedSongs] and
    the loop index. *)
Definition searchSongs_step (st : list SearchSongItemSimplified.t * Z)
    (item : SearchSongItemRaw.t) : list SearchSongItemSimplified.t * Z :=
  let '(simplifiedSongs, i) := st in
  (simplifiedSongs ++
   [SearchSongItemSimplified.mk (i + 1) (SearchSongItemRaw.Song item)
      (SearchSongItemRaw.Singer item) (SearchSongItemRaw.ID item)
      (SearchSongItemRaw.MID item) (SearchSongItemRaw.Album item)],
   i + 1).

(** [func searchSongs(word string, num int) ([]SearchSongItemSimplified, error)] *)
Definition searchSongs (word : gostring) (num : Z)
  : result (list SearchSongItemSimplified.t) * list gostring :=
  let searchURL :=
    UPSTREAM_API_BASE ++ str "?word=" ++ QueryEscape word ++ str "&num=" ++
    formatInt 0 num in
  (match http_Get searchURL with
   | Err err => Err (str "搜索请求失败: " ++ err)
   | Ok resp =>
       match HttpResponse.Body resp with
       | Err err => Err (str "读取搜索响应失败: " ++ err)
       | Ok body =>
           if negb (HttpResponse.StatusCode resp =? 200)
           then Err (str "搜索API返回状态: " ++ HttpResponse.Status resp)
           else
             match json_Unmarshal_search body with
             | Err err => Err (str "解析搜索结果失败: " ++ err)
             | Ok rawResult =>
                 if negb (RawSearchResult.Code rawResult =? 200)
                 then Err (str "搜索API返回错误: " ++
                           RawSearchResult.Message rawResult)
                 else
                   Ok (fst (fold_left searchSongs_step
                              (RawSearchResult.Data rawResult) ([], 0)))
             end
       end
   end,
   [searchURL]).

(** The part of [fetchLyricData] after the choice of [requestURL]. *)
Definition fetchLyricData_from (requestURL : gostring)
  : result (LyricData.t * gostring) * list gostring :=
  (match http_Get requestURL with
   | Err err => Err (str "上游歌词API请求失败: " ++ err)
   | Ok resp =>
       if negb (HttpResponse.StatusCode resp =? 200)
       then Err (str "上游歌词API返回状态: " ++ HttpResponse.Status resp)
       else
         match HttpResponse.Body resp with
         | Err err => Err (str "读取歌词响应体失败: " ++ err)
         | Ok body =>
             match json_Unmarshal_lyric body with
             | Err err => Err (str "解析上游歌词JSON失败: " ++ err)
             | Ok lyricData => Ok (lyricData, body)
             end
         end
   end,
   [requestURL]).

(** [func fetchLyricData(id, mid string)], which returns a [*LyricData],
    the body and an [error]. *)
Definition fetchLyricData (id mid : gostring)
  : result (LyricData.t * gostring) * list gostring :=
  if negb (isEmpty id)
  then fetchLyricData_from (UPSTREAM_LYRIC_API ++ str "?id=" ++ id)
  else if negb (isEmpty mid)
  then fetchLyricData_from (UPSTREAM_LYRIC_API ++ str "?mid=" ++ mid)
  else (Err (str "ID 和 MID 均为空"), []).

(** [func writeErrorJSON(w http.ResponseWriter, code int, message string,
    details string)] *)
Definition writeErrorJSON (code : Z) (message details : gostring) : Reply :=
  ReplyError code (ErrorResponse.mk code message details).

(** [func lyricHandler(w http.ResponseWriter, r *http.Request)] *)
Definition lyricHandler (r : Request.t) : Reply * list gostring :=
  let id := Request.id r in
  let mid := Request.mid r in
  let word := Request.word r in
  let nStr := Request.n r in
  if negb (isEmpty word) then
    let n := Atoi nStr in
    let '(found, requested) := searchSongs word 10 in
    match found with
    | Err err => (writeErrorJSON 502 (str "搜索歌曲失败") err, requested)
    | Ok songs =>
        if n <=? 0 then
          (ReplySearch 200
             (SearchResponse.mk 200
                (str "请求成功，请通过 n 参数选择歌曲获取歌词") songs),
           requested)
        else if Z.of_nat (length songs) <? n then
          (writeErrorJSON 404 (str "歌曲索引超出范围")
             (str "搜索 '" ++ word ++ str "' 只找到 " ++
              formatInt 0 (Z.of_nat (length songs)) ++ str " 首歌"),
           requested)
        else
          let song := nth (Z.to_nat (GoInt.sub n 1)) songs zeroSong in
          let '(fetched, requested2) :=
            fetchLyricData [] (SearchSongItemSimplified.MID song) in
          match fetched with
          | Err err =>
              (writeErrorJSON 502 (str "获取歌词失败") err,
               requested ++ requested2)
          | Ok (data, _) =>
              if negb (LyricData.Code data =? 200)
              then (writeErrorJSON 404 (str "未找到歌词") (LyricData.Message data),
                    requested ++ requested2)
              else
                (ReplyLyric 200
                   (buildResponse sort_Slice map_range
                      (SearchSongItemSimplified.Song song)
                      (SearchSongItemSimplified.Singer song)
                      (SearchSongItemSimplified.Album song) data),
                 requested ++ requested2)
          end
    end
  else if negb (isEmpty id) || negb (isEmpty mid) then
    let '(fetched, requested) := fetchLyricData id mid in
    match fetched with
    | Err err => (writeErrorJSON 502 (str "获取上游数据失败") err, requested)
    | Ok (data, rawJSON) =>
        if negb (LyricData.Code data =? 200) then (ReplyRaw 424 rawJSON, requested)
        else
          let meta := parseLrcMeta (LyricData.Lrc (LyricData.Data data)) in
          let songTitle := map_index meta (str "ti") in
          let singer := map_index meta (str "ar") in
          let album := map_index meta (str "al") in
          (ReplyLyric 200
             (buildResponse sort_Slice map_range songTitle singer album data),
           requested)
    end
  else
    (writeErrorJSON 400 (str "缺少参数")
       (str "请提供 'id', 'mid' 或 'word' 参数"),
     []).

(** The three CORS headers [Handler] sets on every response. *)
Definition corsHeaders : list (gostring * gostring) :=
  [(str "Access-Control-Allow-Origin", str "*");
   (str "Access-Control-Allow-Methods", str "GET, POST, OPTIONS");
   (str "Access-Control-Allow-Headers", str "Content-Type")].

(** [func Handler(w http.ResponseWriter, r *http.Request)]: the headers,
    the reply and the URLs requested upstream. *)
Definition Handler (r : Request.t)
  : list (gostring * gostring) * Reply * list gostring :=
  if gostring_eqb (Request.Method r) (str "OPTIONS")
  then (corsHeaders, ReplyEmpty 200, [])
  else let '(reply, requested) := lyricHandler r in
       (corsHeaders, reply, requested).

End Handler.

(** * Vocabulary of the properties

    The predicates, loop invariants, reference definitions in the words
    of the specification and sample inputs the properties are stated
    with. *)

(** A time the parsers can produce: [strconv.Atoi] of a run of digits. *)
Definition timeRange (t : Z) : Prop := 0 <= t <= GoInt.maxInt.

(** What a match of [lrcTimeRe] looks like. *)
Definition lrcStamp (mm ss frac : gostring) : gostring :=
  str "[" ++ mm ++ str ":" ++ ss ++ str "." ++ frac ++ str "]".

(** A romanization line of one word starting at the given time. *)
Definition romaLineAt (startTime : Z) : LineInfo.t :=
  LineInfo.mk [WordInfo.mk (str "a") startTime 100] startTime (startTime + 100).

(** The invariant of the loop of [findClosestLine] after the lines
    [seen]: [bestIndex] points at a line at the least distance seen,
    when that distance is below 500. *)
Definition closestInv (time : Z) (seen : list MetaLine.t) (st : Z * Z * Z) : Prop :=
  let '(i, minDiff, bestIndex) := st in
  i = Z.of_nat (length seen) /\
  ((bestIndex = -1 /\ minDiff = 500 /\
    Forall (fun e => 500 <= Z.abs (MetaLine.Time e - time)) seen) \/
   (0 <= bestIndex < i /\ minDiff < 500 /\
    Z.abs (MetaLine.Time (nth (Z.to_nat bestIndex) seen zeroMetaLine) - time)
      = minDiff /\
    Forall (fun e => minDiff <= Z.abs (MetaLine.Time e - time)) seen)).

(** [gap := lines[i].StartTime - prevContentEndTime], in Go's
    arithmetic. *)
Definition gapAfter (prevLine line : LineInfo.t) : Z :=
  GoInt.sub (LineInfo.StartTime line) (contentEndTime prevLine).

(** [R] holds of every two neighbours of a sequence. *)
Fixpoint adjacent {A : Type} (R : A -> A -> Prop) (l : list A) : Prop :=
  match l with
  | a :: tl =>
      match tl with
      | b :: _ => R a b /\ adjacent R tl
      | [] => True
      end
  | [] => True
  end.

Section GroupingVocabulary.

Variable maxGap : Z.

(** Two neighbouring lines stay in one paragraph. *)
Definition joined (a b : LineInfo.t) : Prop := gapAfter a b <= maxGap.

(** Two neighbouring paragraphs are split by a gap above the threshold. *)
Definition splitBetween (g1 g2 : list LineInfo.t) : Prop :=
  maxGap < gapAfter (last g1 zeroLine) (hd zeroLine g2).

(** A finished paragraph: its bounds and its lines. *)
Definition closedDiv (d : DivInfo.t) : Prop :=
  DivInfo.Lines d <> [] /\
  DivInfo.StartTime d = LineInfo.StartTime (hd zeroLine (DivInfo.Lines d)) /\
  DivInfo.EndTime d = contentEndTime (last (DivInfo.Lines d) zeroLine) /\
  adjacent joined (DivInfo.Lines d).

(** The invariant of the loop of [groupLinesIntoDivs] after the lines
    [seen]. *)
Definition groupInv (seen : list LineInfo.t)
    (st : list DivInfo.t * DivInfo.t * LineInfo.t) : Prop :=
  let '(divs, currentDiv, prevLine) := st in
  concat (map DivInfo.Lines divs) ++ DivInfo.Lines currentDiv = seen /\
  DivInfo.Lines currentDiv <> [] /\
  prevLine = last (DivInfo.Lines currentDiv) zeroLine /\
  DivInfo.StartTime currentDiv
    = LineInfo.StartTime (hd zeroLine (DivInfo.Lines currentDiv)) /\
  Forall closedDiv divs /\
  adjacent joined (DivInfo.Lines currentDiv) /\
  adjacent splitBetween (map DivInfo.Lines divs ++ [DivInfo.Lines currentDiv]).

End GroupingVocabulary.

(** The effective end of the content of a line, in the words of the
    specification: the start of its last word plus the duration of that
    word, and the end of the line when it has no word.  It is a number,
    not a Go [int]: nothing wraps. *)
Definition effectiveEnd (line : LineInfo.t) : Z :=
  match rev (LineInfo.Words line) with
  | lastWord :: _ => WordInfo.StartTime lastWord + WordInfo.Duration lastWord
  | [] => LineInfo.EndTime line
  end.

(** The gap between the content of a line and the start of the next, as
    a number. *)
Definition trueGap (prevLine line : LineInfo.t) : Z :=
  LineInfo.StartTime line - effectiveEnd prevLine.

(** A line whose start and whose effective end are times: between 0 and
    the largest [int].  On such lines no sum and no difference of the
    grouper wraps. *)
Definition steady (line : LineInfo.t) : Prop :=
  timeRange (LineInfo.StartTime line) /\ timeRange (effectiveEnd line).

Section ParagraphVocabulary.

Variable maxGap : Z.

(** Two neighbouring lines the threshold keeps in one paragraph. *)
Definition sameParagraph (a b : LineInfo.t) : Prop := trueGap a b <= maxGap.

(** Two neighbouring paragraphs: the gap between the last line of the
    first and the first line of the second is above the threshold. *)
Definition boundary (g1 g2 : list LineInfo.t) : Prop :=
  maxGap < trueGap (last g1 zeroLine) (hd zeroLine g2).

(** A paragraph: it has a line, starts with its first line, ends at the
    effective end of its last line, and no gap inside it is above the
    threshold. *)
Definition paragraph (d : DivInfo.t) : Prop :=
  DivInfo.Lines d <> [] /\
  DivInfo.StartTime d = LineInfo.StartTime (hd zeroLine (DivInfo.Lines d)) /\
  DivInfo.EndTime d = effectiveEnd (last (DivInfo.Lines d) zeroLine) /\
  adjacent sameParagraph (DivInfo.Lines d).

End ParagraphVocabulary.

(** A line of one word sung from [startTime] for [duration], in a line
    slot that stays open five seconds after the word. *)
Definition sungLine (startTime duration : Z) : LineInfo.t :=
  LineInfo.mk [WordInfo.mk (str "la") startTime duration] startTime
              (startTime + duration + 5000).

(** A capture of a digit group: a non-empty run of digits. *)
Definition digitRun (s : gostring) : Prop :=
  s <> [] /\ forallb isDigit s = true.

(** A match of [wordInfoRe]: its two numbers are runs of digits. *)
Definition timedMatch (m : gostring * gostring * gostring) : Prop :=
  let '(_, start, dur) := m in digitRun start /\ digitRun dur.

(** The zero-duration correction in the words of the specification: a
    match with duration 0 and blank text is dropped ... *)
Definition survives (m : gostring * gostring * gostring) : bool :=
  let '(text, _, dur) := m in
  negb ((Atoi dur =? 0) && isEmpty (TrimSpace text)).

(** ... and a surviving match becomes a word whose duration is forced to
    1 when it was 0. *)
Definition correctedWord (m : gostring * gostring * gostring) : WordInfo.t :=
  let '(text, start, dur) := m in
  WordInfo.mk text (Atoi start) (if Atoi dur =? 0 then 1 else Atoi dur).

(** The word made of the whole segment text, spanning the line. *)
Definition wholeLineWord (m1 m2 content : gostring) : WordInfo.t :=
  WordInfo.mk content (Atoi m1) (Z.max 1 (Atoi m2)).

(** The two watermark texts of the upstream provider. *)
Definition watermarks : list gostring := [str "QQ音乐"; str "制作"].

(** The entry of a line in the words of the specification: the trimmed
    line matches the time-stamp pattern, and its trimmed text is not
    empty, is not the bare separator and contains no watermark. *)
Definition retainedEntry (line : gostring) : option MetaLine.t :=
  match lrcTimeRe (TrimSpace line) with
  | Some (mm, ss, frac, text) =>
      let content := TrimSpace text in
      if isEmpty content || gostring_eqb content (str "//") ||
         existsb (Contains content) watermarks
      then None
      else Some (MetaLine.mk (lrcTotalMs mm ss frac) content)
  | None => None
  end.

(** The retained entries of a text, in the order of its lines. *)
Definition retainedEntries (lrcContent : gostring) : list MetaLine.t :=
  flat_map (fun line => match retainedEntry line with
                        | Some entry => [entry]
                        | None => []
                        end)
           (Split lrcContent newline).

(** A stable insertion sort, one sort that does what [sort.Slice]
    documents. *)
Fixpoint insertSorted {A : Type} (less : A -> A -> bool) (x : A) (l : list A)
  : list A :=
  match l with
  | [] => [x]
  | y :: l' => if less y x then y :: insertSorted less x l' else x :: l
  end.

Definition insertionSort {A : Type} (less : A -> A -> bool) (l : list A)
  : list A :=
  fold_right (insertSorted less) [] l.

(** Thirteen lines, the first twelve at the same time. *)
Definition thirteenLines : gostring :=
  str "[00:01.00]a
[00:01.00]b
[00:01.00]c
[00:01.00]d
[00:01.00]e
[00:01.00]f
[00:01.00]g
[00:01.00]h
[00:01.00]i
[00:01.00]j
[00:01.00]k
[00:01.00]l
[00:00.00]m".

(** The entries with the given time, in the order of the sequence. *)
Definition entriesAt (time : Z) (entries : list MetaLine.t) : list gostring :=
  map MetaLine.Content (filter (fun e => MetaLine.Time e =? time) entries).

(** The lines of the original text the writer looks at: trimmed, the
    blank ones left out. *)
Definition keptLines (originalLrc : gostring) : list gostring :=
  filter (fun line => negb (isEmpty line))
         (map TrimSpace (Split originalLrc newline)).

(** The translation line that follows a line, if any: none for a
    metadata line or a line the time-stamp pattern does not match, else
    the re-encoded time of the line and the closest translation. *)
Definition translationLine (translations : list MetaLine.t) (line : gostring)
  : option gostring :=
  if isMetadataLine line then None
  else
    match lrcTimeRe line with
    | Some (mm, ss, frac, _) =>
        let totalMs := lrcTotalMs mm ss frac in
        let transText := findClosestLine totalMs translations in
        if isEmpty transText then None
        else Some (msToLrcTime totalMs ++ transText)
    | None => None
    end.

(** What one line of the original contributes to the output. *)
Definition mergedLines (translations : list MetaLine.t) (line : gostring)
  : list gostring :=
  line ::
  match translationLine translations line with
  | Some translated => [translated]
  | None => []
  end.

(** The text made of the given lines, each ended by a newline. *)
Definition unlines (lines : list gostring) : gostring :=
  concat (map (fun line => line ++ [newline]) lines).

(** The songs of a search answer numbered from [start + 1] on, in the
    order of the answer. *)
Fixpoint numberedFrom (start : Z) (data : list SearchSongItemRaw.t)
  : list SearchSongItemSimplified.t :=
  match data with
  | [] => []
  | item :: rest =>
      SearchSongItemSimplified.mk (start + 1) (SearchSongItemRaw.Song item)
        (SearchSongItemRaw.Singer item) (SearchSongItemRaw.ID item)
        (SearchSongItemRaw.MID item) (SearchSongItemRaw.Album item)
      :: numberedFrom (start + 1) rest
  end.

(** The URL of a search for a word, asking for ten results. *)
Definition searchURL10 (word : gostring) : gostring :=
  UPSTREAM_API_BASE ++ str "?word=" ++ QueryEscape word ++ str "&num=10".

(** An upstream service for the examples: every request is answered
    with status 200 and a body that repeats the URL; a search answer
    decodes to two songs, a lyric answer to one line with a title
    tag. *)
Definition sample_http_Get (url : gostring) : result HttpResponse.t :=
  Ok (HttpResponse.mk 200 (str "200 OK") (Ok url)).

Definition sample_search (body : gostring) : result RawSearchResult.t :=
  Ok (RawSearchResult.mk 200 (str "ok")
        [SearchSongItemRaw.mk 11 (str "m1") (str "One") (str "Ann") (str "A");
         SearchSongItemRaw.mk 22 (str "m2") (str "Two") (str "Bob") (str "B")]).

Definition sample_lyric (body : gostring) : result LyricData.t :=
  Ok (LyricData.mk 200 (str "ok")
        (LyricData.mkData (str "[ti: Title ]" ++ [newline] ++ str "[00:01.00]la")
                          [] [] [])).

Definition sample_request (word n : gostring) : Request.t :=
  Request.mk (str "GET") [] [] word n.

(** The value of an upper-case hexadecimal digit. *)
Definition hexValue (c : ascii) : N :=
  let n := N_of_ascii c in
  if (n <? 58)%N then (n - 48)%N else (n - 55)%N.

(** Reading an escaped query component back: a plus sign is a space, a
    percent sign and two hexadecimal digits are one byte. *)
Fixpoint unescape (s : gostring) : gostring :=
  match s with
  | [] => []
  | c :: rest =>
      if Ascii.eqb c "+" then " "%char :: unescape rest
      else if Ascii.eqb c "%" then
        match rest with
        | h1 :: h2 :: rest' =>
            ascii_of_N (16 * hexValue h1 + hexValue h2) :: unescape rest'
        | _ => [c]
        end
      else c :: unescape rest
  end.

(** The tag lines at the head of the enhanced LRC: one per entry of the
    map in the order of the iteration, [kana] left out. *)
Definition eslrcTags (entries : list (gostring * gostring)) : gostring :=
  concat (map (fun entry : gostring * gostring =>
                 str "[" ++ fst entry ++ str ":" ++ snd entry ++ str "]" ++ nl)
              (filter (fun entry : gostring * gostring =>
                         negb (gostring_eqb (fst entry) (str "kana")))
                      entries)).

(** The enhanced-LRC text of one parsed line: its time stamp, its words
    each behind its own time stamp, the end of the last word, and the
    translation line when there is one. *)
Definition eslrcOf (translations : list MetaLine.t) (lineInfo : LineInfo.t)
  : gostring :=
  let mainTimestamp := msToLrcTime (LineInfo.StartTime lineInfo) in
  let translation := findClosestLine (LineInfo.StartTime lineInfo) translations in
  mainTimestamp ++
  concat (map (fun word =>
                 msToEnhancedLrcTime (WordInfo.StartTime word) ++
                 WordInfo.Text word)
              (LineInfo.Words lineInfo)) ++
  msToEnhancedLrcTime (contentEndTime lineInfo) ++ nl ++
  (if isEmpty translation then [] else mainTimestamp ++ translation ++ nl).

(** The lines the YRC parser keeps of a list of raw lines. *)
Definition parsedOf (rawLines : list gostring) : list LineInfo.t :=
  fold_left parseYrcToLines_step rawLines [].

(** * Properties *)

(** ** Strings *)

Lemma gostring_eqb_eq (a b : gostring) : gostring_eqb a b = true <-> a = b.
Proof.
  unfold gostring_eqb. destruct (list_eq_dec ascii_dec a b); split; congruence.
Qed.

Lemma gostring_eqb_neq (a b : gostring) : gostring_eqb a b = false <-> a <> b.
Proof.
  unfold gostring_eqb. destruct (list_eq_dec ascii_dec a b); split; congruence.
Qed.

Lemma gostring_eqb_refl (a : gostring) : gostring_eqb a a = true.
Proof. now apply gostring_eqb_eq. Qed.


(** ** Machine integers *)

Lemma wrap_inRange (z : Z) : GoInt.inRange z -> GoInt.wrap z = z.
Proof.
  unfold GoInt.inRange, GoInt.wrap, GoInt.minInt, GoInt.maxInt. intros H.
  rewrite Z.mod_small; lia.
Qed.

Lemma wrap_range (z : Z) : GoInt.inRange (GoInt.wrap z).
Proof.
  unfold GoInt.inRange, GoInt.wrap, GoInt.minInt, GoInt.maxInt.
  pose proof (Z.mod_pos_bound (z + 9223372036854775808) 18446744073709551616).
  lia.
Qed.

Lemma abs_small (x : Z) :
  GoInt.minInt < x <= GoInt.maxInt -> abs x = Z.abs x.
Proof.
  unfold abs, GoInt.neg, GoInt.minInt, GoInt.maxInt. intros H.
  destruct (Z.ltb_spec x 0).
  - rewrite wrap_inRange; [lia|]. unfold GoInt.inRange, GoInt.minInt, GoInt.maxInt. lia.
  - lia.
Qed.

Lemma abs_sub_time (a b : Z) :
  timeRange a -> timeRange b -> abs (GoInt.sub a b) = Z.abs (a - b).
Proof.
  unfold timeRange, GoInt.sub, GoInt.maxInt. intros Ha Hb.
  rewrite wrap_inRange by (unfold GoInt.inRange, GoInt.minInt, GoInt.maxInt; lia).
  apply abs_small. unfold GoInt.minInt, GoInt.maxInt. lia.
Qed.

(** ** Digits *)

Lemma isDigit_digitChar (c : ascii) :
  isDigit c = true -> 0 <= digitVal c <= 9 /\ c = digitChar (digitVal c).
Proof.
  unfold isDigit, digitVal, digitChar. intros H.
  apply andb_true_iff in H. destruct H as [H1 H2].
  apply N.leb_le in H1. apply N.leb_le in H2. split; [lia|].
  replace (48 + Z.to_N (Z.of_N (N_of_ascii c) - 48))%N with (N_of_ascii c) by lia.
  now rewrite ascii_N_embedding.
Qed.

Lemma digit_cases (d : Z) :
  0 <= d <= 9 ->
  d = 0 \/ d = 1 \/ d = 2 \/ d = 3 \/ d = 4 \/ d = 5 \/ d = 6 \/ d = 7 \/
  d = 8 \/ d = 9.
Proof. lia. Qed.

Ltac each_digit d H :=
  let C := fresh in
  pose proof (digit_cases d H) as C;
  repeat (destruct C as [C | C]); subst d.

Lemma digitChar_isDigit (d : Z) :
  0 <= d <= 9 ->
  isDigit (digitChar d) = true /\ digitVal (digitChar d) = d /\
  Ascii.eqb (digitChar d) "-" = false /\ Ascii.eqb (digitChar d) "+" = false.
Proof. intros H. each_digit d H; repeat split. Qed.

Lemma decimalValue_app (s : gostring) (c : ascii) :
  decimalValue (s ++ [c]) = 10 * decimalValue s + digitVal c.
Proof. unfold decimalValue. now rewrite fold_left_app. Qed.

Lemma decimalValue_nonneg (s : gostring) :
  forallb isDigit s = true -> 0 <= decimalValue s.
Proof.
  induction s as [|c s IH] using rev_ind; intros H.
  - reflexivity.
  - rewrite forallb_app in H. apply andb_true_iff in H. destruct H as [H1 H2].
    simpl in H2. rewrite andb_true_r in H2.
    rewrite decimalValue_app. specialize (IH H1).
    destruct (isDigit_digitChar c H2). lia.
Qed.

Lemma decimal_loop_ge (s : gostring) (n : Z) :
  forallb isDigit s = true -> 0 <= n ->
  n <= fold_left (fun n c => 10 * n + digitVal c) s n.
Proof.
  revert n. induction s as [|c s IH]; intros n Hd Hn; cbn [fold_left]; [lia|].
  cbn [forallb] in Hd. apply andb_true_iff in Hd. destruct Hd as [Hc Hd].
  destruct (isDigit_digitChar c Hc) as [Hr _].
  specialize (IH (10 * n + digitVal c) Hd ltac:(lia)). lia.
Qed.

(** [ParseUint] on a run of digits: the number they spell, or the range
    error when it is above the largest [uint64]. *)
Lemma ParseUint_loop_digits (s : gostring) (n : Z) :
  forallb isDigit s = true -> 0 <= n <= maxUint64 ->
  ParseUint_loop s n
  = if fold_left (fun n c => 10 * n + digitVal c) s n <=? maxUint64
    then parsedOk (fold_left (fun n c => 10 * n + digitVal c) s n)
    else errRange.
Proof.
  revert n. induction s as [|c s IH]; intros n Hd Hn; cbn [ParseUint_loop fold_left].
  - destruct (Z.leb_spec n maxUint64); [reflexivity | lia].
  - cbn [forallb] in Hd. apply andb_true_iff in Hd. destruct Hd as [Hc Hd].
    destruct (isDigit_digitChar c Hc) as [Hr _].
    rewrite Hc. cbn [negb]. cbv zeta.
    pose proof (decimal_loop_ge s (10 * n + digitVal c) Hd ltac:(lia)) as G.
    unfold maxUint64 in *.
    change (18446744073709551615 / 10 + 1) with 1844674407370955162.
    destruct (Z.leb_spec 1844674407370955162 n).
    + destruct (Z.leb_spec (fold_left (fun n c => 10 * n + digitVal c) s
                              (10 * n + digitVal c)) 18446744073709551615);
        [lia | reflexivity].
    + destruct (Z.ltb_spec 18446744073709551615 (10 * n + digitVal c)).
      * destruct (Z.leb_spec (fold_left (fun n c => 10 * n + digitVal c) s
                                (10 * n + digitVal c)) 18446744073709551615);
          [lia | reflexivity].
      * apply IH; [assumption | lia].
Qed.

(** The number [ParseUint] returns is not negative. *)
Lemma ParseUint_loop_nonneg (s : gostring) (n un : Z) :
  0 <= n -> ParseUint_loop s n = parsedOk un -> 0 <= un <= maxUint64 \/ un = n.
Proof.
  revert n. induction s as [|c s IH]; intros n Hn; cbn [ParseUint_loop].
  - intros H. inversion H. now right.
  - destruct (isDigit c) eqn:Hc; cbn [negb]; [|discriminate].
    destruct (isDigit_digitChar c Hc) as [Hr _].
    destruct (maxUint64 / 10 + 1 <=? n); [discriminate|]. cbv zeta.
    destruct (Z.ltb_spec maxUint64 (10 * n + digitVal c)); [discriminate|].
    intros HP.
    destruct (IH (10 * n + digitVal c) ltac:(lia) HP) as [R | ->]; left;
      unfold maxUint64 in *; lia.
Qed.

(** [strconv.Atoi] on a run of digits, which is all the regular
    expressions ever hand to it. *)
Lemma Atoi_digits (s : gostring) :
  s <> [] -> forallb isDigit s = true ->
  Atoi s = Z.min (decimalValue s) GoInt.maxInt.
Proof.
  intros Hne Hd. destruct s as [|c s]; [congruence|].
  assert (Hc : isDigit c = true) by (simpl in Hd; now apply andb_true_iff in Hd).
  destruct (isDigit_digitChar c Hc) as [Hr Hch].
  destruct (digitChar_isDigit _ Hr) as (_ & _ & Hm & Hp).
  unfold Atoi. rewrite Hch, Hp, Hm, <- Hch. cbv zeta.
  unfold ParseUint. change (isEmpty (c :: s)) with false. cbv iota.
  rewrite ParseUint_loop_digits by (try assumption; unfold maxUint64; lia).
  fold (decimalValue (c :: s)).
  pose proof (decimalValue_nonneg (c :: s) Hd).
  cbn [negb andb]. unfold maxUint64, GoInt.maxInt.
  destruct (Z.leb_spec (decimalValue (c :: s)) 18446744073709551615).
  - destruct (Z.leb_spec 9223372036854775808 (decimalValue (c :: s))); lia.
  - change (9223372036854775808 <=? 18446744073709551615) with true.
    cbv iota. lia.
Qed.

(** The range error comes before the syntax error when the digits
    overflow first, and then the value is the bound, not 0. *)
Lemma Atoi_range_before_syntax :
  Atoi (str "99999999999999999999x") = GoInt.maxInt /\
  Atoi (str "-99999999999999999999x") = GoInt.minInt /\
  Atoi (str "9999999999999999999x") = 0 /\
  Atoi (str "12x") = 0 /\
  Atoi (str "-12") = -12 /\
  Atoi (str "+") = 0 /\
  Atoi (str "-9223372036854775808") = GoInt.minInt.
Proof. repeat split; reflexivity. Qed.

Lemma Atoi_timeRange (s : gostring) :
  s <> [] -> forallb isDigit s = true -> timeRange (Atoi s).
Proof.
  intros Hne Hd. rewrite Atoi_digits by assumption.
  pose proof (decimalValue_nonneg s Hd). unfold timeRange, GoInt.maxInt. lia.
Qed.

(** ** The time-stamp pattern *)

Lemma bind_Some {A B : Type} (o : option A) (k : A -> option B) (b : B) :
  bind o k = Some b -> exists a, o = Some a /\ k a = Some b.
Proof. destruct o as [a|]; simpl; [eauto | discriminate]. Qed.

Lemma lit_Some (c : ascii) (s r : gostring) :
  lit c s = Some r <-> s = c :: r.
Proof.
  unfold lit. split.
  - destruct s as [|x s]; [discriminate|].
    destruct (Ascii.eqb_spec x c); [|discriminate]. congruence.
  - intros ->. now rewrite Ascii.eqb_refl.
Qed.

Lemma digitsExactly_Some (n : nat) (s ds r : gostring) :
  digitsExactly n s = Some (ds, r) <->
  s = ds ++ r /\ length ds = n /\ forallb isDigit ds = true.
Proof.
  unfold digitsExactly. split.
  - destruct (Nat.leb_spec n (length s)); [|discriminate].
    destruct (forallb isDigit (firstn n s)) eqn:E; [|discriminate].
    simpl. intros [= <- <-]. rewrite firstn_skipn, length_firstn.
    repeat split; [lia | exact E].
  - intros (-> & <- & Hd).
    rewrite length_app, firstn_app, Nat.sub_diag, firstn_all, skipn_app.
    rewrite Nat.sub_diag, skipn_all. simpl. rewrite app_nil_r, Hd.
    destruct (Nat.leb_spec (length ds) (length ds + length r)); [reflexivity | lia].
Qed.

Lemma restOfText_Some (s r : gostring) :
  restOfText s = Some r <-> r = s /\ noNewline s = true.
Proof.
  unfold restOfText. destruct (noNewline s); split; intros H.
  - now inversion H.
  - destruct H as [-> _]. reflexivity.
  - discriminate.
  - destruct H. discriminate.
Qed.

Lemma lrcTimeRe_inv (line mm ss frac content : gostring) :
  lrcTimeRe line = Some (mm, ss, frac, content) ->
  line = lrcStamp mm ss frac ++ content /\
  length mm = 2%nat /\ length ss = 2%nat /\
  (length frac = 2%nat \/ length frac = 3%nat) /\
  forallb isDigit mm = true /\ forallb isDigit ss = true /\
  forallb isDigit frac = true /\ noNewline content = true.
Proof.
  unfold lrcTimeRe. intros H.
  apply bind_Some in H. destruct H as (s1 & H1 & H).
  apply bind_Some in H. destruct H as ([mm' s2] & H2 & H).
  apply bind_Some in H. destruct H as (s3 & H3 & H).
  apply bind_Some in H. destruct H as ([ss' s4] & H4 & H).
  apply bind_Some in H. destruct H as (s5 & H5 & H).
  apply lit_Some in H1, H3, H5.
  apply digitsExactly_Some in H2, H4.
  destruct H2 as (E2 & Lm & Dm). destruct H4 as (E4 & Ls & Ds). subst.
  assert (K : forall n,
             bind (digitsExactly n s5)
               (fun x => let '(frac0, s6) := x in
                  bind (lit "]" s6) (fun s7 =>
                  bind (restOfText s7) (fun content0 =>
                  Some (mm', ss', frac0, content0))))
             = Some (mm, ss, frac, content) ->
             s5 = frac ++ "]"%char :: content /\ length frac = n /\
             forallb isDigit frac = true /\ noNewline content = true /\
             mm' = mm /\ ss' = ss).
  { intros n K. apply bind_Some in K. destruct K as ([f s6] & K1 & K).
    apply bind_Some in K. destruct K as (s7 & K2 & K).
    apply bind_Some in K. destruct K as (c0 & K3 & K).
    apply digitsExactly_Some in K1. apply lit_Some in K2.
    apply restOfText_Some in K3. destruct K1 as (-> & Lf & Df).
    destruct K3 as [-> Hn]. inversion K; subst. auto 10. }
  match type of H with
  | match ?a with _ => _ end = _ => destruct a as [g|] eqn:E
  end.
  - inversion H; subst g. apply K in E.
    destruct E as (-> & Lf & Df & Hn & -> & ->).
    split; [|auto 10].
    unfold lrcStamp. simpl. repeat (rewrite <- app_assoc; simpl). reflexivity.
  - apply K in H.
    destruct H as (-> & Lf & Df & Hn & -> & ->).
    split; [|auto 10].
    unfold lrcStamp. simpl. repeat (rewrite <- app_assoc; simpl). reflexivity.
Qed.

Lemma digitsExactly_app (n : nat) (ds r : gostring) :
  length ds = n -> forallb isDigit ds = true ->
  digitsExactly n (ds ++ r) = Some (ds, r).
Proof. intros. apply digitsExactly_Some. auto. Qed.

Lemma lrcTimeRe_intro (mm ss frac content : gostring) :
  length mm = 2%nat -> length ss = 2%nat ->
  (length frac = 2%nat \/ length frac = 3%nat) ->
  forallb isDigit mm = true -> forallb isDigit ss = true ->
  forallb isDigit frac = true -> noNewline content = true ->
  lrcTimeRe (lrcStamp mm ss frac ++ content) = Some (mm, ss, frac, content).
Proof.
  intros Lm Ls Lf Dm Ds Df Hn.
  unfold lrcTimeRe, lrcStamp. simpl. repeat (rewrite <- app_assoc; simpl).
  rewrite (digitsExactly_app 2 mm) by assumption. simpl.
  rewrite (digitsExactly_app 2 ss) by assumption. simpl.
  destruct Lf as [Lf | Lf].
  - assert (E : digitsExactly 3 (frac ++ "]"%char :: content) = None).
    { destruct frac as [|f1 [|f2 [|]]]; try discriminate.
      unfold digitsExactly. simpl firstn. simpl forallb.
      now rewrite !andb_false_r. }
    rewrite E. simpl.
    rewrite (digitsExactly_app 2 frac) by assumption. simpl.
    unfold restOfText. now rewrite Hn.
  - rewrite (digitsExactly_app 3 frac) by assumption. simpl.
    unfold restOfText. now rewrite Hn.
Qed.

(** ** Time codec: decoding a re-encoded time stamp *)

Lemma below_100 (P : Z -> bool) :
  forallb P (map Z.of_nat (seq 0 100)) = true ->
  forall n, 0 <= n < 100 -> P n = true.
Proof.
  intros H n Hn. rewrite forallb_forall in H. apply H.
  apply in_map_iff. exists (Z.to_nat n). split; [lia|]. apply in_seq. lia.
Qed.

(** [%02d] of a number below 100: two digits that read back as the
    number. *)
Lemma formatInt2_spec (n : Z) :
  0 <= n < 100 ->
  length (formatInt 2 n) = 2%nat /\
  forallb isDigit (formatInt 2 n) = true /\
  decimalValue (formatInt 2 n) = n.
Proof.
  intros Hn.
  pose (P := fun n => (length (formatInt 2 n) =? 2)%nat &&
                      forallb isDigit (formatInt 2 n) &&
                      (decimalValue (formatInt 2 n) =? n)).
  assert (H : P n = true) by (apply below_100; [vm_compute; reflexivity | exact Hn]).
  unfold P in H. apply andb_true_iff in H. destruct H as [H H3].
  apply andb_true_iff in H. destruct H as [H1 H2].
  apply Nat.eqb_eq in H1. apply Z.eqb_eq in H3. auto.
Qed.

Lemma decimalValue_2 (s : gostring) :
  length s = 2%nat -> forallb isDigit s = true -> 0 <= decimalValue s < 100.
Proof.
  intros L D. destruct s as [|a [|b [|]]]; try discriminate.
  simpl in D. rewrite andb_true_r in D. apply andb_true_iff in D.
  destruct D as [Da Db].
  destruct (isDigit_digitChar a Da), (isDigit_digitChar b Db).
  unfold decimalValue. cbn [fold_left]. lia.
Qed.

Lemma decimalValue_3 (s : gostring) :
  length s = 3%nat -> forallb isDigit s = true -> 0 <= decimalValue s < 1000.
Proof.
  intros L D. destruct s as [|a [|b [|c [|]]]]; try discriminate.
  simpl in D. rewrite andb_true_r in D. apply andb_true_iff in D.
  destruct D as [Da D]. apply andb_true_iff in D. destruct D as [Db Dc].
  destruct (isDigit_digitChar a Da), (isDigit_digitChar b Db),
    (isDigit_digitChar c Dc).
  unfold decimalValue. cbn [fold_left]. lia.
Qed.

Lemma Atoi_small (s : gostring) (bound : Z) :
  s <> [] -> forallb isDigit s = true ->
  0 <= decimalValue s < bound -> bound <= GoInt.maxInt ->
  Atoi s = decimalValue s.
Proof. intros. rewrite Atoi_digits by assumption. lia. Qed.

(** Remove the wrap-arounds that cannot happen, innermost first. *)
Ltac unwrap :=
  repeat match goal with
    | |- context [GoInt.wrap ?z] =>
        lazymatch z with
        | context [GoInt.wrap _] => fail
        | _ => rewrite (wrap_inRange z)
                 by (unfold GoInt.inRange, GoInt.minInt, GoInt.maxInt; nia)
        end
    end.

Ltac int_small :=
  unfold GoInt.add, GoInt.sub, GoInt.mul, GoInt.div, GoInt.rem; unwrap.

(** The decoding of a matched time stamp, in plain arithmetic. *)
Lemma lrcTotalMs_digits (mm ss frac : gostring) :
  length mm = 2%nat -> length ss = 2%nat ->
  (length frac = 2%nat \/ length frac = 3%nat) ->
  forallb isDigit mm = true -> forallb isDigit ss = true ->
  forallb isDigit frac = true ->
  exists m s f,
    0 <= m < 100 /\ 0 <= s < 100 /\ 0 <= f < 1000 /\
    (length frac = 2%nat -> f < 100) /\
    lrcTotalMs mm ss frac =
      m * 60000 + s * 1000 + (if (length frac =? 2)%nat then f * 10 else f).
Proof.
  intros Lm Ls Lf Dm Ds Df.
  pose proof (decimalValue_2 mm Lm Dm) as Bm.
  pose proof (decimalValue_2 ss Ls Ds) as Bs.
  assert (Bf : 0 <= decimalValue frac < 1000 /\
               (length frac = 2%nat -> decimalValue frac < 100)).
  { destruct Lf as [Lf | Lf].
    - pose proof (decimalValue_2 frac Lf Df). split; [lia | intros; lia].
    - pose proof (decimalValue_3 frac Lf Df). split; [lia | intros; congruence]. }
  exists (decimalValue mm), (decimalValue ss), (decimalValue frac).
  repeat split; try lia; try tauto.
  unfold lrcTotalMs.
  rewrite (Atoi_small mm 100), (Atoi_small ss 100), (Atoi_small frac 1000);
    try assumption; try (unfold GoInt.maxInt; lia); try tauto;
    try (intros ->; destruct Lf; discriminate); try (intros ->; discriminate).
  destruct Bf as [Bf Bf2].
  destruct (Nat.eqb_spec (length frac) 2).
  - specialize (Bf2 e). int_small. lia.
  - int_small. lia.
Qed.

(** [msToLrcTime] below 100 minutes: three two-digit fields. *)
Lemma msToLrcTime_small (ms : Z) :
  0 <= ms < 6000000 ->
  msToLrcTime ms =
    lrcStamp (formatInt 2 (ms / 60000)) (formatInt 2 (ms / 1000 mod 60))
             (formatInt 2 (ms mod 1000 / 10)).
Proof.
  intros H. unfold msToLrcTime, lrcStamp, GoInt.div, GoInt.rem.
  assert (B1 : 0 <= ms / 1000 < 6000)
    by (split; [apply Z.div_pos | apply Z.div_lt_upper_bound]; lia).
  assert (B2 : 0 <= ms mod 1000 < 1000) by (apply Z.mod_pos_bound; lia).
  assert (B3 : 0 <= ms mod 1000 / 10 < 100)
    by (split; [apply Z.div_pos | apply Z.div_lt_upper_bound]; lia).
  assert (B4 : 0 <= ms / 1000 / 60 < 100)
    by (split; [apply Z.div_pos | apply Z.div_lt_upper_bound]; lia).
  rewrite (Z.quot_div_nonneg ms 1000), (Z.rem_mod_nonneg ms 1000) by lia.
  rewrite (wrap_inRange (ms / 1000))
    by (unfold GoInt.inRange, GoInt.minInt, GoInt.maxInt; lia).
  rewrite (Z.quot_div_nonneg (ms / 1000) 60),
    (Z.rem_mod_nonneg (ms / 1000) 60),
    (Z.quot_div_nonneg (ms mod 1000) 10) by lia.
  rewrite !wrap_inRange
    by (unfold GoInt.inRange, GoInt.minInt, GoInt.maxInt; lia).
  rewrite Z.div_div by lia. reflexivity.
Qed.

(** Encoding then decoding truncates to centiseconds. *)
Lemma decode_encode_small (ms : Z) :
  0 <= ms < 6000000 ->
  decodeLrcTime (msToLrcTime ms) = Some (ms - ms mod 10).
Proof.
  intros H. rewrite msToLrcTime_small by assumption.
  assert (Hm : 0 <= ms / 60000 < 100)
    by (split; [apply Z.div_pos | apply Z.div_lt_upper_bound]; lia).
  assert (Hs : 0 <= ms / 1000 mod 60 < 100)
    by (pose proof (Z.mod_pos_bound (ms / 1000) 60); lia).
  assert (Hc : 0 <= ms mod 1000 / 10 < 100).
  { pose proof (Z.mod_pos_bound ms 1000).
    split; [apply Z.div_pos | apply Z.div_lt_upper_bound]; lia. }
  destruct (formatInt2_spec _ Hm) as (Lm & Dm & Vm).
  destruct (formatInt2_spec _ Hs) as (Ls & Ds & Vs).
  destruct (formatInt2_spec _ Hc) as (Lc & Dc & Vc).
  unfold decodeLrcTime.
  rewrite <- (app_nil_r (lrcStamp _ _ _)).
  rewrite lrcTimeRe_intro; auto. simpl.
  destruct (lrcTotalMs_digits _ _ _ Lm Ls (or_introl Lc) Dm Ds Dc)
    as (m & s & f & _ & _ & _ & _ & E).
  clear E. unfold lrcTotalMs. rewrite Lc. simpl Nat.eqb. cbv iota.
  rewrite (Atoi_small _ 100), (Atoi_small _ 100), (Atoi_small _ 100);
    try assumption; try (unfold GoInt.maxInt; lia);
    try (intros E; rewrite E in *; discriminate); try lia.
  rewrite Vm, Vs, Vc. int_small. f_equal.
  pose proof (Z.div_mod ms 60000). pose proof (Z.mod_pos_bound ms 60000).
  pose proof (Z.div_mod ms 1000). pose proof (Z.mod_pos_bound ms 1000).
  pose proof (Z.div_mod (ms / 1000) 60). pose proof (Z.mod_pos_bound (ms / 1000) 60).
  pose proof (Z.div_mod (ms mod 1000) 10). pose proof (Z.mod_pos_bound (ms mod 1000) 10).
  pose proof (Z.div_mod ms 10). pose proof (Z.mod_pos_bound ms 10).
  assert (ms / 60000 = ms / 1000 / 60) by (rewrite Z.div_div by lia; reflexivity).
  assert (ms mod 10 = (ms mod 1000) mod 10).
  { transitivity ((ms mod 1000 + (100 * (ms / 1000)) * 10) mod 10).
    - f_equal. lia.
    - apply Z.mod_add. lia. }
  lia.
Qed.

(** From 100 minutes on the minute field is printed with three digits,
    which the time-stamp pattern does not accept. *)
Lemma decode_encode_large (ms : Z) :
  6000000 <= ms <= 6039999 -> decodeLrcTime (msToLrcTime ms) = None.
Proof.
  intros H. unfold msToLrcTime, GoInt.div, GoInt.rem.
  assert (B1 : 6000 <= ms / 1000 < 6040)
    by (split; [apply Z.div_le_lower_bound | apply Z.div_lt_upper_bound]; lia).
  rewrite (Z.quot_div_nonneg ms 1000) by lia.
  rewrite (wrap_inRange (ms / 1000))
    by (unfold GoInt.inRange, GoInt.minInt, GoInt.maxInt; lia).
  rewrite (Z.quot_div_nonneg (ms / 1000) 60) by lia.
  assert (E : ms / 1000 / 60 = 100).
  { apply Z.le_antisymm.
    - apply Z.lt_succ_r. apply Z.div_lt_upper_bound; lia.
    - apply Z.div_le_lower_bound; lia. }
  rewrite E. change (formatInt 2 (GoInt.wrap 100)) with (str "100").
  unfold decodeLrcTime, lrcTimeRe. cbn [str list_ascii_of_string app lit Ascii.eqb Bool.eqb bind].
  unfold digitsExactly at 1. cbn. reflexivity.
Qed.

(** C1, as the specification states it, fails on a three-digit
    fractional field: [[00:00.123]] decodes to 123 ms, is re-encoded as
    [[00:00.12]], and that decodes to 120 ms. *)
Lemma C1_counterexample :
  decodeLrcTime (str "[00:00.123]") = Some 123 /\
  msToLrcTime 123 = str "[00:00.12]" /\
  decodeLrcTime (msToLrcTime 123) = Some 120.
Proof. repeat split. Qed.

(** C1 (amended).  For every line the time-stamp pattern matches, with
    [ms] the decoded time:
    - when the fractional field has two digits and [ms] is below 100
      minutes, decoding the re-encoded time stamp gives [ms] again;
    - below 100 minutes in general, it gives [ms] truncated to a multiple
      of 10 ms;
    - from 100 minutes on (the pattern accepts seconds up to 99, so
      [[99:60.00]] and above) the re-encoded stamp has a three-digit minute
      field and is not decoded at all. *)
Theorem C1_lrc_time_roundtrip (line mm ss frac content : gostring) :
  lrcTimeRe line = Some (mm, ss, frac, content) ->
  let ms := lrcTotalMs mm ss frac in
  (length frac = 2%nat -> ms < 6000000 ->
   decodeLrcTime (msToLrcTime ms) = Some ms) /\
  (ms < 6000000 -> decodeLrcTime (msToLrcTime ms) = Some (ms - ms mod 10)) /\
  (6000000 <= ms -> decodeLrcTime (msToLrcTime ms) = None).
Proof.
  intros H ms. apply lrcTimeRe_inv in H.
  destruct H as (_ & Lm & Ls & Lf & Dm & Ds & Df & _).
  destruct (lrcTotalMs_digits mm ss frac Lm Ls Lf Dm Ds Df)
    as (m & s & f & Bm & Bs & Bf & Bf2 & E).
  fold ms in E.
  assert (R : 0 <= ms <= 6039999).
  { rewrite E. destruct (Nat.eqb_spec (length frac) 2) as [L2 | L2].
    - specialize (Bf2 L2). lia.
    - lia. }
  repeat split.
  - intros L2 Hlt. rewrite decode_encode_small by lia. f_equal.
    assert (Z0 : ms mod 10 = 0).
    { rewrite E, L2. simpl Nat.eqb. cbv iota.
      replace (m * 60000 + s * 1000 + f * 10)
        with (0 + (m * 6000 + s * 100 + f) * 10) by lia.
      rewrite Z.mod_add by lia. reflexivity. }
    lia.
  - intros Hlt. apply decode_encode_small. lia.
  - intros Hge. apply decode_encode_large. lia.
Qed.

Lemma C1_lrc_time_roundtrip_witness :
  decodeLrcTime (msToLrcTime 62340) = Some 62340.
Proof.
  exact (proj1 (C1_lrc_time_roundtrip (str "[01:02.34]La la") (str "01")
                  (str "02") (str "34") (str "La la") eq_refl)
               eq_refl eq_refl).
Defined.

(** ** Line matchers *)

(** C5.  Romanization line matching returns the first line, in the
    order of the sequence, whose start time is within 100 ms (inclusive)
    of the query: every line before it is further away, and the lines
    after it play no part, closer or not.  When no line is within 100 ms
    the result is the [nil] pointer.  Times are those the parsers
    produce, between 0 and the largest [int]. *)
Theorem C5_matchRomajiLine_first_in_range
    (mainLineTime : Z) (romajiLines : list LineInfo.t) :
  timeRange mainLineTime ->
  Forall (fun l => timeRange (LineInfo.StartTime l)) romajiLines ->
  match matchRomajiLine mainLineTime romajiLines with
  | Some romaLine =>
      exists before after,
        romajiLines = before ++ romaLine :: after /\
        Z.abs (LineInfo.StartTime romaLine - mainLineTime) <= 100 /\
        Forall (fun l => 100 < Z.abs (LineInfo.StartTime l - mainLineTime))
               before
  | None =>
      Forall (fun l => 100 < Z.abs (LineInfo.StartTime l - mainLineTime))
             romajiLines
  end.
Proof.
  intros Ht Hl. induction Hl as [|l ls Hr Hls IH]; simpl.
  - constructor.
  - rewrite (abs_sub_time _ _ Hr Ht).
    destruct (Z.leb_spec (Z.abs (LineInfo.StartTime l - mainLineTime)) 100) as [Hin | Hout].
    + exists [], ls. repeat split; [assumption | constructor].
    + destruct (matchRomajiLine mainLineTime ls) as [r|].
      * destruct IH as (before & after & -> & Hd & Hb).
        exists (l :: before), after. repeat split; [assumption|].
        constructor; assumption.
      * constructor; assumption.
Qed.

Lemma C5_matchRomajiLine_first_in_range_witness :
  exists before after,
    [romaLineAt 1090; romaLineAt 1000] = before ++ romaLineAt 1090 :: after /\
    Z.abs (1090 - 1000) <= 100 /\
    Forall (fun l => 100 < Z.abs (LineInfo.StartTime l - 1000)) before.
Proof.
  refine (C5_matchRomajiLine_first_in_range 1000
            [romaLineAt 1090; romaLineAt 1000] _ _).
  - unfold timeRange, GoInt.maxInt. lia.
  - repeat constructor; simpl; unfold GoInt.maxInt; lia.
Defined.

(** The first line in range wins although the second one is an exact
    match. *)
Example matchRomajiLine_not_nearest :
  matchRomajiLine 1000 [romaLineAt 1090; romaLineAt 1000]
  = Some (romaLineAt 1090).
Proof. reflexivity. Qed.

Lemma findClosestLine_loop (time : Z) (lines : list MetaLine.t) :
  timeRange time ->
  Forall (fun e => timeRange (MetaLine.Time e)) lines ->
  closestInv time lines (fold_left (findClosestLine_step time) lines (0, 500, -1)).
Proof.
  intros Ht. induction lines as [|x seen IH] using rev_ind; intros Hl.
  - simpl. split; [reflexivity|]. left. repeat split. constructor.
  - apply Forall_app in Hl. destruct Hl as [Hseen Hx]. inversion_clear Hx as [|? ? Hx' _].
    specialize (IH Hseen). rewrite fold_left_app. simpl.
    destruct (fold_left (findClosestLine_step time) seen (0, 500, -1))
      as [[i minDiff] bestIndex].
    unfold closestInv in IH. destruct IH as [Hi IH].
    unfold findClosestLine_step. rewrite (abs_sub_time _ _ Hx' Ht).
    set (d := Z.abs (MetaLine.Time x - time)).
    destruct (Z.ltb_spec d minDiff) as [Hlt | Hge]; unfold closestInv;
      rewrite length_app; simpl length; (split; [lia|]).
    + right. subst i. repeat split; try lia.
      * rewrite Nat2Z.id, app_nth2, Nat.sub_diag by lia. reflexivity.
      * apply Forall_app. split.
        -- destruct IH as [(_ & -> & F) | (_ & _ & _ & F)];
             eapply Forall_impl; try exact F; simpl; intros; lia.
        -- constructor; [fold d; lia | constructor].
    + destruct IH as [(-> & -> & F) | (Hb & Hm & Hn & F)].
      * left. repeat split. apply Forall_app. split; [assumption|].
        constructor; [fold d; lia | constructor].
      * right. repeat split; try lia.
        -- rewrite app_nth1 by lia. assumption.
        -- apply Forall_app. split; [assumption|].
           constructor; [fold d; lia | constructor].
Qed.

(** C6.  Translation matching returns the text of an entry at the least
    distance from the query time, and only when that distance is
    strictly below 500 ms; when every entry is 500 ms or more away the
    result is the empty string.  In particular a translation at [T]
    matches the queries [T+499] and [T-499] and matches neither [T+500]
    nor [T+501].  Times are those the parsers produce. *)
Theorem C6_findClosestLine_nearest (time : Z) (lines : list MetaLine.t) :
  timeRange time ->
  Forall (fun e => timeRange (MetaLine.Time e)) lines ->
  (Forall (fun e => 500 <= Z.abs (MetaLine.Time e - time)) lines ->
   findClosestLine time lines = []) /\
  (Exists (fun e => Z.abs (MetaLine.Time e - time) < 500) lines ->
   exists best,
     In best lines /\
     findClosestLine time lines = MetaLine.Content best /\
     Z.abs (MetaLine.Time best - time) < 500 /\
     Forall (fun e => Z.abs (MetaLine.Time best - time)
                      <= Z.abs (MetaLine.Time e - time)) lines) /\
  (forall content,
     499 <= time -> time + 501 <= GoInt.maxInt ->
     findClosestLine (time + 499) [MetaLine.mk time content] = content /\
     findClosestLine (time - 499) [MetaLine.mk time content] = content /\
     findClosestLine (time + 500) [MetaLine.mk time content] = [] /\
     findClosestLine (time + 501) [MetaLine.mk time content] = []).
Proof.
  intros Ht Hl.
  pose proof (findClosestLine_loop time lines Ht Hl) as Inv.
  unfold findClosestLine.
  destruct (fold_left (findClosestLine_step time) lines (0, 500, -1))
    as [[i minDiff] bestIndex].
  destruct Inv as [Hi Inv]. repeat split.
  - intros Hfar. destruct Inv as [(-> & _) | (Hb & Hm & Hn & F)]; [reflexivity|].
    exfalso. rewrite Forall_forall in Hfar.
    specialize (Hfar (nth (Z.to_nat bestIndex) lines zeroMetaLine)).
    assert (In (nth (Z.to_nat bestIndex) lines zeroMetaLine) lines)
      by (apply nth_In; lia).
    specialize (Hfar H). lia.
  - intros Hnear. destruct Inv as [(_ & _ & F) | (Hb & Hm & Hn & F)].
    + exfalso. apply Exists_exists in Hnear. destruct Hnear as (e & He & Hd).
      rewrite Forall_forall in F. specialize (F e He). lia.
    + exists (nth (Z.to_nat bestIndex) lines zeroMetaLine).
      destruct (Z.eqb_spec bestIndex (-1)); [lia|]. simpl.
      repeat split; [apply nth_In; lia | lia | now rewrite Hn].
  - unfold findClosestLine. cbn [fold_left findClosestLine_step MetaLine.Time].
    rewrite abs_sub_time; unfold timeRange, GoInt.maxInt in *; try lia.
    replace (Z.abs (time - (time + 499))) with 499 by lia. reflexivity.
  - unfold findClosestLine. cbn [fold_left findClosestLine_step MetaLine.Time].
    rewrite abs_sub_time; unfold timeRange, GoInt.maxInt in *; try lia.
    replace (Z.abs (time - (time - 499))) with 499 by lia. reflexivity.
  - unfold findClosestLine. cbn [fold_left findClosestLine_step MetaLine.Time].
    rewrite abs_sub_time; unfold timeRange, GoInt.maxInt in *; try lia.
    replace (Z.abs (time - (time + 500))) with 500 by lia. reflexivity.
  - unfold findClosestLine. cbn [fold_left findClosestLine_step MetaLine.Time].
    rewrite abs_sub_time; unfold timeRange, GoInt.maxInt in *; try lia.
    replace (Z.abs (time - (time + 501))) with 501 by lia. reflexivity.
Qed.

Lemma C6_findClosestLine_nearest_witness :
  exists best,
    In best [MetaLine.mk 1400 (str "far"); MetaLine.mk 1100 (str "near")] /\
    findClosestLine 1000
      [MetaLine.mk 1400 (str "far"); MetaLine.mk 1100 (str "near")]
    = MetaLine.Content best /\
    Z.abs (MetaLine.Time best - 1000) < 500 /\
    Forall (fun e => Z.abs (MetaLine.Time best - 1000)
                     <= Z.abs (MetaLine.Time e - 1000))
           [MetaLine.mk 1400 (str "far"); MetaLine.mk 1100 (str "near")].
Proof.
  refine (proj1 (proj2 (C6_findClosestLine_nearest 1000
            [MetaLine.mk 1400 (str "far"); MetaLine.mk 1100 (str "near")] _ _)) _).
  - unfold timeRange, GoInt.maxInt. lia.
  - repeat constructor; simpl; unfold GoInt.maxInt; lia.
  - apply Exists_cons_hd. simpl. lia.
Defined.

(** ** Paragraph grouper *)

Lemma adjacent_snoc {A : Type} (R : A -> A -> Prop) (l : list A) (x d : A) :
  l <> [] ->
  (adjacent R (l ++ [x]) <-> adjacent R l /\ R (last l d) x).
Proof.
  induction l as [|a l IH]; [congruence|]. intros _.
  destruct l as [|b l].
  - simpl. tauto.
  - assert (Hne : b :: l <> []) by discriminate. specialize (IH Hne).
    change (adjacent R ((a :: b :: l) ++ [x]))
      with (R a b /\ adjacent R ((b :: l) ++ [x])).
    change (adjacent R (a :: b :: l)) with (R a b /\ adjacent R (b :: l)).
    change (last (a :: b :: l) d) with (last (b :: l) d).
    tauto.
Qed.

Lemma adjacent_last_change {A : Type} (R : A -> A -> Prop) (l : list A) (x y : A) :
  (forall a, R a x -> R a y) ->
  adjacent R (l ++ [x]) -> adjacent R (l ++ [y]).
Proof.
  intros Hxy. destruct l as [|a l]; [simpl; tauto|].
  assert (Hne : a :: l <> []) by discriminate.
  rewrite (adjacent_snoc R _ x a Hne), (adjacent_snoc R _ y a Hne).
  intuition.
Qed.

Section Grouping.

Variable maxGap : Z.

Lemma closeDiv_closed (d : DivInfo.t) :
  DivInfo.Lines d <> [] ->
  DivInfo.StartTime d = LineInfo.StartTime (hd zeroLine (DivInfo.Lines d)) ->
  adjacent (joined maxGap) (DivInfo.Lines d) ->
  closedDiv maxGap (closeDiv d).
Proof. intros. unfold closedDiv, closeDiv. simpl. auto. Qed.

Lemma groupLinesIntoDivs_loop (line0 : LineInfo.t) (rest : list LineInfo.t) :
  groupInv maxGap (line0 :: rest)
    (fold_left (groupLinesIntoDivs_step maxGap) rest
       ([], DivInfo.mk (LineInfo.StartTime line0) 0 [line0], line0)).
Proof.
  induction rest as [|x seen IH] using rev_ind.
  - simpl. repeat split; try constructor. discriminate.
  - rewrite fold_left_app. simpl.
    destruct (fold_left (groupLinesIntoDivs_step maxGap) seen _)
      as [[divs currentDiv] prevLine].
    destruct IH as (Hcat & Hne & Hprev & Hstart & Hclosed & Hjoin & Hsplit).
    unfold groupLinesIntoDivs_step. fold (gapAfter prevLine x).
    destruct (Z.ltb_spec maxGap (gapAfter prevLine x)) as [Hgap | Hgap].
    + repeat split; try discriminate.
      * rewrite map_app, concat_app. simpl. rewrite app_nil_r.
        change (line0 :: seen ++ [x]) with ((line0 :: seen) ++ [x]).
        now rewrite <- Hcat.
      * apply Forall_app. split; [assumption|]. constructor; [|constructor].
        now apply closeDiv_closed.
      * rewrite map_app. simpl.
        apply (adjacent_snoc (splitBetween maxGap) _ _ []).
        -- destruct (map DivInfo.Lines divs); discriminate.
        -- split; [assumption|]. rewrite last_last.
           unfold splitBetween. simpl. now rewrite <- Hprev.
    + simpl. repeat split.
      * rewrite app_assoc, Hcat. reflexivity.
      * destruct (DivInfo.Lines currentDiv); discriminate.
      * now rewrite last_last.
      * rewrite Hstart. destruct (DivInfo.Lines currentDiv); [congruence | reflexivity].
      * assumption.
      * apply (adjacent_snoc (joined maxGap) _ _ zeroLine Hne). split; [assumption|].
        rewrite <- Hprev. exact Hgap.
      * eapply adjacent_last_change; [|exact Hsplit].
        unfold splitBetween. intros a Ha.
        destruct (DivInfo.Lines currentDiv); [congruence | exact Ha].
Qed.

End Grouping.

(** The grouping in Go's arithmetic, where the content end and the gap
    are the wrapped ones the code computes. *)
Lemma groupLinesIntoDivs_invariant (lines : list LineInfo.t) (maxGap : Z) :
  concat (map DivInfo.Lines (groupLinesIntoDivs lines maxGap)) = lines /\
  Forall (closedDiv maxGap) (groupLinesIntoDivs lines maxGap) /\
  adjacent (splitBetween maxGap)
           (map DivInfo.Lines (groupLinesIntoDivs lines maxGap)).
Proof.
  destruct lines as [|line0 rest]; [simpl; repeat split; constructor|].
  unfold groupLinesIntoDivs.
  pose proof (groupLinesIntoDivs_loop maxGap line0 rest) as Inv.
  destruct (fold_left (groupLinesIntoDivs_step maxGap) rest _)
    as [[divs currentDiv] prevLine].
  destruct Inv as (Hcat & Hne & Hprev & Hstart & Hclosed & Hjoin & Hsplit).
  destruct (DivInfo.Lines currentDiv) as [|c cs] eqn:E; [congruence|].
  change (0 <? length (c :: cs))%nat with true. cbv iota.
  rewrite map_app, concat_app. simpl.
  rewrite app_nil_r, E. repeat split; try assumption.
  apply Forall_app. split; [assumption|]. constructor; [|constructor].
  apply closeDiv_closed; rewrite ?E; assumption.
Qed.

Lemma groupLinesIntoDivs_four (l0 l1 l2 l3 : LineInfo.t) :
  gapAfter l0 l1 = 900 -> gapAfter l1 l2 = 1000 -> gapAfter l2 l3 = 1001 ->
  groupLinesIntoDivs [l0; l1; l2; l3] 1000 =
  [DivInfo.mk (LineInfo.StartTime l0) (contentEndTime l2) [l0; l1; l2];
   DivInfo.mk (LineInfo.StartTime l3) (contentEndTime l3) [l3]].
Proof.
  intros G1 G2 G3.
  unfold groupLinesIntoDivs. cbn [fold_left].
  unfold groupLinesIntoDivs_step at 3. fold (gapAfter l0 l1). rewrite G1.
  cbn [Z.ltb Z.compare Pos.compare Pos.compare_cont].
  cbn [DivInfo.Lines DivInfo.StartTime DivInfo.EndTime app].
  unfold groupLinesIntoDivs_step at 2. fold (gapAfter l1 l2). rewrite G2.
  cbn [Z.ltb Z.compare Pos.compare Pos.compare_cont].
  cbn [DivInfo.Lines DivInfo.StartTime DivInfo.EndTime app].
  unfold groupLinesIntoDivs_step at 1. fold (gapAfter l2 l3). rewrite G3.
  reflexivity.
Qed.

(** The content end the code computes, from the last word of the line,
    is the effective end as long as that is an [int]. *)
Lemma contentEndTime_effectiveEnd (line : LineInfo.t) :
  GoInt.inRange (effectiveEnd line) ->
  contentEndTime line = effectiveEnd line.
Proof.
  unfold contentEndTime, effectiveEnd.
  induction (LineInfo.Words line) as [|w ws _] using rev_ind; [reflexivity|].
  rewrite rev_unit, last_last, length_app, Nat.add_comm.
  change (0 <? length [w] + length ws)%nat with true. cbv iota.
  intros H. now apply wrap_inRange.
Qed.

Lemma timeRange_inRange (z : Z) : timeRange z -> GoInt.inRange z.
Proof. unfold timeRange, GoInt.inRange, GoInt.minInt, GoInt.maxInt. lia. Qed.

(** Between steady lines the gap the code computes is the true gap. *)
Lemma gapAfter_trueGap (a b : LineInfo.t) :
  steady a -> steady b -> gapAfter a b = trueGap a b.
Proof.
  intros [_ Ha] [Hb _]. unfold gapAfter, trueGap.
  rewrite contentEndTime_effectiveEnd by now apply timeRange_inRange.
  unfold GoInt.sub. apply wrap_inRange.
  unfold timeRange, GoInt.inRange, GoInt.minInt, GoInt.maxInt in *. lia.
Qed.

Lemma adjacent_transfer {A : Type} (P : A -> Prop) (R R' : A -> A -> Prop)
    (l : list A) :
  (forall a b, P a -> P b -> R a b -> R' a b) ->
  Forall P l -> adjacent R l -> adjacent R' l.
Proof.
  intros H. induction l as [|a l IH]; [auto|].
  destruct l as [|b l]; [simpl; auto|].
  intros HF [Hab Hrest]. inversion HF as [|? ? Pa HF']; subst.
  inversion HF' as [|? ? Pb _]; subst.
  split; [now apply H | now apply IH].
Qed.

Lemma Forall_last {A : Type} (P : A -> Prop) (l : list A) (d : A) :
  Forall P l -> l <> [] -> P (last l d).
Proof.
  induction 1 as [|a l Pa HF IH]; [congruence|]. intros _.
  destruct l as [|b l]; [exact Pa|]. apply IH. discriminate.
Qed.

Lemma Forall_hd {A : Type} (P : A -> Prop) (l : list A) (d : A) :
  Forall P l -> l <> [] -> P (hd d l).
Proof. destruct 1; [congruence | auto]. Qed.

(** C7 (amended).  For lines whose starts and effective ends are times
    (no start plus duration beyond the largest [int]), the paragraphs
    returned by the grouper, concatenated, are the input lines; every
    paragraph is non-empty, starts at the start of its first line and
    ends at the effective end of its last line, that is the start plus
    the duration of the last word of that line, or the end of the line
    when it has no word; two neighbouring lines of one paragraph have a
    gap of at most [maxGap], and the last line of a paragraph and the
    first line of the next have a gap strictly above [maxGap]: a new
    paragraph starts exactly at the lines whose start minus the
    effective end of the previous line exceeds the threshold.  Hence
    gaps of 900, 1000 and 1001 ms under the threshold 1000 give two
    paragraphs, split at the 1001 gap, and a single line gives one
    paragraph spanning that line. *)
Theorem C7_groupLinesIntoDivs_boundaries (lines : list LineInfo.t) (maxGap : Z) :
  Forall steady lines ->
  (concat (map DivInfo.Lines (groupLinesIntoDivs lines maxGap)) = lines /\
   Forall (paragraph maxGap) (groupLinesIntoDivs lines maxGap) /\
   adjacent (boundary maxGap)
            (map DivInfo.Lines (groupLinesIntoDivs lines maxGap))) /\
  (forall l0 l1 l2 l3,
     lines = [l0; l1; l2; l3] ->
     trueGap l0 l1 = 900 -> trueGap l1 l2 = 1000 -> trueGap l2 l3 = 1001 ->
     groupLinesIntoDivs lines 1000 =
     [DivInfo.mk (LineInfo.StartTime l0) (effectiveEnd l2) [l0; l1; l2];
      DivInfo.mk (LineInfo.StartTime l3) (effectiveEnd l3) [l3]]) /\
  (forall l,
     lines = [l] ->
     groupLinesIntoDivs lines maxGap =
     [DivInfo.mk (LineInfo.StartTime l) (effectiveEnd l) [l]]).
Proof.
  intros Hsteady. split; [|split].
  - destruct (groupLinesIntoDivs_invariant lines maxGap)
      as (Hcat & Hclosed & Hsplit).
    split; [exact Hcat|].
    assert (Hdivs : Forall (fun d => Forall steady (DivInfo.Lines d))
                           (groupLinesIntoDivs lines maxGap)).
    { rewrite <- Hcat in Hsteady. apply Forall_concat in Hsteady.
      now rewrite Forall_map in Hsteady. }
    split.
    + rewrite Forall_forall in *. intros d Hd.
      destruct (Hclosed d Hd) as (Hne & Hstart & Hend & Hjoin).
      specialize (Hdivs d Hd). repeat split; try assumption.
      * rewrite Hend. apply contentEndTime_effectiveEnd, timeRange_inRange.
        now apply (Forall_last steady _ zeroLine Hdivs Hne).
      * apply (adjacent_transfer steady (joined maxGap)); try assumption.
        intros a b Sa Sb. unfold joined, sameParagraph.
        now rewrite gapAfter_trueGap.
    + apply (adjacent_transfer
               (fun g => g <> [] /\ Forall steady g) (splitBetween maxGap));
        try assumption.
      * intros g1 g2 [N1 S1] [N2 S2]. unfold splitBetween, boundary.
        rewrite gapAfter_trueGap;
          [auto | now apply Forall_last | now apply Forall_hd].
      * rewrite Forall_map. rewrite Forall_forall in *. intros d Hd.
        split; [apply (Hclosed d Hd) | apply (Hdivs d Hd)].
  - intros l0 l1 l2 l3 -> G1 G2 G3.
    inversion Hsteady as [|? ? S0 H0]; subst.
    inversion H0 as [|? ? S1 H1]; subst.
    inversion H1 as [|? ? S2 H2]; subst.
    inversion H2 as [|? ? S3 _]; subst.
    rewrite groupLinesIntoDivs_four by (rewrite gapAfter_trueGap; assumption).
    rewrite !contentEndTime_effectiveEnd
      by (apply timeRange_inRange; (apply S2 || apply S3)).
    reflexivity.
  - intros l ->. inversion Hsteady as [|? ? [_ S] _]; subst.
    unfold groupLinesIntoDivs. cbn [fold_left].
    change (0 <? length (DivInfo.Lines
                           (DivInfo.mk (LineInfo.StartTime l) 0 [l])))%nat
      with true.
    cbv iota. unfold closeDiv. cbn [DivInfo.Lines DivInfo.StartTime last app].
    now rewrite contentEndTime_effectiveEnd by now apply timeRange_inRange.
Qed.

Lemma C7_groupLinesIntoDivs_boundaries_witness :
  groupLinesIntoDivs
    [sungLine 0 1000; sungLine 1900 1000; sungLine 3900 1000;
     sungLine 5901 1000] 1000 =
  [DivInfo.mk 0 4900 [sungLine 0 1000; sungLine 1900 1000; sungLine 3900 1000];
   DivInfo.mk 5901 6901 [sungLine 5901 1000]].
Proof.
  refine (proj1 (proj2 (C7_groupLinesIntoDivs_boundaries
                          [sungLine 0 1000; sungLine 1900 1000;
                           sungLine 3900 1000; sungLine 5901 1000] 1000 _))
            (sungLine 0 1000) (sungLine 1900 1000) (sungLine 3900 1000)
            (sungLine 5901 1000) eq_refl eq_refl eq_refl eq_refl).
  repeat constructor; unfold timeRange, GoInt.maxInt; cbn; lia.
Defined.

(** Where the start plus the duration of a last word is beyond the
    largest [int], the content end the code computes has wrapped: for
    these two lines of the parser it is -2, and the line at 2000 starts
    a new paragraph although its start minus the effective end of the
    line before is far below the threshold. *)
Lemma C7_counterexample :
  exists l0 l1,
    parseYrcToLines
      (str "[0,1]a(9223372036854775807,9223372036854775807)" ++ [newline] ++
       str "[2000,1]b(2000,1)") = [l0; l1] /\
    effectiveEnd l0 = 18446744073709551614 /\
    trueGap l0 l1 <= 1000 /\
    groupLinesIntoDivs [l0; l1] 1000
    = [DivInfo.mk 0 (-2) [l0]; DivInfo.mk 2000 2001 [l1]].
Proof.
  do 2 eexists. split; [vm_compute; reflexivity|].
  split; [reflexivity|]. split; [vm_compute; discriminate | reflexivity].
Qed.

(** ** YRC parser *)

Lemma spanDigits_spec (s ds rest : gostring) :
  spanDigits s = (ds, rest) -> s = ds ++ rest /\ forallb isDigit ds = true.
Proof.
  revert ds rest. induction s as [|c s IH]; simpl; intros ds rest H.
  - inversion H. auto.
  - destruct (isDigit c) eqn:Hc.
    + destruct (spanDigits s) as [ds' rest'] eqn:E. inversion H; subst.
      destruct (IH _ _ eq_refl) as [-> Hd]. simpl. rewrite Hc. auto.
    + inversion H. auto.
Qed.

Lemma digitsPlus_Some (s ds rest : gostring) :
  digitsPlus s = Some (ds, rest) -> s = ds ++ rest /\ digitRun ds.
Proof.
  unfold digitsPlus, digitRun. destruct (spanDigits s) as [ds' rest'] eqn:E.
  apply spanDigits_spec in E. destruct E as [-> Hd].
  destruct ds' as [|c ds']; simpl; [discriminate|].
  intros H. inversion H; subst. repeat split; [discriminate | assumption].
Qed.

Lemma wordTiming_Some (s start dur rest : gostring) :
  wordTiming s = Some (start, dur, rest) -> digitRun start /\ digitRun dur.
Proof.
  unfold wordTiming. intros H.
  apply bind_Some in H. destruct H as (s1 & _ & H).
  apply bind_Some in H. destruct H as ([a s2] & H2 & H).
  apply bind_Some in H. destruct H as (s3 & _ & H).
  apply bind_Some in H. destruct H as ([b s4] & H4 & H).
  apply bind_Some in H. destruct H as (s5 & _ & H).
  apply digitsPlus_Some in H2, H4. inversion H; subst. tauto.
Qed.

Lemma wordInfoRe_from_Some (acc s text start dur rest : gostring) :
  wordInfoRe_from acc s = Some (text, start, dur, rest) ->
  digitRun start /\ digitRun dur.
Proof.
  revert acc. induction s as [|c s IH]; intros acc; simpl.
  - discriminate.
  - destruct (wordTiming (c :: s)) as [[[a b] r]|] eqn:E.
    + intros H. inversion H; subst. eapply wordTiming_Some; eassumption.
    + destruct (Ascii.eqb c newline); apply IH.
Qed.

Lemma wordInfoRe_FindAll_timed (content : gostring) :
  Forall timedMatch (wordInfoRe_FindAll content).
Proof.
  unfold wordInfoRe_FindAll. generalize (length content) as fuel.
  intros fuel. revert content. induction fuel as [|fuel IH]; intros s; simpl.
  - constructor.
  - destruct (wordInfoRe s) as [[[[text start] dur] rest]|] eqn:E.
    + constructor; [|apply IH]. simpl. unfold wordInfoRe in E.
      eapply wordInfoRe_from_Some; eassumption.
    + constructor.
Qed.

Lemma yrcLineRe_Some (line m1 m2 content : gostring) :
  yrcLineRe line = Some (m1, m2, content) ->
  line = str "[" ++ m1 ++ str "," ++ m2 ++ str "]" ++ content /\
  digitRun m1 /\ digitRun m2 /\ noNewline content = true.
Proof.
  unfold yrcLineRe. intros H.
  apply bind_Some in H. destruct H as (s1 & H1 & H).
  apply bind_Some in H. destruct H as ([a s2] & H2 & H).
  apply bind_Some in H. destruct H as (s3 & H3 & H).
  apply bind_Some in H. destruct H as ([b s4] & H4 & H).
  apply bind_Some in H. destruct H as (s5 & H5 & H).
  apply bind_Some in H. destruct H as (c & H6 & H).
  apply lit_Some in H1, H3, H5. apply digitsPlus_Some in H2, H4.
  apply restOfText_Some in H6. inversion H; subst.
  destruct H2 as [E2 D2], H4 as [E4 D4], H6 as [-> Hn]. subst.
  split; [|tauto]. simpl. repeat (rewrite <- app_assoc; simpl).
  reflexivity.
Qed.

Lemma parseYrcWord_loop (matches : list (gostring * gostring * gostring))
    (words : list WordInfo.t) :
  fold_left parseYrcWord matches words
  = words ++ map correctedWord (filter survives matches).
Proof.
  revert words. induction matches as [|[[text start] dur] ms IH]; intros words.
  - simpl. now rewrite app_nil_r.
  - simpl fold_left. rewrite IH. unfold parseYrcWord, survives, correctedWord.
    cbn [filter]. destruct (Atoi dur =? 0) eqn:E; cbn [andb negb].
    + destruct (isEmpty (TrimSpace text)); cbn [negb map].
      * reflexivity.
      * now rewrite E, <- app_assoc.
    + cbn [map]. now rewrite E, <- app_assoc.
Qed.

(** What [parseYrcLine] returns on a line the header pattern matches. *)
Lemma parseYrcLine_words (line m1 m2 content : gostring) :
  yrcLineRe line = Some (m1, m2, content) ->
  exists lineInfo,
    parseYrcLine line = Ok lineInfo /\
    LineInfo.StartTime lineInfo = Atoi m1 /\
    LineInfo.EndTime lineInfo = GoInt.add (Atoi m1) (Atoi m2) /\
    LineInfo.Words lineInfo =
      let kept := map correctedWord (filter survives (wordInfoRe_FindAll content)) in
      if isEmpty kept && negb (isEmpty content)
      then [wholeLineWord m1 m2 content]
      else kept.
Proof.
  intros H. unfold parseYrcLine. rewrite H.
  apply yrcLineRe_Some in H. destruct H as (_ & _ & D2 & _).
  eexists. split; [reflexivity|]. cbn [LineInfo.StartTime LineInfo.EndTime LineInfo.Words].
  repeat split. rewrite parseYrcWord_loop. cbn [app]. cbv zeta.
  destruct (isEmpty (map correctedWord _) && negb (isEmpty content)) eqn:E;
    [|reflexivity].
  apply andb_true_iff in E. destruct E as [E _].
  destruct (map correctedWord _); [|discriminate]. cbn [app].
  unfold wholeLineWord. destruct D2 as [Hne Hd].
  pose proof (Atoi_timeRange m2 Hne Hd) as [R _].
  destruct (Z.eqb_spec (Atoi m2) 0) as [-> | N]; do 2 f_equal; lia.
Qed.

Lemma correctedWord_duration (m : gostring * gostring * gostring) :
  timedMatch m -> 1 <= WordInfo.Duration (correctedWord m).
Proof.
  destruct m as [[text start] dur]. intros [_ [Hne Hd]]. simpl.
  pose proof (Atoi_timeRange dur Hne Hd) as [R _].
  destruct (Z.eqb_spec (Atoi dur) 0); lia.
Qed.

(** Every word of a parsed line lasts at least 1 ms. *)
Lemma parseYrcLine_durations (line : gostring) (lineInfo : LineInfo.t) :
  parseYrcLine line = Ok lineInfo ->
  Forall (fun w => 1 <= WordInfo.Duration w) (LineInfo.Words lineInfo).
Proof.
  intros H. destruct (yrcLineRe line) as [[[m1 m2] content]|] eqn:E.
  - destruct (parseYrcLine_words _ _ _ _ E) as (li & Hli & _ & _ & Hw).
    rewrite H in Hli. inversion Hli; subst li. rewrite Hw. cbv zeta.
    destruct (isEmpty _ && negb (isEmpty content)).
    + constructor; [simpl; lia | constructor].
    + apply Forall_forall. intros w Hin. apply in_map_iff in Hin.
      destruct Hin as (m & <- & Hm). apply filter_In in Hm.
      apply correctedWord_duration.
      pose proof (wordInfoRe_FindAll_timed content) as T.
      rewrite Forall_forall in T. apply T. tauto.
  - unfold parseYrcLine in H. rewrite E in H. discriminate.
Qed.

(** C3, as the specification states it, fails when every matched word
    is dropped by the zero-duration correction: the segment [ (0,0)]
    holds one match, a blank word of duration 0, and the line still gets
    the synthesized whole-line word. *)
Lemma C3_counterexample :
  wordInfoRe_FindAll (str " (0,0)") = [(str " ", str "0", str "0")] /\
  parseYrcLine (str "[0,100] (0,0)")
  = Ok (LineInfo.mk [WordInfo.mk (str " (0,0)") 0 100] 0 100).
Proof. split; reflexivity. Qed.

(** C3 (amended).  For a structural line with a valid header and a
    non-empty segment text, the parser synthesizes the single word
    spanning the whole line (the segment text, the header start, the
    header duration or 1 ms when that is 0) exactly when no word
    survives the zero-duration correction, that is when the segment
    holds no word match or when every match is blank with duration 0;
    when some match survives, the words are the corrected matches and no
    whole-line word is added. *)
Theorem C3_whole_line_word (line m1 m2 content : gostring) :
  yrcLineRe line = Some (m1, m2, content) ->
  content <> [] ->
  exists lineInfo,
    parseYrcLine line = Ok lineInfo /\
    (filter survives (wordInfoRe_FindAll content) = [] ->
     LineInfo.Words lineInfo =
       [WordInfo.mk content (LineInfo.StartTime lineInfo) (Z.max 1 (Atoi m2))]) /\
    (wordInfoRe_FindAll content = [] ->
     LineInfo.Words lineInfo =
       [WordInfo.mk content (LineInfo.StartTime lineInfo) (Z.max 1 (Atoi m2))]) /\
    (filter survives (wordInfoRe_FindAll content) <> [] ->
     LineInfo.Words lineInfo
     = map correctedWord (filter survives (wordInfoRe_FindAll content))).
Proof.
  intros H Hc.
  destruct (parseYrcLine_words _ _ _ _ H) as (li & Hli & Hs & _ & Hw).
  exists li. split; [assumption|]. rewrite Hw, Hs. cbv zeta.
  destruct content as [|c content]; [congruence|].
  change (negb (isEmpty (c :: content))) with true. rewrite andb_true_r.
  repeat split.
  - intros ->. reflexivity.
  - intros ->. reflexivity.
  - intros Hne. destruct (filter survives _); [congruence | reflexivity].
Qed.

Lemma C3_whole_line_word_witness :
  exists lineInfo,
    parseYrcLine (str "[500,0]la la") = Ok lineInfo /\
    LineInfo.Words lineInfo
    = [WordInfo.mk (str "la la") (LineInfo.StartTime lineInfo) 1].
Proof.
  destruct (C3_whole_line_word (str "[500,0]la la") (str "500") (str "0")
              (str "la la") eq_refl) as (li & Hli & Hw & _).
  - discriminate.
  - exists li. split; [exact Hli | exact (Hw eq_refl)].
Defined.

(** C8.  On a line the header pattern matches, for every word match
    whose duration is 0: when its text is non-blank the parsed words
    contain that word with duration exactly 1; when its text is blank
    the match does not survive, and the parsed words are the corrected
    surviving matches (or, when none survives, at most the whole-line
    word), so the word is absent.  No parsed word keeps the duration 0,
    so every parsed word with non-blank text lasts at least 1 ms. *)
Theorem C8_zero_duration_correction (line m1 m2 content : gostring) :
  yrcLineRe line = Some (m1, m2, content) ->
  exists lineInfo,
    parseYrcLine line = Ok lineInfo /\
    (forall text start dur,
       In (text, start, dur) (wordInfoRe_FindAll content) ->
       Atoi dur = 0 ->
       (TrimSpace text <> [] ->
        In (WordInfo.mk text (Atoi start) 1) (LineInfo.Words lineInfo)) /\
       (TrimSpace text = [] ->
        survives (text, start, dur) = false /\
        ~ In (WordInfo.mk text (Atoi start) 0) (LineInfo.Words lineInfo))) /\
    (LineInfo.Words lineInfo
       = map correctedWord (filter survives (wordInfoRe_FindAll content)) \/
     (filter survives (wordInfoRe_FindAll content) = [] /\
      LineInfo.Words lineInfo = [wholeLineWord m1 m2 content])) /\
    (forall w,
       In w (LineInfo.Words lineInfo) ->
       TrimSpace (WordInfo.Text w) <> [] -> 1 <= WordInfo.Duration w).
Proof.
  intros H.
  destruct (parseYrcLine_words _ _ _ _ H) as (li & Hli & _ & _ & Hw).
  pose proof (parseYrcLine_durations _ _ Hli) as Hd.
  rewrite Forall_forall in Hd.
  exists li. split; [assumption|]. cbv zeta in Hw.
  set (kept := map correctedWord (filter survives (wordInfoRe_FindAll content))) in *.
  split; [|split].
  - intros text start dur Hmatch Hzero. split.
    + intros Hnb.
      assert (Hin : In (WordInfo.mk text (Atoi start) 1) kept).
      { apply in_map_iff. exists (text, start, dur). split.
        - simpl. now rewrite Hzero.
        - apply filter_In. split; [assumption|]. simpl. rewrite Hzero.
          destruct (TrimSpace text); [congruence | reflexivity]. }
      rewrite Hw. destruct kept; [contradiction | exact Hin].
    + intros Hblank. split.
      * simpl. rewrite Hzero, Hblank. reflexivity.
      * intros Hin. apply Hd in Hin. simpl in Hin. lia.
  - rewrite Hw. destruct kept eqn:K.
    + destruct (isEmpty content); simpl; [left; reflexivity|].
      right. split; [|reflexivity].
      unfold kept in K. now apply map_eq_nil in K.
    + left. reflexivity.
  - intros w Hin _. now apply Hd.
Qed.

Lemma C8_zero_duration_correction_witness :
  exists lineInfo,
    parseYrcLine (str "[0,900]Hi(0,0) (300,0)you(400,500)") = Ok lineInfo /\
    In (WordInfo.mk (str "Hi") 0 1) (LineInfo.Words lineInfo) /\
    survives (str " ", str "300", str "0") = false /\
    ~ In (WordInfo.mk (str " ") 300 0) (LineInfo.Words lineInfo).
Proof.
  destruct (C8_zero_duration_correction
              (str "[0,900]Hi(0,0) (300,0)you(400,500)") (str "0") (str "900")
              (str "Hi(0,0) (300,0)you(400,500)") eq_refl)
    as (li & Hli & Hz & _).
  exists li. split; [exact Hli|]. split.
  - refine (proj1 (Hz (str "Hi") (str "0") (str "0") _ eq_refl) _).
    + left. reflexivity.
    + discriminate.
  - refine (proj2 (Hz (str " ") (str "300") (str "0") _ eq_refl) eq_refl).
    right. left. reflexivity.
Defined.

(** ** The lines the YRC parser returns *)

Lemma parseYrcToLines_loop (P : LineInfo.t -> Prop) (lines : list gostring) :
  (forall line lineInfo,
     parseYrcLine line = Ok lineInfo -> LineInfo.Words lineInfo <> [] ->
     P lineInfo) ->
  forall parsedLines,
    Forall P parsedLines ->
    Forall P (fold_left parseYrcToLines_step lines parsedLines).
Proof.
  intros HP. induction lines as [|line lines IH]; intros acc Hacc; simpl.
  - assumption.
  - apply IH. unfold parseYrcToLines_step.
    destruct (negb (HasPrefix line (str "[")) || isMetadataLine line);
      [assumption|].
    destruct (parseYrcLine line) as [li|] eqn:E; [|assumption].
    destruct (LineInfo.Words li) eqn:W; simpl; [assumption|].
    apply Forall_app. split; [assumption|]. constructor; [|constructor].
    apply (HP line li E). rewrite W. discriminate.
Qed.

(** C10.  Every line the YRC parser returns holds at least one word,
    and every word of it, blank or not, matched or synthesized, lasts at
    least 1 ms. *)
Theorem C10_parsed_lines_nonempty_positive (yrcContent : gostring) :
  Forall (fun lineInfo =>
            LineInfo.Words lineInfo <> [] /\
            Forall (fun w => 1 <= WordInfo.Duration w) (LineInfo.Words lineInfo))
         (parseYrcToLines yrcContent).
Proof.
  unfold parseYrcToLines. apply parseYrcToLines_loop; [|constructor].
  intros line li Hli Hne. split; [assumption|].
  eapply parseYrcLine_durations; eassumption.
Qed.

(** A blank word of positive duration is kept, a whole-line word is
    synthesized, and a line without any text is left out. *)
Example parseYrcToLines_sample :
  parseYrcToLines (str "[0,300] (0,300)
[1000,0]la la
[2000,500]
[ti:x]")
  = [LineInfo.mk [WordInfo.mk (str " ") 0 300] 0 300;
     LineInfo.mk [WordInfo.mk (str "la la") 1000 1] 1000 1000].
Proof. reflexivity. Qed.

(** The start times the parser produces are within the range assumed of
    the matchers. *)
Lemma parseYrcToLines_timeRange (yrcContent : gostring) :
  Forall (fun lineInfo => timeRange (LineInfo.StartTime lineInfo))
         (parseYrcToLines yrcContent).
Proof.
  unfold parseYrcToLines. apply parseYrcToLines_loop; [|constructor].
  intros line li Hli _.
  destruct (yrcLineRe line) as [[[m1 m2] content]|] eqn:E.
  - destruct (parseYrcLine_words _ _ _ _ E) as (li' & Hli' & Hs & _).
    rewrite Hli in Hli'. inversion Hli'; subst li'. rewrite Hs.
    apply yrcLineRe_Some in E. destruct E as (_ & [Hne Hd] & _).
    now apply Atoi_timeRange.
  - unfold parseYrcLine in Hli. rewrite E in Hli. discriminate.
Qed.

(** ** LRC timeline parser *)

Lemma lrcTimeRe_nil : lrcTimeRe [] = None.
Proof. reflexivity. Qed.

Lemma parseLrcTimedLines_loop (lines : list gostring)
    (timedLines : list MetaLine.t) :
  fold_left parseLrcTimedLines_step lines timedLines
  = timedLines ++
    flat_map (fun line => match retainedEntry line with
                          | Some entry => [entry]
                          | None => []
                          end) lines.
Proof.
  revert timedLines. induction lines as [|line lines IH]; intros acc; simpl.
  - now rewrite app_nil_r.
  - rewrite IH. unfold parseLrcTimedLines_step, retainedEntry.
    destruct (TrimSpace line) as [|c tl] eqn:E.
    + rewrite lrcTimeRe_nil. reflexivity.
    + cbn [isEmpty]. destruct (lrcTimeRe (c :: tl)) as [[[[mm ss] frac] text]|];
        [|reflexivity].
      cbv zeta. unfold watermarks. cbn [existsb]. rewrite orb_false_r.
      destruct (isEmpty (TrimSpace text)); cbn [negb andb orb]; [reflexivity|].
      destruct (gostring_eqb (TrimSpace text) (str "//")); cbn [negb andb orb];
        [reflexivity|].
      destruct (Contains (TrimSpace text) (str "QQ音乐")); cbn [negb andb orb];
        [reflexivity|].
      destruct (Contains (TrimSpace text) (str "制作")); cbn [negb andb orb];
        [reflexivity|].
      now rewrite <- app_assoc.
Qed.

Lemma StronglySorted_weaken {A : Type} (R1 R2 : A -> A -> Prop) (l : list A) :
  (forall a b, R1 a b -> R2 a b) ->
  StronglySorted R1 l -> StronglySorted R2 l.
Proof.
  intros HR. induction 1 as [|a l Hs IH Hf]; constructor.
  - assumption.
  - eapply Forall_impl; [|exact Hf]. auto.
Qed.

Section SortContract.

Variable sort_Slice :
  (MetaLine.t -> MetaLine.t -> bool) -> list MetaLine.t -> list MetaLine.t.

(** What the documentation of [sort.Slice] promises: the slice is
    rearranged, and afterwards no element is less than an earlier one. *)
Hypothesis sort_Slice_permutation :
  forall x, Permutation (sort_Slice lessTime x) x.
Hypothesis sort_Slice_sorted :
  forall x, StronglySorted (fun a b => lessTime b a = false)
                           (sort_Slice lessTime x).

(** C4 (amended).  For every input text the LRC timeline parser returns
    a sequence sorted ascending by time; when the text is not blank the
    sequence is a rearrangement of the retained entries, an entry being
    retained exactly when its trimmed line matches the time-stamp
    pattern and its trimmed text is non-empty, is not the bare
    separator and contains neither watermark; a blank text gives the
    empty sequence.  The relative order of entries with equal times is
    what [sort.Slice] leaves, which is not promised to be the order of
    the input. *)
Theorem C4_parseLrcTimedLines_sorted (lrcContent : gostring) :
  StronglySorted (fun a b => MetaLine.Time a <= MetaLine.Time b)
                 (parseLrcTimedLines sort_Slice lrcContent) /\
  (TrimSpace lrcContent <> [] ->
   Permutation (parseLrcTimedLines sort_Slice lrcContent)
               (retainedEntries lrcContent)) /\
  (TrimSpace lrcContent = [] -> parseLrcTimedLines sort_Slice lrcContent = []).
Proof.
  unfold parseLrcTimedLines. destruct (TrimSpace lrcContent) as [|c tl] eqn:E.
  - simpl. repeat split; [constructor | congruence].
  - cbn [isEmpty]. rewrite parseLrcTimedLines_loop. cbn [app].
    repeat split.
    + eapply StronglySorted_weaken; [|apply sort_Slice_sorted].
      unfold lessTime. intros a b H. apply Z.ltb_ge in H. exact H.
    + intros _. apply sort_Slice_permutation.
    + discriminate.
Qed.

(** A retained entry has a text and a time below 101 minutes. *)
Lemma retainedEntry_Some (line : gostring) (entry : MetaLine.t) :
  retainedEntry line = Some entry ->
  MetaLine.Content entry <> [] /\ timeRange (MetaLine.Time entry).
Proof.
  unfold retainedEntry.
  destruct (lrcTimeRe (TrimSpace line)) as [[[[mm ss] frac] text]|] eqn:E;
    [|discriminate].
  cbv zeta. destruct (TrimSpace text) as [|c content] eqn:Et.
  - discriminate.
  - cbn [isEmpty orb].
    destruct (gostring_eqb (c :: content) (str "//") ||
              existsb (Contains (c :: content)) watermarks); [discriminate|].
    intros H. inversion H; subst entry. cbn [MetaLine.Content MetaLine.Time].
    split; [discriminate|].
    apply lrcTimeRe_inv in E.
    destruct E as (_ & Lm & Ls & Lf & Dm & Ds & Df & _).
    destruct (lrcTotalMs_digits mm ss frac Lm Ls Lf Dm Ds Df)
      as (m & s & f & Bm & Bs & Bf & Bf2 & ->).
    unfold timeRange, GoInt.maxInt.
    destruct (Nat.eqb_spec (length frac) 2) as [L2 | L2].
    + specialize (Bf2 L2). lia.
    + lia.
Qed.

(** Every translation the parser returns has a text, and a time in the
    range assumed of the matchers. *)
Lemma parseLrcTimedLines_entries (lrcContent : gostring) :
  Forall (fun entry => MetaLine.Content entry <> [] /\
                       timeRange (MetaLine.Time entry))
         (parseLrcTimedLines sort_Slice lrcContent).
Proof.
  unfold parseLrcTimedLines.
  destruct (isEmpty (TrimSpace lrcContent)); [constructor|].
  rewrite parseLrcTimedLines_loop. cbn [app].
  eapply Permutation_Forall; [symmetry; apply sort_Slice_permutation|].
  apply Forall_forall. intros entry Hin. apply in_flat_map in Hin.
  destruct Hin as (line & _ & Hin).
  destruct (retainedEntry line) as [e|] eqn:E; [|contradiction].
  destruct Hin as [<- | []]. eapply retainedEntry_Some; eassumption.
Qed.

(** A translation within 500 ms of a time is found: the text the
    matcher returns for that time is not empty. *)
Lemma translation_within_threshold (time : Z) (transLrc : gostring) :
  timeRange time ->
  Exists (fun entry => Z.abs (MetaLine.Time entry - time) < 500)
         (parseLrcTimedLines sort_Slice transLrc) ->
  findClosestLine time (parseLrcTimedLines sort_Slice transLrc) <> [].
Proof.
  intros Ht Hnear.
  pose proof (parseLrcTimedLines_entries transLrc) as Hentries.
  set (translations := parseLrcTimedLines sort_Slice transLrc) in *.
  assert (Hrange : Forall (fun e => timeRange (MetaLine.Time e)) translations)
    by (eapply Forall_impl; [|exact Hentries]; simpl; tauto).
  pose proof (findClosestLine_loop time translations Ht Hrange) as Inv.
  unfold findClosestLine.
  destruct (fold_left (findClosestLine_step time) translations (0, 500, -1))
    as [[i minDiff] bestIndex].
  destruct Inv as [Hi [(_ & _ & F) | (Hb & _ & _ & _)]].
  - exfalso. apply Exists_exists in Hnear. destruct Hnear as (e & He & Hd).
    rewrite Forall_forall in F. specialize (F e He). lia.
  - destruct (Z.eqb_spec bestIndex (-1)); [lia|]. cbn [negb].
    rewrite Forall_forall in Hentries.
    apply (Hentries (nth (Z.to_nat bestIndex) translations zeroMetaLine)).
    apply nth_In. lia.
Qed.

End SortContract.

Lemma insertSorted_permutation {A : Type} (less : A -> A -> bool) (x : A)
    (l : list A) :
  Permutation (insertSorted less x l) (x :: l).
Proof.
  induction l as [|y l IH]; simpl.
  - reflexivity.
  - destruct (less y x); [|reflexivity].
    rewrite IH. apply perm_swap.
Qed.

Lemma insertionSort_permutation {A : Type} (less : A -> A -> bool) (l : list A) :
  Permutation (insertionSort less l) l.
Proof.
  induction l as [|x l IH]; simpl.
  - constructor.
  - rewrite insertSorted_permutation. now constructor.
Qed.

Lemma insertSorted_sorted (x : MetaLine.t) (l : list MetaLine.t) :
  StronglySorted (fun a b => lessTime b a = false) l ->
  StronglySorted (fun a b => lessTime b a = false) (insertSorted lessTime x l).
Proof.
  induction 1 as [|y l Hs IH Hf]; simpl.
  - constructor; constructor.
  - destruct (lessTime y x) eqn:E.
    + constructor; [assumption|].
      eapply Permutation_Forall;
        [symmetry; apply insertSorted_permutation|].
      constructor; [|assumption].
      unfold lessTime in *. apply Z.ltb_lt in E. apply Z.ltb_ge. lia.
    + constructor; [constructor; assumption|].
      constructor; [assumption|].
      eapply Forall_impl; [|exact Hf]. unfold lessTime in *.
      intros z Hz. apply Z.ltb_ge in E, Hz. apply Z.ltb_ge. lia.
Qed.

Lemma insertionSort_sorted (l : list MetaLine.t) :
  StronglySorted (fun a b => lessTime b a = false) (insertionSort lessTime l).
Proof.
  induction l as [|x l IH]; simpl.
  - constructor.
  - now apply insertSorted_sorted.
Qed.

Lemma C4_parseLrcTimedLines_sorted_witness :
  StronglySorted (fun a b => MetaLine.Time a <= MetaLine.Time b)
    (parseLrcTimedLines insertionSort (str "[00:02.50]two
[00:01.00]one")) /\
  Permutation
    (parseLrcTimedLines insertionSort (str "[00:02.50]two
[00:01.00]one"))
    [MetaLine.mk 2500 (str "two"); MetaLine.mk 1000 (str "one")].
Proof.
  pose proof (C4_parseLrcTimedLines_sorted insertionSort
                (insertionSort_permutation lessTime) insertionSort_sorted
                (str "[00:02.50]two
[00:01.00]one")) as (Hs & Hp & _).
  split; [exact Hs|]. apply Hp. discriminate.
Defined.

(** C4, as the specification states it, fails on the stability of the
    sort: [sort.Slice] is no stable sort.  On thirteen lines (more than
    the twelve that are sorted by insertion) the first partitioning step
    of the quicksort swaps the first entry with the pivot: of the twelve
    entries at 1000 ms, [g] ends up before [a] and [b] after [l]. *)
Lemma C4_counterexample :
  entriesAt 1000 (retainedEntries thirteenLines)
  = map str ["a"; "b"; "c"; "d"; "e"; "f"; "g"; "h"; "i"; "j"; "k"; "l"]%string /\
  map MetaLine.Time (parseLrcTimedLines go_sort_Slice thirteenLines)
  = [0; 1000; 1000; 1000; 1000; 1000; 1000; 1000; 1000; 1000; 1000; 1000; 1000] /\
  entriesAt 1000 (parseLrcTimedLines go_sort_Slice thirteenLines)
  = map str ["g"; "c"; "d"; "e"; "f"; "a"; "h"; "i"; "j"; "k"; "l"; "b"]%string.
Proof. repeat split; vm_compute; reflexivity. Qed.

(** ** Merged-LRC writer *)

Lemma unlines_app (l1 l2 : list gostring) :
  unlines (l1 ++ l2) = unlines l1 ++ unlines l2.
Proof. unfold unlines. now rewrite map_app, concat_app. Qed.

Lemma unlines_cons (line : gostring) (lines : list gostring) :
  unlines (line :: lines) = line ++ [newline] ++ unlines lines.
Proof. unfold unlines. simpl. now rewrite <- app_assoc. Qed.

Lemma mergeLrcWithTranslation_loop (translations : list MetaLine.t)
    (lines : list gostring) (result : gostring) :
  fold_left (mergeLrcWithTranslation_step translations) lines result
  = result ++
    unlines (flat_map (mergedLines translations)
               (filter (fun line => negb (isEmpty line)) (map TrimSpace lines))).
Proof.
  revert result. induction lines as [|line lines IH]; intros result.
  - cbn [fold_left map filter flat_map]. unfold unlines. cbn [map concat].
    now rewrite app_nil_r.
  - cbn [fold_left map filter]. rewrite IH. unfold mergeLrcWithTranslation_step.
    destruct (TrimSpace line) as [|c tl] eqn:E; cbn [isEmpty negb]; [reflexivity|].
    cbn [flat_map]. rewrite unlines_app.
    unfold mergedLines at 2, translationLine.
    destruct (isMetadataLine (c :: tl)).
    + rewrite unlines_cons. unfold unlines at 2. cbn [map concat].
      rewrite app_nil_r, <- !app_assoc. reflexivity.
    + destruct (lrcTimeRe (c :: tl)) as [[[[mm ss] frac] rest]|].
      * cbv zeta. destruct (findClosestLine _ translations) as [|t ts];
          cbn [isEmpty negb].
        -- rewrite unlines_cons. unfold unlines at 2. cbn [map concat].
           rewrite app_nil_r, <- !app_assoc. reflexivity.
        -- rewrite !unlines_cons. unfold unlines at 2. cbn [map concat].
           rewrite app_nil_r, <- !app_assoc. reflexivity.
      * rewrite unlines_cons. unfold unlines at 2. cbn [map concat].
        rewrite app_nil_r, <- !app_assoc. reflexivity.
Qed.

Lemma formatInt2_decimalValue (s : gostring) :
  length s = 2%nat -> forallb isDigit s = true ->
  formatInt 2 (decimalValue s) = s.
Proof.
  intros L D. destruct s as [|a [|b [|]]]; try discriminate.
  simpl in D. rewrite andb_true_r in D. apply andb_true_iff in D.
  destruct D as [Da Db].
  destruct (isDigit_digitChar a Da) as [Ra ->].
  destruct (isDigit_digitChar b Db) as [Rb ->].
  generalize dependent (digitVal a). intros va Ra.
  generalize dependent (digitVal b). intros vb Rb.
  each_digit va Ra; each_digit vb Rb; reflexivity.
Qed.

(** Re-encoding the time of a matched line gives its own label back
    when the label has a two-digit fraction and seconds below 60. *)
Lemma msToLrcTime_label (line mm ss frac rest : gostring) :
  lrcTimeRe line = Some (mm, ss, frac, rest) ->
  length frac = 2%nat -> Atoi ss < 60 ->
  msToLrcTime (lrcTotalMs mm ss frac) = lrcStamp mm ss frac /\
  line = lrcStamp mm ss frac ++ rest.
Proof.
  intros H L2 Hs. apply lrcTimeRe_inv in H.
  destruct H as (Hline & Lm & Ls & Lf & Dm & Ds & Df & _).
  split; [|assumption].
  pose proof (decimalValue_2 mm Lm Dm) as Bm.
  pose proof (decimalValue_2 ss Ls Ds) as Bs.
  pose proof (decimalValue_2 frac L2 Df) as Bf.
  assert (Ess : Atoi ss = decimalValue ss).
  { apply (Atoi_small ss 100); try assumption; try (unfold GoInt.maxInt; lia).
    intros ->. discriminate. }
  rewrite Ess in Hs.
  assert (E : lrcTotalMs mm ss frac
              = decimalValue mm * 60000 + decimalValue ss * 1000
                + decimalValue frac * 10).
  { unfold lrcTotalMs. rewrite L2. simpl Nat.eqb. cbv iota.
    rewrite (Atoi_small mm 100), Ess, (Atoi_small frac 100);
      try assumption; try (unfold GoInt.maxInt; lia);
      try (intros ->; discriminate).
    int_small. lia. }
  rewrite E.
  set (m := decimalValue mm) in *. set (s := decimalValue ss) in *.
  set (f := decimalValue frac) in *.
  rewrite msToLrcTime_small by lia.
  assert (E1 : (m * 60000 + s * 1000 + f * 10) / 60000 = m).
  { symmetry. apply (Z.div_unique _ _ _ (s * 1000 + f * 10)); lia. }
  assert (E2 : (m * 60000 + s * 1000 + f * 10) / 1000 = m * 60 + s).
  { symmetry. apply (Z.div_unique _ _ _ (f * 10)); lia. }
  assert (E3 : (m * 60 + s) mod 60 = s).
  { symmetry. apply (Z.mod_unique _ _ m); lia. }
  assert (E4 : (m * 60000 + s * 1000 + f * 10) mod 1000 = f * 10).
  { symmetry. apply (Z.mod_unique _ _ (m * 60 + s)); lia. }
  assert (E5 : f * 10 / 10 = f) by (apply Z.div_mul; lia).
  rewrite E1, E2, E3, E4, E5. unfold m, s, f.
  now rewrite !formatInt2_decimalValue.
Qed.

(** C2, as the specification states it, fails on a line with white
    space around it: the line is written trimmed, so the original line
    is no line of the output, nor even a part of it. *)
Lemma C2_counterexample :
  mergeLrcWithTranslation go_sort_Slice (str " [00:01.00]Hello")
                          (str "[00:01.00]Bonjour")
  = str "[00:01.00]Hello" ++ nl ++ str "[00:01.00]Bonjour" ++ nl /\
  In (str " [00:01.00]Hello") (Split (str " [00:01.00]Hello") newline) /\
  Contains (mergeLrcWithTranslation go_sort_Slice (str " [00:01.00]Hello")
                                    (str "[00:01.00]Bonjour"))
           (str " [00:01.00]Hello") = false.
Proof. repeat split. left. reflexivity. Qed.

(** The label of a translation line is the re-encoded time: a
    three-digit fraction comes back with two digits. *)
Example mergeLrcWithTranslation_relabels :
  mergeLrcWithTranslation go_sort_Slice (str "[00:01.234]Hello")
                          (str "[00:01.23]Bonjour")
  = str "[00:01.234]Hello" ++ nl ++ str "[00:01.23]Bonjour" ++ nl.
Proof. reflexivity. Qed.

(** C2 (amended).  For every original text and every translation text
    that is not blank, the merged output consists of the lines of the
    original in their order, each trimmed of surrounding white space and
    the blank ones left out; after a line that is no metadata line and
    that the time-stamp pattern matches, when the closest translation of
    its time (within 500 ms) is found, one line follows at once, made of
    the re-encoded time of the line and the translated text; a metadata
    line or a line the pattern does not match is followed by nothing.
    The re-encoded time is the label of the line itself when the label
    has a two-digit fraction and seconds below 60.  Whatever
    [sort.Slice] does. *)
Theorem C2_mergeLrcWithTranslation_lines
    (sort_Slice : (MetaLine.t -> MetaLine.t -> bool) ->
                  list MetaLine.t -> list MetaLine.t)
    (originalLrc transLrc : gostring) :
  TrimSpace transLrc <> [] ->
  let translations := parseLrcTimedLines sort_Slice transLrc in
  mergeLrcWithTranslation sort_Slice originalLrc transLrc
  = unlines (flat_map (mergedLines translations) (keptLines originalLrc)) /\
  (forall line,
     isMetadataLine line = true \/ lrcTimeRe line = None ->
     mergedLines translations line = [line]) /\
  (forall line mm ss frac rest,
     isMetadataLine line = false ->
     lrcTimeRe line = Some (mm, ss, frac, rest) ->
     let totalMs := lrcTotalMs mm ss frac in
     (findClosestLine totalMs translations <> [] ->
      mergedLines translations line
      = [line; msToLrcTime totalMs ++ findClosestLine totalMs translations]) /\
     (findClosestLine totalMs translations = [] ->
      mergedLines translations line = [line]) /\
     (length frac = 2%nat -> Atoi ss < 60 ->
      msToLrcTime totalMs = lrcStamp mm ss frac /\
      line = lrcStamp mm ss frac ++ rest)).
Proof.
  intros Hne translations. split; [|split].
  - unfold mergeLrcWithTranslation.
    destruct (TrimSpace transLrc); [congruence|]. cbn [isEmpty].
    rewrite mergeLrcWithTranslation_loop. reflexivity.
  - intros line [Hm | Hn]; unfold mergedLines, translationLine.
    + now rewrite Hm.
    + rewrite Hn. now destruct (isMetadataLine line).
  - intros line mm ss frac rest Hmeta Hre totalMs. split; [|split].
    + intros Hf. unfold mergedLines, translationLine. rewrite Hmeta, Hre.
      cbv zeta. fold totalMs.
      destruct (findClosestLine totalMs translations); [congruence|].
      reflexivity.
    + intros Hf. unfold mergedLines, translationLine. rewrite Hmeta, Hre.
      cbv zeta. fold totalMs. now rewrite Hf.
    + intros L2 Hs. eapply msToLrcTime_label; eassumption.
Qed.

Lemma C2_mergeLrcWithTranslation_lines_witness :
  mergeLrcWithTranslation go_sort_Slice
    (str "[ti:Song]
  [00:01.00]Hello

no time stamp") (str "[00:01.20]Bonjour")
  = unlines [str "[ti:Song]"; str "[00:01.00]Hello"; str "[00:01.00]Bonjour";
             str "no time stamp"].
Proof.
  exact (proj1 (C2_mergeLrcWithTranslation_lines go_sort_Slice
                  (str "[ti:Song]
  [00:01.00]Hello

no time stamp") (str "[00:01.20]Bonjour")
                  ltac:(discriminate))).
Defined.

(** ** Response builder *)

Section Response.

Variable sort_Slice :
  (MetaLine.t -> MetaLine.t -> bool) -> list MetaLine.t -> list MetaLine.t.
Variable map_range : list (gostring * gostring) -> list (gostring * gostring).

(** The TTML conversion fails exactly when the YRC parser returns no
    line, and then with its one named error. *)
Lemma convertYrcToTtml_result (data : LyricData.t) :
  (parseYrcToLines (LyricData.Yrc (LyricData.Data data)) = [] ->
   convertYrcToTtml sort_Slice data = Err (str "未找到有效的YRC歌词行")) /\
  (parseYrcToLines (LyricData.Yrc (LyricData.Data data)) <> [] ->
   exists ttml, convertYrcToTtml sort_Slice data = Ok ttml /\ ttml <> []).
Proof.
  unfold convertYrcToTtml.
  destruct (parseYrcToLines (LyricData.Yrc (LyricData.Data data))) as [|l ls].
  - split; [reflexivity | congruence].
  - split; [discriminate|]. intros _. cbn [isEmpty]. cbv zeta.
    destruct (fold_left _ _ _) as [[sb n] k].
    eexists. split; [reflexivity|].
    intros E. apply app_eq_nil in E. destruct E as [_ E]. discriminate.
Qed.

Lemma convertYrcToEnhancedLrc_Ok (yrc lrc trans roma : gostring) :
  exists eslrc, convertYrcToEnhancedLrc sort_Slice map_range yrc lrc trans roma
                = Ok eslrc.
Proof. unfold convertYrcToEnhancedLrc. eexists. reflexivity. Qed.

Lemma unlines_nonempty (lines : list gostring) :
  lines <> [] -> unlines lines <> [].
Proof.
  destruct lines as [|l ls]; [congruence|]. intros _. unfold unlines. simpl.
  destruct l; discriminate.
Qed.

(** The merged LRC of a text with a line that is not blank is not empty. *)
Lemma mergeLrcWithTranslation_nonempty (originalLrc transLrc : gostring) :
  keptLines originalLrc <> [] ->
  mergeLrcWithTranslation sort_Slice originalLrc transLrc <> [].
Proof.
  intros Hk. unfold mergeLrcWithTranslation.
  destruct (TrimSpace transLrc) as [|c tl] eqn:E; cbn [isEmpty].
  - intros ->. apply Hk. reflexivity.
  - rewrite mergeLrcWithTranslation_loop. cbn [app]. apply unlines_nonempty.
    fold (keptLines originalLrc).
    destruct (keptLines originalLrc); [congruence | discriminate].
Qed.

(** C9 (amended).  For every upstream payload the response is built,
    and:
    - when the yrc input is empty, the eslrc and ttml fields are empty;
    - the lrc field is the merged LRC whatever happens to the other
      conversions; it is the lrc input itself when the translation input
      is blank, and it is not empty when the lrc input holds a line that
      is not blank;
    - when the TTML conversion fails (which it does, with its named
      error, exactly when no valid YRC line is parsed) the ttml field
      is empty while the lrc field is the merged LRC and the eslrc field
      is the result of the enhanced-LRC conversion, which never fails. *)
Theorem C9_buildResponse_fields (song singer album : gostring)
    (data : LyricData.t) :
  let d := LyricData.Data data in
  let resp := buildResponse sort_Slice map_range song singer album data in
  let out := UnifiedLyricResponse.Data resp in
  UnifiedLyricResponse.Code resp = 200 /\
  (LyricData.Yrc d = [] ->
   UnifiedLyricResponse.ESLRC out = [] /\ UnifiedLyricResponse.TTML out = []) /\
  UnifiedLyricResponse.LRC out
    = mergeLrcWithTranslation sort_Slice (LyricData.Lrc d) (LyricData.Trans d) /\
  (TrimSpace (LyricData.Trans d) = [] ->
   UnifiedLyricResponse.LRC out = LyricData.Lrc d) /\
  (keptLines (LyricData.Lrc d) <> [] -> UnifiedLyricResponse.LRC out <> []) /\
  (forall message,
     convertYrcToTtml sort_Slice data = Err message ->
     message = str "未找到有效的YRC歌词行" /\
     parseYrcToLines (LyricData.Yrc d) = [] /\
     UnifiedLyricResponse.TTML out = [] /\
     UnifiedLyricResponse.LRC out
       = mergeLrcWithTranslation sort_Slice (LyricData.Lrc d) (LyricData.Trans d) /\
     (LyricData.Yrc d <> [] ->
      convertYrcToEnhancedLrc sort_Slice map_range (LyricData.Yrc d)
        (LyricData.Lrc d) (LyricData.Trans d) (LyricData.Roma d)
      = Ok (UnifiedLyricResponse.ESLRC out))).
Proof.
  intros d resp out.
  destruct (convertYrcToEnhancedLrc_Ok (LyricData.Yrc d) (LyricData.Lrc d)
              (LyricData.Trans d) (LyricData.Roma d)) as [eslrc He].
  pose proof (convertYrcToTtml_result data) as [Hfail Hok]. fold d in Hfail, Hok.
  assert (Hlrc : UnifiedLyricResponse.LRC out
                 = mergeLrcWithTranslation sort_Slice (LyricData.Lrc d)
                     (LyricData.Trans d)).
  { subst out resp. unfold buildResponse. fold d.
    destruct (negb (isEmpty (LyricData.Yrc d))); reflexivity. }
  assert (Hfields :
            (LyricData.Yrc d = [] ->
             UnifiedLyricResponse.ESLRC out = [] /\
             UnifiedLyricResponse.TTML out = []) /\
            (LyricData.Yrc d <> [] ->
             UnifiedLyricResponse.ESLRC out = eslrc /\
             UnifiedLyricResponse.TTML out
             = match convertYrcToTtml sort_Slice data with
               | Ok ttml => ttml
               | Err _ => []
               end)).
  { subst out resp. unfold buildResponse. fold d. rewrite He.
    destruct (LyricData.Yrc d) as [|c yrc]; cbn [isEmpty negb];
      split; intros Hy; try congruence; split; reflexivity. }
  destruct Hfields as [Hempty Hfull].
  assert (Hcode : UnifiedLyricResponse.Code resp = 200).
  { subst resp. unfold buildResponse.
    destruct (negb (isEmpty (LyricData.Yrc (LyricData.Data data))));
      reflexivity. }
  split; [exact Hcode|]. split; [exact Hempty|]. split; [exact Hlrc|].
  split; [|split].
  - intros Ht. rewrite Hlrc. unfold mergeLrcWithTranslation. now rewrite Ht.
  - intros Hk. rewrite Hlrc. now apply mergeLrcWithTranslation_nonempty.
  - intros message Herr.
    assert (Hnone : parseYrcToLines (LyricData.Yrc d) = []).
    { destruct (parseYrcToLines (LyricData.Yrc d)) eqn:Ep; [reflexivity|].
      destruct Hok as (ttml & Hok & _); [discriminate|]. congruence. }
    split; [|split; [exact Hnone|split; [|split; [exact Hlrc|]]]].
    + rewrite (Hfail Hnone) in Herr. congruence.
    + destruct (LyricData.Yrc d) as [|c yrc] eqn:Ey.
      * now apply Hempty.
      * destruct Hfull as [_ Httml]; [discriminate|].
        rewrite Httml, Herr. reflexivity.
    + intros Hy. destruct (Hfull Hy) as [-> _]. exact He.
Qed.

End Response.

(** C9, as the specification states it, fails on an lrc input that is
    not empty but blank, with a translation that is not: no line of the
    lrc input is written, and the lrc field is empty. *)
Lemma C9_counterexample :
  LyricData.Lrc (LyricData.mkData (str " ") (str "[00:01.00]hi") [] []) <> [] /\
  UnifiedLyricResponse.LRC
    (UnifiedLyricResponse.Data
       (buildResponse go_sort_Slice insertion_order (str "Song") (str "Singer")
          (str "Album")
          (LyricData.mk 200 (str "ok")
             (LyricData.mkData (str " ") (str "[00:01.00]hi") [] []))))
  = [].
Proof. split; [discriminate | reflexivity]. Qed.

(** A YRC line behind a space is no line for the TTML conversion, which
    looks for the bracket at the very front, and is one for the
    enhanced-LRC conversion, which trims the line first: the ttml field
    is empty, the other two are written. *)
Example buildResponse_ttml_fails_alone :
  UnifiedLyricResponse.Data
    (buildResponse go_sort_Slice insertion_order (str "Song") (str "Singer")
       (str "Album")
       (LyricData.mk 200 (str "ok")
          (LyricData.mkData (str "[00:00.00]a") [] (str " [0,100]a(0,100)") [])))
  = UnifiedLyricResponse.mkData (str "Song") (str "Singer") (str "Album")
      (str "[00:00.00]a")
      (str "[00:00.00]<00:00.00>a<00:00.10>" ++ nl)
      [].
Proof. reflexivity. Qed.

(** The end-to-end example of the specification: one YRC line of two
    words, as enhanced LRC and as TTML. *)
Example convertYrcToEnhancedLrc_sample :
  convertYrcToEnhancedLrc go_sort_Slice insertion_order
    (str "[1000,2000]Hi(1000,500)there(1600,400)") [] [] []
  = Ok (str "[00:01.00]<00:01.00>Hi<00:01.60>there<00:02.00>" ++ nl).
Proof. reflexivity. Qed.

Example convertYrcToTtml_sample :
  exists head,
    convertYrcToTtml go_sort_Slice
      (LyricData.mk 200 []
         (LyricData.mkData [] [] (str "[1000,2000]Hi(1000,500)there(1600,400)") []))
    = Ok (head ++
          str "    <body dur=" ++ q (str "00:03.000") ++ str ">" ++ nl ++
          str "        <div begin=" ++ q (str "00:01.000") ++ str " end=" ++
          q (str "00:02.000") ++ str ">" ++ nl ++
          str "            <p begin=" ++ q (str "00:01.000") ++ str " end=" ++
          q (str "00:02.000") ++ str " ttm:agent=" ++ q (str "v1") ++
          str " itunes:key=" ++ q (str "L1") ++ str ">" ++ nl ++
          str "                <span begin=" ++ q (str "00:01.000") ++
          str " end=" ++ q (str "00:01.500") ++ str ">Hi</span>" ++ nl ++
          str "                <span begin=" ++ q (str "00:01.600") ++
          str " end=" ++ q (str "00:02.000") ++ str ">there</span>" ++ nl ++
          str "            </p>" ++ nl ++
          str "        </div>" ++ nl ++
          str "    </body>" ++ nl ++ str "</tt>" ++ nl).
Proof.
  exists (str "<?xml version=" ++ q (str "1.0") ++ str " encoding=" ++
          q (str "UTF-8") ++ str "?>" ++ nl ++
          str "<tt xmlns=" ++ q (str "http://www.w3.org/ns/ttml") ++
          str " xmlns:ttm=" ++ q (str "http://www.w3.org/ns/ttml#metadata") ++
          str " xmlns:itunes=" ++
          q (str "http://music.apple.com/lyric-ttml-internal") ++
          str " itunes:timing=" ++ q (str "Word") ++ str ">" ++ nl ++
          str "    <head>" ++ nl ++ str "        <metadata>" ++ nl ++
          str "            <ttm:agent type=" ++ q (str "person") ++
          str " xml:id=" ++ q (str "v1") ++ str "/>" ++ nl ++
          str "        </metadata>" ++ nl ++ str "    </head>" ++ nl).
  vm_compute. reflexivity.
Qed.

Lemma C9_buildResponse_fields_witness :
  UnifiedLyricResponse.TTML
    (UnifiedLyricResponse.Data
       (buildResponse go_sort_Slice insertion_order (str "Song") (str "Singer")
          (str "Album")
          (LyricData.mk 200 (str "ok")
             (LyricData.mkData (str "[00:00.00]a") [] (str "no lyric line") []))))
  = [].
Proof.
  refine (proj1 (proj2 (proj2
    (proj2 (proj2 (proj2 (proj2 (proj2
       (C9_buildResponse_fields go_sort_Slice insertion_order (str "Song")
          (str "Singer") (str "Album")
          (LyricData.mk 200 (str "ok")
             (LyricData.mkData (str "[00:00.00]a") [] (str "no lyric line") [])))))))
       (str "未找到有效的YRC歌词行") eq_refl)))).
Defined.

(** * Further properties of the conversion core *)

(** ** Lines of a text *)

Lemma Split_nonempty (s : gostring) (sep : ascii) : Split s sep <> [].
Proof.
  induction s as [|c s IH]; simpl.
  - discriminate.
  - destruct (Ascii.eqb c sep); [discriminate|].
    destruct (Split s sep); [congruence | discriminate].
Qed.

(** The lines of two texts joined by a separator are the lines of the
    first followed by the lines of the second. *)
Lemma Split_app (s1 s2 : gostring) (sep : ascii) :
  Split (s1 ++ sep :: s2) sep = Split s1 sep ++ Split s2 sep.
Proof.
  induction s1 as [|c s1 IH]; simpl.
  - now rewrite Ascii.eqb_refl.
  - destruct (Ascii.eqb c sep).
    + now rewrite IH.
    + rewrite IH. pose proof (Split_nonempty s1 sep).
      destruct (Split s1 sep); [congruence | reflexivity].
Qed.

Lemma Split_noNewline (s : gostring) :
  noNewline s = true -> Split s newline = [s].
Proof.
  induction s as [|c s IH]; simpl; intros H.
  - reflexivity.
  - apply andb_true_iff in H. destruct H as [Hc Hs].
    apply negb_true_iff in Hc. rewrite Hc, (IH Hs). reflexivity.
Qed.

Lemma noNewline_app (s1 s2 : gostring) :
  noNewline (s1 ++ s2) = noNewline s1 && noNewline s2.
Proof. unfold noNewline. apply forallb_app. Qed.

Lemma digitRun_noNewline (s : gostring) :
  forallb isDigit s = true -> noNewline s = true.
Proof.
  unfold noNewline. intros H. rewrite forallb_forall in *. intros c Hc.
  specialize (H c Hc). destruct (isDigit_digitChar c H) as [R E].
  rewrite E. clear E. revert R. generalize (digitVal c). intros v R.
  each_digit v R; reflexivity.
Qed.

Lemma HasPrefix_app (s prefix : gostring) :
  HasPrefix s prefix = true <-> exists rest, s = prefix ++ rest.
Proof.
  revert s. induction prefix as [|p prefix IH]; intros s; simpl.
  - split; [intros _; exists s; reflexivity | intros _; now destruct s].
  - destruct s as [|c s].
    + split; [discriminate | intros [rest H]; discriminate].
    + split.
      * intros H. apply andb_true_iff in H. destruct H as [Hc Hs].
        apply Ascii.eqb_eq in Hc. apply IH in Hs. destruct Hs as [rest ->].
        exists rest. now subst.
      * intros [rest H]. inversion H; subst. cbn [HasPrefix].
        rewrite Ascii.eqb_refl. cbn [andb]. apply IH. now exists rest.
Qed.

(** ** The header pattern of a YRC line *)

Lemma spanDigits_app (ds rest : gostring) :
  forallb isDigit ds = true ->
  match rest with [] => True | c :: _ => isDigit c = false end ->
  spanDigits (ds ++ rest) = (ds, rest).
Proof.
  intros Hd Hr. induction ds as [|d ds IH]; cbn [app spanDigits].
  - destruct rest as [|c rest]; [reflexivity|]. cbn [spanDigits].
    now rewrite Hr.
  - cbn [forallb] in Hd. apply andb_true_iff in Hd. destruct Hd as [H1 H2].
    rewrite H1, (IH H2). reflexivity.
Qed.

Lemma digitsPlus_app (ds rest : gostring) :
  digitRun ds ->
  match rest with [] => True | c :: _ => isDigit c = false end ->
  digitsPlus (ds ++ rest) = Some (ds, rest).
Proof.
  intros [Hne Hd] Hr. unfold digitsPlus. rewrite spanDigits_app by assumption.
  destruct ds; [congruence | reflexivity].
Qed.

Lemma yrcLineRe_intro (m1 m2 content : gostring) :
  digitRun m1 -> digitRun m2 -> noNewline content = true ->
  yrcLineRe (str "[" ++ m1 ++ str "," ++ m2 ++ str "]" ++ content)
  = Some (m1, m2, content).
Proof.
  intros D1 D2 Hn. unfold yrcLineRe. cbn [str list_ascii_of_string app lit].
  rewrite Ascii.eqb_refl. cbn [bind].
  rewrite digitsPlus_app by (assumption || reflexivity). cbn [bind lit].
  rewrite Ascii.eqb_refl. cbn [bind].
  rewrite digitsPlus_app by (assumption || reflexivity). cbn [bind lit].
  rewrite Ascii.eqb_refl. cbn [bind]. unfold restOfText. now rewrite Hn.
Qed.

(** X1.  [parseYrcLine] succeeds exactly on the lines made of an
    opening bracket, a run of digits, a comma, a run of digits, a
    closing bracket and a rest without newline; the line then starts at
    the first number and ends that far plus the second.  On every other
    line it returns the error that quotes the line. *)
Theorem X1_parseYrcLine_format (line : gostring) :
  (forall lineInfo,
     parseYrcLine line = Ok lineInfo ->
     exists m1 m2 content,
       digitRun m1 /\ digitRun m2 /\ noNewline content = true /\
       line = str "[" ++ m1 ++ str "," ++ m2 ++ str "]" ++ content /\
       LineInfo.StartTime lineInfo = Atoi m1 /\
       LineInfo.EndTime lineInfo = GoInt.add (Atoi m1) (Atoi m2)) /\
  (forall m1 m2 content,
     digitRun m1 -> digitRun m2 -> noNewline content = true ->
     line = str "[" ++ m1 ++ str "," ++ m2 ++ str "]" ++ content ->
     exists lineInfo, parseYrcLine line = Ok lineInfo) /\
  (forall message,
     parseYrcLine line = Err message ->
     message = str "invalid YRC line format: " ++ line).
Proof.
  split; [|split].
  - intros li Hli. destruct (yrcLineRe line) as [[[m1 m2] content]|] eqn:E.
    + destruct (parseYrcLine_words _ _ _ _ E) as (li' & Hli' & Hs & He & _).
      rewrite Hli in Hli'. inversion Hli'; subst li'.
      apply yrcLineRe_Some in E. destruct E as (-> & D1 & D2 & Hn).
      exists m1, m2, content. auto 10.
    + unfold parseYrcLine in Hli. rewrite E in Hli. discriminate.
  - intros m1 m2 content D1 D2 Hn ->.
    destruct (parseYrcLine_words _ _ _ _ (yrcLineRe_intro m1 m2 content D1 D2 Hn))
      as (li & Hli & _). now exists li.
  - intros message. unfold parseYrcLine.
    destruct (yrcLineRe line) as [[[m1 m2] content]|]; [discriminate|].
    now intros [= <-].
Qed.

Lemma X1_parseYrcLine_format_witness :
  exists lineInfo, parseYrcLine (str "[12,340]la(12,340)") = Ok lineInfo.
Proof.
  refine (proj1 (proj2 (X1_parseYrcLine_format (str "[12,340]la(12,340)")))
            (str "12") (str "340") (str "la(12,340)") _ _ eq_refl eq_refl);
    split; [discriminate | reflexivity | discriminate | reflexivity].
Defined.

(** ** Metadata lines *)

Lemma isMetadataLine_letter (line : gostring) :
  isMetadataLine line = true ->
  exists c rest, line = "["%char :: c :: rest /\ isDigit c = false.
Proof.
  unfold isMetadataLine. intros H.
  repeat (apply orb_true_iff in H; destruct H as [H | H]);
    apply HasPrefix_app in H; destruct H as [rest ->];
    eexists; eexists; (split; [reflexivity | reflexivity]).
Qed.

(** X2.  A metadata line is no lyric line: neither the time-stamp
    pattern nor the YRC header pattern matches a line that
    [isMetadataLine] accepts, so [parseYrcLine] fails on it; and every
    line the metadata pattern matches is a metadata line whose key is
    one of the eight tags. *)
Theorem X2_metadata_lines_are_not_lyrics (line : gostring) :
  (isMetadataLine line = true ->
   lrcTimeRe line = None /\ yrcLineRe line = None /\
   parseYrcLine line = Err (str "invalid YRC line format: " ++ line)) /\
  (forall key value,
     metaRe line = Some (key, value) ->
     isMetadataLine line = true /\ In key metaKeys).
Proof.
  split.
  - intros H. apply isMetadataLine_letter in H.
    destruct H as (c & rest & -> & Hc).
    assert (Hy : yrcLineRe ("["%char :: c :: rest) = None).
    { unfold yrcLineRe. cbn [lit]. rewrite Ascii.eqb_refl. cbn [bind].
      unfold digitsPlus. cbn [spanDigits]. rewrite Hc. reflexivity. }
    repeat split.
    + unfold lrcTimeRe. cbn [lit]. rewrite Ascii.eqb_refl. cbn [bind].
      unfold digitsExactly at 1. destruct rest as [|c2 rest]; cbn.
      * reflexivity.
      * rewrite Hc. reflexivity.
    + exact Hy.
    + unfold parseYrcLine. now rewrite Hy.
  - intros key value H. unfold metaRe in H.
    apply bind_Some in H. destruct H as (s1 & H1 & H).
    apply bind_Some in H. destruct H as (k & Hk & H).
    apply lit_Some in H1. subst line.
    apply find_some in Hk. destruct Hk as [Hin Hp].
    destruct (HasSuffix _ _ && noNewline _); [|discriminate].
    inversion H; subst k value. split; [|exact Hin].
    apply HasPrefix_app in Hp. destruct Hp as [rest ->].
    unfold metaKeys in Hin. simpl in Hin.
    repeat (destruct Hin as [<- | Hin]); try contradiction;
      destruct rest; reflexivity.
Qed.

Lemma X2_metadata_lines_are_not_lyrics_witness :
  lrcTimeRe (str "[offset:120]") = None /\
  yrcLineRe (str "[offset:120]") = None /\
  parseYrcLine (str "[offset:120]")
  = Err (str "invalid YRC line format: " ++ str "[offset:120]").
Proof.
  exact (proj1 (X2_metadata_lines_are_not_lyrics (str "[offset:120]")) eq_refl).
Defined.


(** ** Parsing line by line *)

Lemma parseYrcToLines_step_app (parsedLines : list LineInfo.t) (line : gostring) :
  parseYrcToLines_step parsedLines line
  = parsedLines ++ parseYrcToLines_step [] line.
Proof.
  unfold parseYrcToLines_step.
  destruct (negb (HasPrefix line (str "[")) || isMetadataLine line);
    [now rewrite app_nil_r|].
  destruct (parseYrcLine line) as [li|]; [|now rewrite app_nil_r].
  destruct (isEmpty (LineInfo.Words li)); [now rewrite app_nil_r | reflexivity].
Qed.

Lemma parseYrcToLines_fold (lines : list gostring) (parsedLines : list LineInfo.t) :
  fold_left parseYrcToLines_step lines parsedLines
  = parsedLines ++ flat_map (parseYrcToLines_step []) lines.
Proof.
  revert parsedLines. induction lines as [|line lines IH]; intros acc; simpl.
  - now rewrite app_nil_r.
  - rewrite IH, parseYrcToLines_step_app, <- app_assoc. reflexivity.
Qed.

(** X3.  The YRC parser works line by line: the lines parsed from two
    texts joined by a newline are the lines of the first followed by
    the lines of the second; and a line on which [parseYrcLine] fails
    contributes nothing, whatever stands before and after it. *)
Theorem X3_parseYrcToLines_line_by_line (before after : gostring) :
  parseYrcToLines (before ++ [newline] ++ after)
  = parseYrcToLines before ++ parseYrcToLines after /\
  (forall line message,
     noNewline line = true ->
     parseYrcLine line = Err message ->
     parseYrcToLines (before ++ [newline] ++ line ++ [newline] ++ after)
     = parseYrcToLines (before ++ [newline] ++ after)).
Proof.
  assert (Happ : forall a b,
             parseYrcToLines (a ++ [newline] ++ b)
             = parseYrcToLines a ++ parseYrcToLines b).
  { intros a b. unfold parseYrcToLines. cbn [app].
    rewrite Split_app, !parseYrcToLines_fold. cbn [app].
    apply flat_map_app. }
  split; [apply Happ|].
  intros line message Hn Herr.
  rewrite Happ, (Happ line after), (Happ before after). f_equal.
  replace (parseYrcToLines line) with (@nil LineInfo.t); [reflexivity|].
  unfold parseYrcToLines. rewrite (Split_noNewline line Hn). cbn [fold_left].
  unfold parseYrcToLines_step. rewrite Herr.
  now destruct (negb (HasPrefix line (str "[")) || isMetadataLine line).
Qed.

Lemma X3_parseYrcToLines_line_by_line_witness :
  parseYrcToLines (str "[0,500]la(0,500)" ++ [newline] ++ str "[oops]" ++
                   [newline] ++ str "[900,100]li(900,100)")
  = parseYrcToLines (str "[0,500]la(0,500)" ++ [newline] ++
                     str "[900,100]li(900,100)").
Proof.
  exact (proj2 (X3_parseYrcToLines_line_by_line (str "[0,500]la(0,500)")
                  (str "[900,100]li(900,100)"))
               (str "[oops]") (str "invalid YRC line format: [oops]")
               eq_refl eq_refl).
Defined.

(** X4.  The merged-LRC writer works line by line: with a translation
    text that is not blank, merging two original texts joined by a
    newline gives the merge of the first followed by the merge of the
    second. *)
Theorem X4_mergeLrcWithTranslation_line_by_line
    (sort_Slice : (MetaLine.t -> MetaLine.t -> bool) ->
                  list MetaLine.t -> list MetaLine.t)
    (before after transLrc : gostring) :
  TrimSpace transLrc <> [] ->
  mergeLrcWithTranslation sort_Slice (before ++ [newline] ++ after) transLrc
  = mergeLrcWithTranslation sort_Slice before transLrc ++
    mergeLrcWithTranslation sort_Slice after transLrc.
Proof.
  intros Hne. unfold mergeLrcWithTranslation.
  destruct (TrimSpace transLrc); [congruence|]. cbn [isEmpty app].
  rewrite Split_app, fold_left_app.
  rewrite (mergeLrcWithTranslation_loop _ (Split after newline)).
  rewrite (mergeLrcWithTranslation_loop _ (Split after newline) []).
  reflexivity.
Qed.

Lemma X4_mergeLrcWithTranslation_line_by_line_witness :
  mergeLrcWithTranslation go_sort_Slice
    (str "[00:01.00]Hello" ++ [newline] ++ str "[00:09.00]World")
    (str "[00:01.00]Bonjour")
  = mergeLrcWithTranslation go_sort_Slice (str "[00:01.00]Hello")
      (str "[00:01.00]Bonjour") ++
    mergeLrcWithTranslation go_sort_Slice (str "[00:09.00]World")
      (str "[00:01.00]Bonjour").
Proof.
  exact (X4_mergeLrcWithTranslation_line_by_line go_sort_Slice
           (str "[00:01.00]Hello") (str "[00:09.00]World")
           (str "[00:01.00]Bonjour") ltac:(discriminate)).
Defined.

(** ** The metadata map *)

Lemma map_lookup_set_same (meta : list (gostring * gostring)) (key value : gostring) :
  map_lookup (map_set meta key value) key = Some value.
Proof.
  induction meta as [|[k v] meta IH]; simpl.
  - now rewrite gostring_eqb_refl.
  - destruct (gostring_eqb k key) eqn:E; simpl.
    + now rewrite gostring_eqb_refl.
    + now rewrite E.
Qed.

Lemma map_lookup_set_other (meta : list (gostring * gostring))
    (key value other : gostring) :
  other <> key ->
  map_lookup (map_set meta key value) other = map_lookup meta other.
Proof.
  intros Hne. induction meta as [|[k v] meta IH]; simpl.
  - destruct (gostring_eqb key other) eqn:E; [|reflexivity].
    apply gostring_eqb_eq in E. congruence.
  - destruct (gostring_eqb k key) eqn:E; simpl.
    + apply gostring_eqb_eq in E. subst k.
      destruct (gostring_eqb key other) eqn:E2; [|reflexivity].
      apply gostring_eqb_eq in E2. congruence.
    + now rewrite IH.
Qed.

Lemma map_set_keys (meta : list (gostring * gostring)) (key value k : gostring) :
  In k (map fst (map_set meta key value)) <-> k = key \/ In k (map fst meta).
Proof.
  induction meta as [|[k0 v0] meta IH]; simpl.
  - intuition.
  - destruct (gostring_eqb k0 key) eqn:E; simpl.
    + apply gostring_eqb_eq in E. subst k0. intuition.
    + rewrite IH. intuition.
Qed.

Lemma map_set_NoDup (meta : list (gostring * gostring)) (key value : gostring) :
  NoDup (map fst meta) -> NoDup (map fst (map_set meta key value)).
Proof.
  induction meta as [|[k0 v0] meta IH]; simpl; intros H.
  - constructor; [intros [] | constructor].
  - inversion_clear H as [|? ? Hnin Hnd].
    destruct (gostring_eqb k0 key) eqn:E; simpl.
    + apply gostring_eqb_eq in E. subst k0. now constructor.
    + constructor; [|now apply IH].
      rewrite map_set_keys. intros [-> | Hin]; [|contradiction].
      now rewrite gostring_eqb_refl in E.
Qed.

Lemma metaRe_Some (line key value : gostring) :
  metaRe line = Some (key, value) ->
  In key metaKeys /\ TrimSpace key = key /\ noNewline line = true.
Proof.
  intros H. unfold metaRe in H.
  apply bind_Some in H. destruct H as (s1 & H1 & H).
  apply bind_Some in H. destruct H as (k & Hk & H).
  apply lit_Some in H1. subst line.
  apply find_some in Hk. destruct Hk as [Hin Hp].
  destruct (HasSuffix _ _ && noNewline _) eqn:E; [|discriminate].
  inversion H; subst k value. apply andb_true_iff in E. destruct E as [_ Hn].
  apply HasPrefix_app in Hp. destruct Hp as [rest ->].
  clear H. split; [exact Hin|].
  unfold metaKeys in Hin. simpl in Hin.
  repeat (destruct Hin as [<- | Hin]); try contradiction;
    (split; [reflexivity|]); cbn in Hn; cbn; exact Hn.
Qed.

(** The body of the loop of [parseLrcMeta]. *)
Lemma parseLrcMeta_app_line (before line : gostring) :
  noNewline line = true ->
  parseLrcMeta (before ++ [newline] ++ line)
  = match metaRe line with
    | Some (m1, m2) => map_set (parseLrcMeta before) (TrimSpace m1) (TrimSpace m2)
    | None => parseLrcMeta before
    end.
Proof.
  intros Hn. unfold parseLrcMeta. cbn [app].
  rewrite Split_app, fold_left_app, (Split_noNewline line Hn). reflexivity.
Qed.

Lemma parseLrcMeta_keys (lines : list gostring)
    (meta : list (gostring * gostring)) :
  NoDup (map fst meta) /\ (forall k, In k (map fst meta) -> In k metaKeys) ->
  let result :=
    fold_left (fun meta line =>
                 match metaRe line with
                 | Some (m1, m2) => map_set meta (TrimSpace m1) (TrimSpace m2)
                 | None => meta
                 end) lines meta in
  NoDup (map fst result) /\ (forall k, In k (map fst result) -> In k metaKeys).
Proof.
  revert meta. induction lines as [|line lines IH]; intros meta [Hnd Hk]; simpl.
  - auto.
  - apply IH. destruct (metaRe line) as [[m1 m2]|] eqn:E; [|auto].
    destruct (metaRe_Some _ _ _ E) as (Hin & Ht & _). rewrite Ht. split.
    + now apply map_set_NoDup.
    + intros k Hkin. apply map_set_keys in Hkin.
      destruct Hkin as [-> | Hkin]; auto.
Qed.

(** X5.  The metadata map holds each key once, and only the eight tags
    of the metadata pattern; the last line wins: after a text followed
    by one more line that the metadata pattern matches, the key of that
    line maps to its trimmed value and every other key maps to what it
    mapped to before; a further line the pattern does not match changes
    nothing. *)
Theorem X5_parseLrcMeta_last_wins (lrcContent : gostring) :
  NoDup (map fst (parseLrcMeta lrcContent)) /\
  (forall key, In key (map fst (parseLrcMeta lrcContent)) -> In key metaKeys) /\
  (forall line key value,
     metaRe line = Some (key, value) ->
     map_lookup (parseLrcMeta (lrcContent ++ [newline] ++ line)) key
     = Some (TrimSpace value) /\
     (forall other,
        other <> key ->
        map_lookup (parseLrcMeta (lrcContent ++ [newline] ++ line)) other
        = map_lookup (parseLrcMeta lrcContent) other)) /\
  (forall line,
     noNewline line = true -> metaRe line = None ->
     parseLrcMeta (lrcContent ++ [newline] ++ line) = parseLrcMeta lrcContent).
Proof.
  pose proof (parseLrcMeta_keys (Split lrcContent newline) []) as K.
  destruct K as [Hnd Hk]; [split; [constructor | intros k []]|].
  split; [exact Hnd|]. split; [exact Hk|]. split.
  - intros line key value Hre.
    destruct (metaRe_Some _ _ _ Hre) as (_ & Ht & Hn).
    rewrite (parseLrcMeta_app_line _ _ Hn), Hre, Ht. split.
    + apply map_lookup_set_same.
    + intros other Hne. now apply map_lookup_set_other.
  - intros line Hn Hre. now rewrite (parseLrcMeta_app_line _ _ Hn), Hre.
Qed.

Lemma X5_parseLrcMeta_last_wins_witness :
  map_lookup (parseLrcMeta (str "[ti:First]" ++ [newline] ++ str "[ti: Second ]"))
             (str "ti")
  = Some (str "Second").
Proof.
  exact (proj1 (proj1 (proj2 (proj2 (X5_parseLrcMeta_last_wins (str "[ti:First]"))))
                  (str "[ti: Second ]") (str "ti") (str " Second ") eq_refl)).
Defined.


(** ** Ties in translation matching *)

Lemma findClosestLine_keep (time : Z) (after : list MetaLine.t)
    (i minDiff bestIndex : Z) :
  Forall (fun x => timeRange (MetaLine.Time x) /\
                   minDiff <= Z.abs (MetaLine.Time x - time)) after ->
  timeRange time ->
  fold_left (findClosestLine_step time) after (i, minDiff, bestIndex)
  = (i + Z.of_nat (length after), minDiff, bestIndex).
Proof.
  intros Hafter Ht. revert i.
  induction Hafter as [|x after [Hx Hd] _ IH]; intros i; cbn [fold_left length].
  - now rewrite Z.add_0_r.
  - assert (E : findClosestLine_step time (i, minDiff, bestIndex) x
                = (i + 1, minDiff, bestIndex)).
    { unfold findClosestLine_step. rewrite (abs_sub_time _ _ Hx Ht).
      destruct (Z.ltb_spec (Z.abs (MetaLine.Time x - time)) minDiff);
        [lia | reflexivity]. }
    rewrite E, IH. f_equal. f_equal. lia.
Qed.

(** X6.  Among the entries at the least distance from the query time,
    translation matching returns the first one in the order of the
    sequence: when an entry is less than 500 ms away, strictly closer
    than every entry before it and at least as close as every entry
    after it, its text is the result. *)
Theorem X6_findClosestLine_first_of_ties (time : Z)
    (before after : list MetaLine.t) (entry : MetaLine.t) :
  timeRange time ->
  Forall (fun x => timeRange (MetaLine.Time x)) (before ++ entry :: after) ->
  Z.abs (MetaLine.Time entry - time) < 500 ->
  Forall (fun x => Z.abs (MetaLine.Time entry - time)
                   < Z.abs (MetaLine.Time x - time)) before ->
  Forall (fun x => Z.abs (MetaLine.Time entry - time)
                   <= Z.abs (MetaLine.Time x - time)) after ->
  findClosestLine time (before ++ entry :: after) = MetaLine.Content entry.
Proof.
  intros Ht Hrange Hnear Hbefore Hafter.
  apply Forall_app in Hrange. destruct Hrange as [Rb Rea].
  inversion_clear Rea as [|? ? Re Ra].
  pose proof (findClosestLine_loop time before Ht Rb) as Inv.
  unfold findClosestLine. rewrite fold_left_app.
  destruct (fold_left (findClosestLine_step time) before (0, 500, -1))
    as [[i minDiff] bestIndex].
  destruct Inv as [Hi Inv].
  set (d := Z.abs (MetaLine.Time entry - time)) in *.
  assert (Hlt : d < minDiff).
  { destruct Inv as [(_ & -> & _) | (Hb & _ & Hn & _)]; [lia|].
    rewrite Forall_forall in Hbefore. rewrite <- Hn. apply Hbefore.
    apply nth_In. lia. }
  cbn [fold_left].
  assert (E : findClosestLine_step time (i, minDiff, bestIndex) entry
              = (i + 1, d, i)).
  { unfold findClosestLine_step. rewrite (abs_sub_time _ _ Re Ht). fold d.
    destruct (Z.ltb_spec d minDiff); [reflexivity | lia]. }
  rewrite E.
  rewrite findClosestLine_keep; [|
    apply Forall_forall; intros x Hx; rewrite Forall_forall in Ra, Hafter;
    split; [now apply Ra | now apply Hafter] | assumption].
  destruct (Z.eqb_spec i (-1)); [lia|]. cbn [negb].
  rewrite Hi, Nat2Z.id, app_nth2, Nat.sub_diag by lia. reflexivity.
Qed.

Lemma X6_findClosestLine_first_of_ties_witness :
  findClosestLine 1000
    ([MetaLine.mk 700 (str "far")] ++
     MetaLine.mk 900 (str "first") :: [MetaLine.mk 1100 (str "second")])
  = str "first".
Proof.
  refine (X6_findClosestLine_first_of_ties 1000 [MetaLine.mk 700 (str "far")]
            [MetaLine.mk 1100 (str "second")] (MetaLine.mk 900 (str "first"))
            _ _ _ _ _).
  - unfold timeRange, GoInt.maxInt. lia.
  - repeat constructor; simpl; unfold GoInt.maxInt; lia.
  - simpl. lia.
  - repeat constructor; simpl; try lia.
  - repeat constructor; simpl; try lia.
Defined.

(** ** Duration estimator *)

Lemma maxEndTime_loop (lines : list LineInfo.t) (start : Z) :
  let result :=
    fold_left (fun maxEndTime line =>
                 if maxEndTime <? contentEndTime line
                 then contentEndTime line else maxEndTime)
              lines start in
  start <= result /\
  Forall (fun line => contentEndTime line <= result) lines /\
  (result = start \/ Exists (fun line => contentEndTime line = result) lines).
Proof.
  revert start. induction lines as [|l lines IH]; intros start; simpl.
  - repeat split; [lia | constructor | now left].
  - destruct (Z.ltb_spec start (contentEndTime l)) as [Hlt | Hge].
    + destruct (IH (contentEndTime l)) as (H1 & H2 & H3).
      repeat split; [lia | constructor; [lia | assumption] |].
      right. destruct H3 as [-> | H3];
        [apply Exists_cons_hd; reflexivity | now apply Exists_cons_tl].
    + destruct (IH start) as (H1 & H2 & H3).
      repeat split; [lia | constructor; [lia | assumption] |].
      destruct H3 as [-> | H3]; [now left | right; now apply Exists_cons_tl].
Qed.

(** X7.  The duration estimator returns 0 for no line at all; for at
    least one line, when the effective end of every line (the start
    plus the duration of its last word, or the end of the line when it
    has no word) is an [int], it returns 1000 ms more than the largest
    effective end of the lines, or 1000 when no effective end is above
    0: the estimate is beyond the effective end of every line. *)
Theorem X7_calculateSongDuration_covers (lines : list LineInfo.t) :
  calculateSongDuration [] = 0 /\
  (lines <> [] ->
   Forall (fun line => GoInt.inRange (effectiveEnd line)) lines ->
   exists maxEndTime,
     calculateSongDuration lines = GoInt.add maxEndTime 1000 /\
     0 <= maxEndTime /\
     Forall (fun line => effectiveEnd line <= maxEndTime) lines /\
     (maxEndTime = 0 \/
      Exists (fun line => effectiveEnd line = maxEndTime) lines) /\
     (maxEndTime + 1000 <= GoInt.maxInt ->
      Forall (fun line => effectiveEnd line < calculateSongDuration lines)
             lines)).
Proof.
  split; [reflexivity|]. intros Hne Hint.
  pose proof (maxEndTime_loop lines 0) as (H1 & H2 & H3).
  assert (Hends : forall line, In line lines ->
                    contentEndTime line = effectiveEnd line).
  { rewrite Forall_forall in Hint. intros line Hin.
    now apply contentEndTime_effectiveEnd, Hint. }
  assert (H2' : Forall (fun line =>
                          effectiveEnd line
                          <= fold_left (fun maxEndTime line =>
                                          if maxEndTime <? contentEndTime line
                                          then contentEndTime line
                                          else maxEndTime) lines 0) lines).
  { rewrite Forall_forall in *. intros line Hin.
    rewrite <- (Hends line Hin). now apply H2. }
  unfold calculateSongDuration. destruct lines as [|l ls]; [congruence|].
  cbn [isEmpty]. eexists. split; [reflexivity|].
  split; [assumption|]. split; [exact H2'|]. split.
  - destruct H3 as [H3 | H3]; [now left | right].
    apply Exists_exists in H3. destruct H3 as (line & Hin & Hline).
    apply Exists_exists. exists line. split; [assumption|].
    now rewrite <- (Hends line Hin).
  - intros Hsmall. unfold GoInt.add.
    rewrite wrap_inRange
      by (unfold GoInt.inRange, GoInt.minInt, GoInt.maxInt in *; lia).
    eapply Forall_impl; [|exact H2']. simpl. intros; lia.
Qed.

Lemma X7_calculateSongDuration_covers_witness :
  exists maxEndTime,
    calculateSongDuration [sungLine 0 1000; sungLine 3900 1000] = 5900 /\
    calculateSongDuration [sungLine 0 1000; sungLine 3900 1000]
    = GoInt.add maxEndTime 1000 /\
    Forall (fun line => effectiveEnd line <= maxEndTime)
           [sungLine 0 1000; sungLine 3900 1000].
Proof.
  destruct (proj2 (X7_calculateSongDuration_covers
                     [sungLine 0 1000; sungLine 3900 1000]))
    as (m & H1 & H2 & H3 & _).
  - discriminate.
  - repeat constructor; unfold GoInt.minInt, GoInt.maxInt; cbn; lia.
  - exists m. split; [reflexivity | auto].
Defined.

(** ** What the parsers return *)

Section TimelineEntries.

Variable sort_Slice :
  (MetaLine.t -> MetaLine.t -> bool) -> list MetaLine.t -> list MetaLine.t.

Hypothesis sort_Slice_rearranges :
  forall x, Permutation (sort_Slice lessTime x) x.

(** X8.  Every entry the LRC timeline parser returns has a text that is
    not empty, is not the bare separator and contains neither
    watermark, and a time between 0 and 6039999 ms (99 minutes,
    99 seconds and 999 ms), whatever the order [sort.Slice] leaves. *)
Theorem X8_parseLrcTimedLines_entries (lrcContent : gostring) :
  Forall (fun entry =>
            MetaLine.Content entry <> [] /\
            MetaLine.Content entry <> str "//" /\
            Contains (MetaLine.Content entry) (str "QQ音乐") = false /\
            Contains (MetaLine.Content entry) (str "制作") = false /\
            0 <= MetaLine.Time entry <= 6039999)
         (parseLrcTimedLines sort_Slice lrcContent).
Proof.
  unfold parseLrcTimedLines.
  destruct (isEmpty (TrimSpace lrcContent)); [constructor|].
  rewrite parseLrcTimedLines_loop. cbn [app].
  eapply Permutation_Forall; [symmetry; apply sort_Slice_rearranges|].
  apply Forall_forall. intros entry Hin. apply in_flat_map in Hin.
  destruct Hin as (line & _ & Hin). unfold retainedEntry in Hin.
  destruct (lrcTimeRe (TrimSpace line)) as [[[[mm ss] frac] text]|] eqn:E;
    [|contradiction].
  cbv zeta in Hin. unfold watermarks in Hin. cbn [existsb] in Hin.
  rewrite orb_false_r in Hin.
  destruct (isEmpty (TrimSpace text)) eqn:E1; [contradiction|].
  destruct (gostring_eqb (TrimSpace text) (str "//")) eqn:E2; [contradiction|].
  destruct (Contains (TrimSpace text) (str "QQ音乐")) eqn:E3; [contradiction|].
  destruct (Contains (TrimSpace text) (str "制作")) eqn:E4; [contradiction|].
  destruct Hin as [<- | []]. cbn [MetaLine.Content MetaLine.Time].
  repeat split; try assumption.
  - intros H. now rewrite H in E1.
  - now apply gostring_eqb_neq.
  - apply lrcTimeRe_inv in E.
    destruct E as (_ & Lm & Ls & Lf & Dm & Ds & Df & _).
    destruct (lrcTotalMs_digits mm ss frac Lm Ls Lf Dm Ds Df)
      as (m & s & f & Bm & Bs & Bf & Bf2 & ->).
    destruct (Nat.eqb_spec (length frac) 2); lia.
  - apply lrcTimeRe_inv in E.
    destruct E as (_ & Lm & Ls & Lf & Dm & Ds & Df & _).
    destruct (lrcTotalMs_digits mm ss frac Lm Ls Lf Dm Ds Df)
      as (m & s & f & Bm & Bs & Bf & Bf2 & ->).
    destruct (Nat.eqb_spec (length frac) 2) as [L2 | L2];
      [specialize (Bf2 L2)|]; lia.
Qed.

End TimelineEntries.

Lemma X8_parseLrcTimedLines_entries_witness :
  Forall (fun entry =>
            MetaLine.Content entry <> [] /\
            MetaLine.Content entry <> str "//" /\
            Contains (MetaLine.Content entry) (str "QQ音乐") = false /\
            Contains (MetaLine.Content entry) (str "制作") = false /\
            0 <= MetaLine.Time entry <= 6039999)
         (parseLrcTimedLines insertionSort
            (str "[00:02.50]two" ++ [newline] ++ str "[00:01.00]//")).
Proof.
  exact (X8_parseLrcTimedLines_entries insertionSort
           (insertionSort_permutation lessTime)
           (str "[00:02.50]two" ++ [newline] ++ str "[00:01.00]//")).
Defined.

Lemma correctedWord_range (m : gostring * gostring * gostring) :
  timedMatch m ->
  timeRange (WordInfo.StartTime (correctedWord m)) /\
  1 <= WordInfo.Duration (correctedWord m) <= GoInt.maxInt.
Proof.
  destruct m as [[text start] dur]. intros [[Hs Ds] [Hd Dd]]. simpl.
  pose proof (Atoi_timeRange start Hs Ds).
  pose proof (Atoi_timeRange dur Hd Dd) as R. unfold timeRange in R.
  split; [assumption|].
  destruct (Z.eqb_spec (Atoi dur) 0); unfold GoInt.maxInt in *; lia.
Qed.

(** The sum of two times, as Go computes it: an [int] that is either
    at least the first time or, when the sum wraps, at most -2. *)
Lemma add_times (a b : Z) :
  timeRange a -> timeRange b ->
  GoInt.inRange (GoInt.add a b) /\
  (a <= GoInt.add a b <= GoInt.maxInt \/
   GoInt.minInt <= GoInt.add a b <= -2 /\ GoInt.maxInt < a + b).
Proof.
  intros Ha Hb. split; [apply wrap_range|].
  unfold timeRange, GoInt.add, GoInt.maxInt, GoInt.minInt in *.
  destruct (Z.le_gt_cases (a + b) 9223372036854775807) as [Hs | Hs].
  - left. rewrite wrap_inRange
      by (unfold GoInt.inRange, GoInt.minInt, GoInt.maxInt; lia).
    lia.
  - right. unfold GoInt.wrap.
    rewrite <- (Z.mod_unique (a + b + 9223372036854775808)
                  18446744073709551616 1
                  (a + b + 9223372036854775808 - 18446744073709551616));
      lia.
Qed.

(** X9.  Of every line the YRC parser returns, the start and the start
    of each word are non-negative [int]s and each word lasts between
    1 ms and the largest [int]: these are the times the matchers are
    run on.  The end of the line is not such a time in general: it is
    the wrapped sum of the two numbers of the header, at least the start
    when the sum is an [int] and negative, at most -2, when it is not. *)
Theorem X9_parseYrcToLines_times (yrcContent : gostring) :
  Forall (fun lineInfo =>
            timeRange (LineInfo.StartTime lineInfo) /\
            (LineInfo.StartTime lineInfo <= LineInfo.EndTime lineInfo
               <= GoInt.maxInt \/
             GoInt.minInt <= LineInfo.EndTime lineInfo <= -2) /\
            Forall (fun w => timeRange (WordInfo.StartTime w) /\
                             1 <= WordInfo.Duration w <= GoInt.maxInt)
                   (LineInfo.Words lineInfo))
         (parseYrcToLines yrcContent) /\
  map LineInfo.EndTime
      (parseYrcToLines (str "[9223372036854775807,1]a(9223372036854775807,1)"))
  = [GoInt.minInt].
Proof.
  split; [|reflexivity].
  unfold parseYrcToLines. apply parseYrcToLines_loop; [|constructor].
  intros line li Hli _.
  destruct (yrcLineRe line) as [[[m1 m2] content]|] eqn:E.
  - destruct (parseYrcLine_words _ _ _ _ E) as (li' & Hli' & Hs & He & Hw).
    rewrite Hli in Hli'. inversion Hli'; subst li'. rewrite Hs, He, Hw.
    apply yrcLineRe_Some in E. destruct E as (_ & [Hne1 Hd1] & [Hne2 Hd2] & _).
    pose proof (Atoi_timeRange m1 Hne1 Hd1) as R1.
    pose proof (Atoi_timeRange m2 Hne2 Hd2) as R2.
    split; [assumption|]. split.
    { destruct (add_times _ _ R1 R2) as [_ [Hin | [Hout _]]];
        [left | right]; assumption. }
    cbv zeta.
    destruct (isEmpty _ && negb (isEmpty content)).
    + constructor; [|constructor]. unfold wholeLineWord. simpl.
      split; [assumption|]. unfold timeRange, GoInt.maxInt in *. lia.
    + apply Forall_forall. intros w Hin. apply in_map_iff in Hin.
      destruct Hin as (m & <- & Hm). apply filter_In in Hm.
      apply correctedWord_range.
      pose proof (wordInfoRe_FindAll_timed content) as T.
      rewrite Forall_forall in T. apply T. tauto.
  - unfold parseYrcLine in Hli. rewrite E in Hli. discriminate.
Qed.


(** ** The HTTP handler *)

Lemma buildResponse_titles
    (sort_Slice : (MetaLine.t -> MetaLine.t -> bool) ->
                  list MetaLine.t -> list MetaLine.t)
    (map_range : list (gostring * gostring) -> list (gostring * gostring))
    (song singer album : gostring) (data : LyricData.t) :
  let out := UnifiedLyricResponse.Data
               (buildResponse sort_Slice map_range song singer album data) in
  UnifiedLyricResponse.Song out = song /\
  UnifiedLyricResponse.Singer out = singer /\
  UnifiedLyricResponse.Album out = album /\
  UnifiedLyricResponse.LRC out
  = mergeLrcWithTranslation sort_Slice (LyricData.Lrc (LyricData.Data data))
      (LyricData.Trans (LyricData.Data data)).
Proof.
  unfold buildResponse.
  destruct (negb (isEmpty (LyricData.Yrc (LyricData.Data data))));
    repeat split.
Qed.

Lemma Atoi_inRange (s : gostring) : GoInt.inRange (Atoi s).
Proof.
  assert (K : forall (negative : bool) (un : Z),
             0 <= un ->
             GoInt.inRange
               (if negb negative && (9223372036854775808 <=? un)
                then GoInt.maxInt
                else if negative && (9223372036854775808 <? un)
                     then GoInt.minInt
                     else if negative then - un else un)).
  { intros negative un Hun. unfold GoInt.inRange, GoInt.minInt, GoInt.maxInt.
    destruct negative; cbn [negb andb].
    - destruct (Z.ltb_spec 9223372036854775808 un); lia.
    - destruct (Z.leb_spec 9223372036854775808 un); lia. }
  assert (Z0 : GoInt.inRange 0)
    by (unfold GoInt.inRange, GoInt.minInt, GoInt.maxInt; lia).
  assert (P : forall (negative : bool) (body : gostring),
             GoInt.inRange
               (match ParseUint body with
                | errSyntax => 0
                | errRange =>
                    if negb negative && (9223372036854775808 <=? maxUint64)
                    then GoInt.maxInt
                    else if negative && (9223372036854775808 <? maxUint64)
                         then GoInt.minInt
                         else if negative then - maxUint64 else maxUint64
                | parsedOk un =>
                    if negb negative && (9223372036854775808 <=? un)
                    then GoInt.maxInt
                    else if negative && (9223372036854775808 <? un)
                         then GoInt.minInt
                         else if negative then - un else un
                end)).
  { intros negative body. unfold ParseUint.
    destruct (isEmpty body); [exact Z0|].
    destruct (ParseUint_loop body 0) as [un| |] eqn:E.
    - apply K. destruct (ParseUint_loop_nonneg body 0 un ltac:(lia) E); lia.
    - exact Z0.
    - apply K. unfold maxUint64. lia. }
  unfold Atoi. destruct s as [|c s']; [apply (P false [])|].
  destruct (Ascii.eqb c "+"); [apply (P false s')|].
  destruct (Ascii.eqb c "-"); [apply (P true s') | apply (P false (c :: s'))].
Qed.

Section HandlerProperties.

Variable sort_Slice :
  (MetaLine.t -> MetaLine.t -> bool) -> list MetaLine.t -> list MetaLine.t.
Variable map_range : list (gostring * gostring) -> list (gostring * gostring).
Variable http_Get : gostring -> result HttpResponse.t.
Variable json_Unmarshal_search : gostring -> result RawSearchResult.t.
Variable json_Unmarshal_lyric : gostring -> result LyricData.t.

Local Abbreviation searchSongs' := (searchSongs http_Get json_Unmarshal_search).
Local Abbreviation fetchLyricData' := (fetchLyricData http_Get json_Unmarshal_lyric).
Local Abbreviation lyricHandler' :=
  (lyricHandler sort_Slice map_range http_Get json_Unmarshal_search
                json_Unmarshal_lyric).
Local Abbreviation Handler' :=
  (Handler sort_Slice map_range http_Get json_Unmarshal_search
           json_Unmarshal_lyric).

Lemma searchSongs_loop (data : list SearchSongItemRaw.t)
    (simplifiedSongs : list SearchSongItemSimplified.t) (i : Z) :
  fst (fold_left searchSongs_step data (simplifiedSongs, i))
  = simplifiedSongs ++ numberedFrom i data.
Proof.
  revert simplifiedSongs i.
  induction data as [|item data IH]; intros acc i; simpl.
  - now rewrite app_nil_r.
  - rewrite IH, <- app_assoc. reflexivity.
Qed.

Lemma numberedFrom_nth (data : list SearchSongItemRaw.t) (start : Z) (k : nat) :
  (k < length data)%nat ->
  length (numberedFrom start data) = length data /\
  exists item,
    nth_error data k = Some item /\
    nth k (numberedFrom start data) zeroSong
    = SearchSongItemSimplified.mk (start + Z.of_nat k + 1)
        (SearchSongItemRaw.Song item) (SearchSongItemRaw.Singer item)
        (SearchSongItemRaw.ID item) (SearchSongItemRaw.MID item)
        (SearchSongItemRaw.Album item).
Proof.
  revert start k. induction data as [|item data IH]; intros start k Hk;
    simpl in Hk; [lia|].
  destruct k as [|k].
  - split.
    + simpl. f_equal.
      destruct data as [|d ds]; [reflexivity|].
      exact (proj1 (IH (start + 1) 0%nat ltac:(simpl; lia))).
    + exists item. split; [reflexivity|]. simpl. do 2 f_equal. lia.
  - destruct (IH (start + 1) k ltac:(lia)) as (Hlen & it & Hit & Hn). split.
    + simpl. now rewrite Hlen.
    + exists it. split; [exact Hit|]. simpl. rewrite Hn. do 2 f_equal. lia.
Qed.

(** What a successful search went through. *)
Lemma searchSongs_Ok (word : gostring) (num : Z)
    (songs : list SearchSongItemSimplified.t) :
  fst (searchSongs' word num) = Ok songs ->
  exists resp body rawResult,
    http_Get (UPSTREAM_API_BASE ++ str "?word=" ++ QueryEscape word ++
              str "&num=" ++ formatInt 0 num) = Ok resp /\
    HttpResponse.StatusCode resp = 200 /\
    HttpResponse.Body resp = Ok body /\
    json_Unmarshal_search body = Ok rawResult /\
    RawSearchResult.Code rawResult = 200 /\
    songs = numberedFrom 0 (RawSearchResult.Data rawResult).
Proof.
  unfold searchSongs. cbn [fst].
  destruct (http_Get _) as [resp|] eqn:Eg; [|discriminate].
  destruct (HttpResponse.Body resp) as [body|] eqn:Eb; [|discriminate].
  destruct (Z.eqb_spec (HttpResponse.StatusCode resp) 200) as [Es|];
    [|discriminate].
  cbn [negb].
  destruct (json_Unmarshal_search body) as [raw|] eqn:Ej; [|discriminate].
  destruct (Z.eqb_spec (RawSearchResult.Code raw) 200) as [Ec|];
    [|discriminate].
  cbn [negb]. intros H. inversion H. rewrite searchSongs_loop.
  exists resp, body, raw. auto 10.
Qed.

(** X10.  The songs of a successful search are the songs of the
    upstream answer in their order, numbered 1, 2, 3, ...: the song at
    index [k] has [N = k + 1] and the fields of the [k]-th upstream
    item; a search succeeds only on an answer with HTTP status 200, a
    body that decodes, and code 200 in it. *)
Theorem X10_searchSongs_numbers (word : gostring) (num : Z)
    (songs : list SearchSongItemSimplified.t) :
  fst (searchSongs' word num) = Ok songs ->
  exists resp body rawResult,
    http_Get (UPSTREAM_API_BASE ++ str "?word=" ++ QueryEscape word ++
              str "&num=" ++ formatInt 0 num) = Ok resp /\
    HttpResponse.StatusCode resp = 200 /\
    HttpResponse.Body resp = Ok body /\
    json_Unmarshal_search body = Ok rawResult /\
    RawSearchResult.Code rawResult = 200 /\
    length songs = length (RawSearchResult.Data rawResult) /\
    forall k,
      (k < length songs)%nat ->
      exists item,
        nth_error (RawSearchResult.Data rawResult) k = Some item /\
        nth k songs zeroSong
        = SearchSongItemSimplified.mk (Z.of_nat k + 1)
            (SearchSongItemRaw.Song item) (SearchSongItemRaw.Singer item)
            (SearchSongItemRaw.ID item) (SearchSongItemRaw.MID item)
            (SearchSongItemRaw.Album item).
Proof.
  intros H. destruct (searchSongs_Ok _ _ _ H)
    as (resp & body & raw & Hg & Hs & Hb & Hj & Hc & ->).
  exists resp, body, raw. repeat (split; [assumption|]).
  destruct (RawSearchResult.Data raw) as [|d ds] eqn:Ed.
  - split; [reflexivity|]. simpl. intros k Hk. lia.
  - destruct (numberedFrom_nth (d :: ds) 0 0%nat ltac:(simpl; lia)) as [Hlen _].
    split; [exact Hlen|]. intros k Hk. rewrite Hlen in Hk.
    destruct (numberedFrom_nth (d :: ds) 0 k Hk) as (_ & item & Hit & Hn).
    exists item. split; [exact Hit|]. rewrite Hn. reflexivity.
Qed.

(** X11.  With a search word and a search that succeeds, a parameter
    [n] that [strconv.Atoi] reads as 0 or less (a negative number, zero,
    a missing [n], or text on which it reports a syntax error) gets the
    list of songs with status 200, and an [n] it reads as more than the
    number of songs (also digits beyond the largest [int], read as that
    bound whatever follows them) gets status 404; in both cases the
    only upstream request is the search, for ten results: no lyric is
    fetched. *)
Theorem X11_lyricHandler_listing (r : Request.t)
    (songs : list SearchSongItemSimplified.t) :
  Request.word r <> [] ->
  fst (searchSongs' (Request.word r) 10) = Ok songs ->
  (Atoi (Request.n r) <= 0 ->
   lyricHandler' r
   = (ReplySearch 200
        (SearchResponse.mk 200
           (str "请求成功，请通过 n 参数选择歌曲获取歌词") songs),
      [searchURL10 (Request.word r)])) /\
  (Z.of_nat (length songs) < Atoi (Request.n r) ->
   exists details,
     lyricHandler' r
     = (ReplyError 404 (ErrorResponse.mk 404 (str "歌曲索引超出范围") details),
        [searchURL10 (Request.word r)])).
Proof.
  intros Hw Hs. unfold lyricHandler.
  destruct (Request.word r) as [|c w] eqn:Ew; [congruence|]. cbn [isEmpty negb].
  destruct (searchSongs' (c :: w) 10) as [found requested] eqn:Es.
  assert (Hreq : requested = [searchURL10 (c :: w)]).
  { unfold searchSongs in Es. inversion Es. reflexivity. }
  cbn [fst] in Hs. subst found requested. split.
  - intros Hn. destruct (Z.leb_spec (Atoi (Request.n r)) 0); [reflexivity | lia].
  - intros Hn. destruct (Z.leb_spec (Atoi (Request.n r)) 0); [lia|].
    destruct (Z.ltb_spec (Z.of_nat (length songs)) (Atoi (Request.n r))); [|lia].
    eexists. reflexivity.
Qed.

(** X12.  With a search word, a search that succeeds and a number [n]
    between 1 and the number of songs, the song taken is the one the
    list numbers [n]: the lyric is requested by the MID of that song
    right after the search, and a lyric reply carries its title, singer
    and album. *)
Theorem X12_lyricHandler_selects_numbered_song (r : Request.t)
    (songs : list SearchSongItemSimplified.t) :
  Request.word r <> [] ->
  fst (searchSongs' (Request.word r) 10) = Ok songs ->
  0 < Atoi (Request.n r) <= Z.of_nat (length songs) ->
  exists song,
    In song songs /\
    SearchSongItemSimplified.N song = Atoi (Request.n r) /\
    snd (lyricHandler' r)
    = searchURL10 (Request.word r)
      :: snd (fetchLyricData' [] (SearchSongItemSimplified.MID song)) /\
    (forall status resp,
       fst (lyricHandler' r) = ReplyLyric status resp ->
       status = 200 /\
       UnifiedLyricResponse.Song (UnifiedLyricResponse.Data resp)
       = SearchSongItemSimplified.Song song /\
       UnifiedLyricResponse.Singer (UnifiedLyricResponse.Data resp)
       = SearchSongItemSimplified.Singer song /\
       UnifiedLyricResponse.Album (UnifiedLyricResponse.Data resp)
       = SearchSongItemSimplified.Album song).
Proof.
  intros Hw Hs Hn.
  destruct (searchSongs_Ok _ _ _ Hs) as (_ & _ & raw & _ & _ & _ & _ & _ & Hsongs).
  set (n := Atoi (Request.n r)) in *.
  assert (Hsub : GoInt.sub n 1 = n - 1).
  { unfold GoInt.sub. apply wrap_inRange.
    pose proof (Atoi_inRange (Request.n r)) as R. fold n in R.
    unfold GoInt.inRange, GoInt.minInt, GoInt.maxInt in *. lia. }
  assert (Hk : (Z.to_nat (n - 1) < length songs)%nat) by lia.
  set (song := nth (Z.to_nat (n - 1)) songs zeroSong).
  assert (HN : SearchSongItemSimplified.N song = n).
  { unfold song. rewrite Hsongs in *.
    destruct (numberedFrom_nth (RawSearchResult.Data raw) 0 (Z.to_nat (n - 1)))
      as (Hlen & item & _ & Hn').
    - destruct (RawSearchResult.Data raw) as [|d ds] eqn:Ed; [simpl in Hk; lia|].
      rewrite <- (proj1 (numberedFrom_nth (d :: ds) 0 0%nat ltac:(simpl; lia))).
      exact Hk.
    - rewrite Hn'. simpl. lia. }
  exists song. split; [apply nth_In; exact Hk|]. split; [exact HN|].
  unfold lyricHandler.
  destruct (Request.word r) as [|c w] eqn:Ew; [congruence|]. cbn [isEmpty negb].
  destruct (searchSongs' (c :: w) 10) as [found requested] eqn:Es.
  assert (Hreq : requested = [searchURL10 (c :: w)]).
  { unfold searchSongs in Es. inversion Es. reflexivity. }
  cbn [fst] in Hs. subst found requested. fold n.
  destruct (Z.leb_spec n 0); [lia|].
  destruct (Z.ltb_spec (Z.of_nat (length songs)) n); [lia|].
  rewrite Hsub. fold song.
  destruct (fetchLyricData' [] (SearchSongItemSimplified.MID song))
    as [fetched requested2].
  destruct fetched as [[data rawJSON]|err].
  - destruct (negb (LyricData.Code data =? 200)); cbn [fst snd app].
    + split; [reflexivity | discriminate].
    + split; [reflexivity|]. intros status resp Hreply. inversion Hreply; subst.
      split; [reflexivity|].
      pose proof (buildResponse_titles sort_Slice map_range
                    (SearchSongItemSimplified.Song song)
                    (SearchSongItemSimplified.Singer song)
                    (SearchSongItemSimplified.Album song) data) as T.
      cbv zeta in T. tauto.
  - cbn [fst snd app]. split; [reflexivity | discriminate].
Qed.

(** What a successful fetch went through. *)
Lemma fetchLyricData_Ok (id mid : gostring) (data : LyricData.t)
    (rawJSON : gostring) :
  fst (fetchLyricData' id mid) = Ok (data, rawJSON) ->
  exists resp,
    snd (fetchLyricData' id mid)
    = [UPSTREAM_LYRIC_API ++
       (if isEmpty id then str "?mid=" ++ mid else str "?id=" ++ id)] /\
    http_Get (UPSTREAM_LYRIC_API ++
              (if isEmpty id then str "?mid=" ++ mid else str "?id=" ++ id))
    = Ok resp /\
    HttpResponse.StatusCode resp = 200 /\
    HttpResponse.Body resp = Ok rawJSON /\
    json_Unmarshal_lyric rawJSON = Ok data.
Proof.
  unfold fetchLyricData.
  assert (K : forall url,
             fst (fetchLyricData_from http_Get json_Unmarshal_lyric url)
             = Ok (data, rawJSON) ->
             exists resp,
               snd (fetchLyricData_from http_Get json_Unmarshal_lyric url) = [url] /\
               http_Get url = Ok resp /\
               HttpResponse.StatusCode resp = 200 /\
               HttpResponse.Body resp = Ok rawJSON /\
               json_Unmarshal_lyric rawJSON = Ok data).
  { intros url. unfold fetchLyricData_from. cbn [fst snd].
    destruct (http_Get url) as [resp|]; [|discriminate].
    destruct (Z.eqb_spec (HttpResponse.StatusCode resp) 200); [|discriminate].
    cbn [negb].
    destruct (HttpResponse.Body resp) as [body|] eqn:Eb; [|discriminate].
    destruct (json_Unmarshal_lyric body) as [d|] eqn:Ej; [|discriminate].
    intros H. inversion H; subst. exists resp. auto 10. }
  destruct id as [|c id]; cbn [isEmpty negb].
  - destruct mid as [|c mid]; cbn [isEmpty negb]; [discriminate|]. apply K.
  - apply K.
Qed.

(** X13.  Without a search word and with an [id] or a [mid], the one
    upstream request is the lyric URL, by [id] when there is one and by
    [mid] otherwise.  When the fetch fails the reply is 502; when the
    upstream answer carries a code other than 200 the reply is status
    424 with the very body the upstream service sent; otherwise the
    reply is 200 and its title, singer and album are the values of the
    tags [ti], [ar] and [al] of the lrc text, empty when the tag is
    missing. *)
Theorem X13_lyricHandler_by_id (r : Request.t) :
  Request.word r = [] ->
  Request.id r <> [] \/ Request.mid r <> [] ->
  snd (lyricHandler' r)
  = [UPSTREAM_LYRIC_API ++
     (if isEmpty (Request.id r) then str "?mid=" ++ Request.mid r
      else str "?id=" ++ Request.id r)] /\
  (forall err,
     fst (fetchLyricData' (Request.id r) (Request.mid r)) = Err err ->
     fst (lyricHandler' r)
     = ReplyError 502 (ErrorResponse.mk 502 (str "获取上游数据失败") err)) /\
  (forall data rawJSON,
     fst (fetchLyricData' (Request.id r) (Request.mid r)) = Ok (data, rawJSON) ->
     (exists resp,
        http_Get (UPSTREAM_LYRIC_API ++
                  (if isEmpty (Request.id r) then str "?mid=" ++ Request.mid r
                   else str "?id=" ++ Request.id r)) = Ok resp /\
        HttpResponse.Body resp = Ok rawJSON) /\
     (LyricData.Code data <> 200 ->
      fst (lyricHandler' r) = ReplyRaw 424 rawJSON) /\
     (LyricData.Code data = 200 ->
      exists resp,
        fst (lyricHandler' r) = ReplyLyric 200 resp /\
        let meta := parseLrcMeta (LyricData.Lrc (LyricData.Data data)) in
        let out := UnifiedLyricResponse.Data resp in
        UnifiedLyricResponse.Song out = map_index meta (str "ti") /\
        UnifiedLyricResponse.Singer out = map_index meta (str "ar") /\
        UnifiedLyricResponse.Album out = map_index meta (str "al"))).
Proof.
  intros Hw Hid. unfold lyricHandler. rewrite Hw. cbn [isEmpty negb].
  assert (Hor : negb (isEmpty (Request.id r)) || negb (isEmpty (Request.mid r))
                = true).
  { destruct (Request.id r); [|reflexivity].
    destruct (Request.mid r); [|reflexivity]. destruct Hid; congruence. }
  rewrite Hor.
  assert (Htrace : snd (fetchLyricData' (Request.id r) (Request.mid r))
                   = [UPSTREAM_LYRIC_API ++
                      (if isEmpty (Request.id r) then str "?mid=" ++ Request.mid r
                       else str "?id=" ++ Request.id r)]).
  { unfold fetchLyricData.
    destruct (Request.id r); cbn [isEmpty negb]; [|reflexivity].
    destruct (Request.mid r); cbn [isEmpty negb]; [|reflexivity].
    destruct Hid; congruence. }
  destruct (fetchLyricData' (Request.id r) (Request.mid r))
    as [fetched requested] eqn:Ef.
  cbn [snd] in Htrace. subst requested. cbn [fst].
  split; [|split].
  - destruct fetched as [[data rawJSON]|err]; [|reflexivity].
    destruct (negb (LyricData.Code data =? 200)); reflexivity.
  - intros err ->. reflexivity.
  - intros data rawJSON ->. split; [|split].
    + pose proof (fetchLyricData_Ok (Request.id r) (Request.mid r) data rawJSON)
        as K.
      rewrite Ef in K. destruct (K eq_refl) as (resp & _ & Hg & _ & Hb & _).
      exists resp. auto.
    + intros Hc. destruct (Z.eqb_spec (LyricData.Code data) 200); [congruence|].
      reflexivity.
    + intros Hc. destruct (Z.eqb_spec (LyricData.Code data) 200); [|congruence].
      cbn [negb fst]. eexists. split; [reflexivity|].
      pose proof (buildResponse_titles sort_Slice map_range
                    (map_index (parseLrcMeta (LyricData.Lrc (LyricData.Data data)))
                               (str "ti"))
                    (map_index (parseLrcMeta (LyricData.Lrc (LyricData.Data data)))
                               (str "ar"))
                    (map_index (parseLrcMeta (LyricData.Lrc (LyricData.Data data)))
                               (str "al")) data) as T.
      cbv zeta in T. cbv zeta. tauto.
Qed.

(** X14.  The handler never serves lyrics it did not get: a lyric reply
    has status 200, and one of the URLs requested upstream was answered
    with HTTP status 200 and a body that decodes to lyric data with
    code 200, of which the reply carries the merged LRC. *)
Theorem X14_lyricHandler_lyrics_come_from_upstream (r : Request.t)
    (status : Z) (resp : UnifiedLyricResponse.t) :
  fst (lyricHandler' r) = ReplyLyric status resp ->
  status = 200 /\
  exists url answer body data,
    In url (snd (lyricHandler' r)) /\
    http_Get url = Ok answer /\
    HttpResponse.StatusCode answer = 200 /\
    HttpResponse.Body answer = Ok body /\
    json_Unmarshal_lyric body = Ok data /\
    LyricData.Code data = 200 /\
    UnifiedLyricResponse.LRC (UnifiedLyricResponse.Data resp)
    = mergeLrcWithTranslation sort_Slice (LyricData.Lrc (LyricData.Data data))
        (LyricData.Trans (LyricData.Data data)).
Proof.
  unfold lyricHandler.
  destruct (Request.word r) as [|c w]; cbn [isEmpty negb].
  - destruct (negb (isEmpty (Request.id r)) || negb (isEmpty (Request.mid r)));
      [|discriminate].
    pose proof (fetchLyricData_Ok (Request.id r) (Request.mid r)) as K.
    destruct (fetchLyricData' (Request.id r) (Request.mid r))
      as [fetched requested].
    destruct fetched as [[data rawJSON]|err]; [|discriminate].
    destruct (K data rawJSON eq_refl) as (answer & Ht & Hg & Hs & Hb & Hj).
    cbn [snd] in Ht. subst requested.
    destruct (Z.eqb_spec (LyricData.Code data) 200) as [Hc|]; [|discriminate].
    cbn [negb fst snd]. intros H. inversion H; subst. split; [reflexivity|].
    eexists. exists answer, rawJSON, data.
    split; [left; reflexivity|]. repeat (split; [assumption|]).
    apply buildResponse_titles.
  - destruct (searchSongs' (c :: w) 10) as [found requested].
    destruct found as [songs|err]; [|discriminate].
    destruct (Atoi (Request.n r) <=? 0); [discriminate|].
    destruct (Z.of_nat (length songs) <? Atoi (Request.n r)); [discriminate|].
    set (song := nth _ songs zeroSong).
    pose proof (fetchLyricData_Ok [] (SearchSongItemSimplified.MID song)) as K.
    destruct (fetchLyricData' [] (SearchSongItemSimplified.MID song))
      as [fetched requested2].
    destruct fetched as [[data rawJSON]|err]; [|discriminate].
    destruct (K data rawJSON eq_refl) as (answer & Ht & Hg & Hs & Hb & Hj).
    cbn [snd] in Ht. subst requested2.
    destruct (Z.eqb_spec (LyricData.Code data) 200) as [Hc|]; [|discriminate].
    cbn [negb fst snd]. intros H. inversion H; subst. split; [reflexivity|].
    eexists. exists answer, rawJSON, data.
    split; [apply in_or_app; right; left; reflexivity|].
    repeat (split; [assumption|]).
    apply buildResponse_titles.
Qed.

(** X15.  One request costs at most two upstream requests.  A request
    with a search word always starts with the search for ten results,
    whatever [n], [id] and [mid] are; a request without word, [id] and
    [mid] is answered 400 and an OPTIONS request is answered 200 with
    an empty body, both without any upstream request; every response
    carries the three CORS headers. *)
Theorem X15_Handler_upstream_requests (r : Request.t) :
  (length (snd (lyricHandler' r)) <= 2)%nat /\
  (Request.word r <> [] ->
   hd_error (snd (lyricHandler' r)) = Some (searchURL10 (Request.word r))) /\
  (Request.word r = [] -> Request.id r = [] -> Request.mid r = [] ->
   exists details,
     lyricHandler' r
     = (ReplyError 400 (ErrorResponse.mk 400 (str "缺少参数") details), [])) /\
  (Request.Method r = str "OPTIONS" ->
   Handler' r = (corsHeaders, ReplyEmpty 200, [])) /\
  (Request.Method r <> str "OPTIONS" ->
   Handler' r = (corsHeaders, fst (lyricHandler' r), snd (lyricHandler' r))).
Proof.
  assert (Hfetch : forall id mid,
             (length (snd (fetchLyricData' id mid)) <= 1)%nat).
  { intros id mid. unfold fetchLyricData.
    destruct (negb (isEmpty id)); [simpl; lia|].
    destruct (negb (isEmpty mid)); simpl; lia. }
  split; [|split; [|split; [|split]]].
  - unfold lyricHandler.
    destruct (negb (isEmpty (Request.word r))).
    + destruct (searchSongs' (Request.word r) 10) as [found requested] eqn:Es.
      assert (Hreq : length requested = 1%nat)
        by (unfold searchSongs in Es; inversion Es; reflexivity).
      destruct found as [songs|err]; [|simpl; lia].
      destruct (Atoi (Request.n r) <=? 0); [simpl; lia|].
      destruct (Z.of_nat (length songs) <? Atoi (Request.n r)); [simpl; lia|].
      set (song := nth _ songs zeroSong).
      pose proof (Hfetch [] (SearchSongItemSimplified.MID song)) as Hf.
      destruct (fetchLyricData' [] (SearchSongItemSimplified.MID song))
        as [fetched requested2].
      cbn [snd] in Hf.
      destruct fetched as [[data rawJSON]|err];
        [destruct (negb (LyricData.Code data =? 200))|];
        cbn [snd]; rewrite length_app; lia.
    + destruct (negb (isEmpty (Request.id r)) || negb (isEmpty (Request.mid r)));
        [|simpl; lia].
      pose proof (Hfetch (Request.id r) (Request.mid r)) as Hf.
      destruct (fetchLyricData' (Request.id r) (Request.mid r))
        as [fetched requested].
      cbn [snd] in Hf.
      destruct fetched as [[data rawJSON]|err];
        [destruct (negb (LyricData.Code data =? 200))|]; cbn [snd]; lia.
  - intros Hw. unfold lyricHandler.
    destruct (Request.word r) as [|c w]; [congruence|]. cbn [isEmpty negb].
    destruct (searchSongs' (c :: w) 10) as [found requested] eqn:Es.
    assert (Hreq : requested = [searchURL10 (c :: w)])
      by (unfold searchSongs in Es; inversion Es; reflexivity).
    subst requested.
    destruct found as [songs|err]; [|reflexivity].
    destruct (Atoi (Request.n r) <=? 0); [reflexivity|].
    destruct (Z.of_nat (length songs) <? Atoi (Request.n r)); [reflexivity|].
    destruct (fetchLyricData' [] _) as [fetched requested2].
    destruct fetched as [[data rawJSON]|err];
      [destruct (negb (LyricData.Code data =? 200))|]; reflexivity.
  - intros Hw Hi Hm. unfold lyricHandler. rewrite Hw, Hi, Hm. cbn [isEmpty negb orb].
    eexists. reflexivity.
  - intros Hm. unfold Handler. rewrite Hm, gostring_eqb_refl. reflexivity.
  - intros Hm. unfold Handler.
    destruct (gostring_eqb (Request.Method r) (str "OPTIONS")) eqn:E.
    + apply gostring_eqb_eq in E. congruence.
    + now destruct (lyricHandler' r).
Qed.

End HandlerProperties.

Lemma X10_searchSongs_numbers_witness :
  exists resp body rawResult,
    sample_http_Get (UPSTREAM_API_BASE ++ str "?word=" ++ QueryEscape (str "la la") ++
                     str "&num=" ++ formatInt 0 10) = Ok resp /\
    HttpResponse.StatusCode resp = 200 /\
    HttpResponse.Body resp = Ok body /\
    sample_search body = Ok rawResult /\
    RawSearchResult.Code rawResult = 200 /\
    length (numberedFrom 0 (RawSearchResult.Data rawResult))
    = length (RawSearchResult.Data rawResult).
Proof.
  destruct (X10_searchSongs_numbers sample_http_Get sample_search (str "la la") 10
              _ eq_refl)
    as (resp & body & raw & H1 & H2 & H3 & H4 & H5 & H6 & _).
  exists resp, body, raw. repeat (split; [assumption|]).
  inversion H4. reflexivity.
Defined.

Lemma X11_lyricHandler_listing_witness :
  lyricHandler go_sort_Slice insertion_order sample_http_Get sample_search
    sample_lyric (sample_request (str "la la") (str "abc"))
  = (ReplySearch 200
       (SearchResponse.mk 200 (str "请求成功，请通过 n 参数选择歌曲获取歌词")
          [SearchSongItemSimplified.mk 1 (str "One") (str "Ann") 11 (str "m1")
             (str "A");
           SearchSongItemSimplified.mk 2 (str "Two") (str "Bob") 22 (str "m2")
             (str "B")]),
     [searchURL10 (str "la la")]).
Proof.
  refine (proj1 (X11_lyricHandler_listing go_sort_Slice insertion_order
                   sample_http_Get sample_search sample_lyric
                   (sample_request (str "la la") (str "abc")) _
                   ltac:(discriminate) eq_refl) ltac:(vm_compute; discriminate)).
Defined.

Lemma X12_lyricHandler_selects_numbered_song_witness :
  exists song,
    SearchSongItemSimplified.N song = 2 /\
    snd (lyricHandler go_sort_Slice insertion_order sample_http_Get sample_search
           sample_lyric (sample_request (str "la la") (str "2")))
    = searchURL10 (str "la la")
      :: snd (fetchLyricData sample_http_Get sample_lyric []
                (SearchSongItemSimplified.MID song)).
Proof.
  destruct (X12_lyricHandler_selects_numbered_song go_sort_Slice insertion_order
              sample_http_Get sample_search sample_lyric
              (sample_request (str "la la") (str "2")) _
              ltac:(vm_compute; discriminate) eq_refl
              ltac:(vm_compute; split; [reflexivity | discriminate]))
    as (song & _ & HN & Ht & _).
  exists song. split; [exact HN | exact Ht].
Defined.

Lemma X13_lyricHandler_by_id_witness :
  snd (lyricHandler go_sort_Slice insertion_order sample_http_Get sample_search
         sample_lyric (Request.mk (str "GET") (str "105") (str "m9") [] []))
  = [UPSTREAM_LYRIC_API ++ str "?id=105"].
Proof.
  refine (proj1 (X13_lyricHandler_by_id go_sort_Slice insertion_order
                   sample_http_Get sample_search sample_lyric
                   (Request.mk (str "GET") (str "105") (str "m9") [] [])
                   eq_refl _)).
  left. discriminate.
Defined.

Lemma X14_lyricHandler_lyrics_come_from_upstream_witness :
  exists url answer body data,
    In url (snd (lyricHandler go_sort_Slice insertion_order sample_http_Get
                   sample_search sample_lyric
                   (Request.mk (str "GET") (str "105") [] [] []))) /\
    sample_http_Get url = Ok answer /\
    HttpResponse.StatusCode answer = 200 /\
    HttpResponse.Body answer = Ok body /\
    sample_lyric body = Ok data /\
    LyricData.Code data = 200.
Proof.
  destruct (X14_lyricHandler_lyrics_come_from_upstream go_sort_Slice
              insertion_order sample_http_Get sample_search sample_lyric
              (Request.mk (str "GET") (str "105") [] [] []) _ _ eq_refl)
    as (_ & url & answer & body & data & H1 & H2 & H3 & H4 & H5 & H6 & _).
  exists url, answer, body, data. auto 10.
Defined.

Lemma X15_Handler_upstream_requests_witness :
  Handler go_sort_Slice insertion_order sample_http_Get sample_search sample_lyric
    (Request.mk (str "OPTIONS") (str "105") [] (str "la") (str "1"))
  = (corsHeaders, ReplyEmpty 200, []).
Proof.
  exact (proj1 (proj2 (proj2 (proj2
           (X15_Handler_upstream_requests go_sort_Slice insertion_order
              sample_http_Get sample_search sample_lyric
              (Request.mk (str "OPTIONS") (str "105") [] (str "la") (str "1"))))))
           eq_refl).
Defined.


(** ** The escaped search word *)

Lemma QueryEscape_byte (c : ascii) :
  (if isUnreserved c then negb (Ascii.eqb c "+") && negb (Ascii.eqb c "%")
   else if Ascii.eqb c " " then true
   else Ascii.eqb
          (ascii_of_N (16 * hexValue (upperhex (N_of_ascii c / 16)) +
                       hexValue (upperhex (N_of_ascii c mod 16)))) c &&
        isUnreserved (upperhex (N_of_ascii c / 16)) &&
        isUnreserved (upperhex (N_of_ascii c mod 16))) = true.
Proof. destruct c as [[] [] [] [] [] [] [] []]; vm_compute; reflexivity. Qed.

Lemma QueryEscape_cons (c : ascii) (s : gostring) :
  QueryEscape (c :: s)
  = (if isUnreserved c then [c]
     else if Ascii.eqb c " " then ["+"%char]
     else ["%"%char; upperhex (N_of_ascii c / 16);
           upperhex (N_of_ascii c mod 16)]) ++ QueryEscape s.
Proof. reflexivity. Qed.

Lemma unescape_QueryEscape (s : gostring) : unescape (QueryEscape s) = s.
Proof.
  induction s as [|c s IH]; [reflexivity|].
  rewrite QueryEscape_cons. pose proof (QueryEscape_byte c) as B.
  destruct (isUnreserved c).
  - apply andb_true_iff in B. destruct B as [B1 B2].
    apply negb_true_iff in B1, B2.
    cbn [app unescape]. rewrite B1, B2, IH. reflexivity.
  - destruct (Ascii.eqb_spec c " ") as [->|_].
    + cbn [app unescape]. rewrite IH. reflexivity.
    + apply andb_true_iff in B. destruct B as [B _].
      apply andb_true_iff in B. destruct B as [B _].
      apply Ascii.eqb_eq in B.
      cbn [app unescape]. change (Ascii.eqb "%" "+") with false.
      change (Ascii.eqb "%" "%") with true. cbv iota. rewrite B, IH.
      reflexivity.
Qed.

(** X16.  The search word goes into the search URL percent-encoded:
    between [?word=] and [&num=] there are only letters, digits, the
    marks [-], [_], [.], [~], plus signs and percent signs, so no byte
    of the word can end the parameter or start another one, and two
    different words never give the same encoded text. *)
Theorem X16_searchSongs_escapes_word
    (http_Get : gostring -> result HttpResponse.t)
    (json_Unmarshal_search : gostring -> result RawSearchResult.t)
    (word : gostring) (num : Z) :
  snd (searchSongs http_Get json_Unmarshal_search word num)
  = [UPSTREAM_API_BASE ++ str "?word=" ++ QueryEscape word ++ str "&num=" ++
     formatInt 0 num] /\
  Forall (fun c => isUnreserved c = true \/ c = "+"%char \/ c = "%"%char)
         (QueryEscape word) /\
  (forall word', QueryEscape word' = QueryEscape word -> word' = word).
Proof.
  split; [reflexivity|]. split.
  - induction word as [|c s IH]; [constructor|].
    rewrite QueryEscape_cons. apply Forall_app. split; [|exact IH].
    pose proof (QueryEscape_byte c) as B.
    destruct (isUnreserved c) eqn:U.
    + constructor; [left; exact U | constructor].
    + destruct (Ascii.eqb c " ").
      * constructor; [right; left; reflexivity | constructor].
      * apply andb_true_iff in B. destruct B as [B U2].
        apply andb_true_iff in B. destruct B as [_ U1].
        constructor; [right; right; reflexivity|].
        constructor; [left; exact U1|].
        constructor; [left; exact U2 | constructor].
  - intros word' E.
    rewrite <- (unescape_QueryEscape word'), <- (unescape_QueryEscape word).
    now rewrite E.
Qed.

(** ** The enhanced-LRC writer and the YRC parser *)

Lemma parsedOf_cons (line : gostring) (rawLines : list gostring) :
  parsedOf (line :: rawLines)
  = parseYrcToLines_step [] line ++ parsedOf rawLines.
Proof.
  unfold parsedOf. cbn [fold_left].
  rewrite parseYrcToLines_fold, (parseYrcToLines_fold rawLines []).
  reflexivity.
Qed.

Lemma fold_left_write {A : Type} (f : A -> gostring) (items : list A)
    (result : gostring) :
  fold_left (fun result item => result ++ f item) items result
  = result ++ concat (map f items).
Proof.
  revert result. induction items as [|x xs IH]; intros result; cbn.
  - now rewrite app_nil_r.
  - rewrite IH. now rewrite app_assoc.
Qed.

Lemma parseYrcLine_Ok_prefix (line : gostring) (lineInfo : LineInfo.t) :
  parseYrcLine line = Ok lineInfo -> HasPrefix line (str "[") = true.
Proof.
  intros H. destruct (yrcLineRe line) as [[[m1 m2] content]|] eqn:E.
  - apply yrcLineRe_Some in E. destruct E as (-> & _).
    change (str "[" ++ m1 ++ str "," ++ m2 ++ str "]" ++ content)
      with ("["%char :: (m1 ++ str "," ++ m2 ++ str "]" ++ content)).
    generalize (m1 ++ str "," ++ m2 ++ str "]" ++ content).
    intros rest. change (str "[") with ["["%char]. cbn [HasPrefix].
    now destruct rest.
  - unfold parseYrcLine in H. rewrite E in H. discriminate.
Qed.

Lemma findClosestLine_nil (time : Z) : findClosestLine time [] = [].
Proof. reflexivity. Qed.

(** One turn of the loop of the writer adds the text of the line the
    parser makes of the trimmed raw line, if it makes one. *)
Lemma eslrc_line_spec (translations : list MetaLine.t) (result line : gostring) :
  eslrc_line translations result line
  = result ++ concat (map (eslrcOf translations)
                          (parseYrcToLines_step [] (TrimSpace line))).
Proof.
  unfold eslrc_line, parseYrcToLines_step.
  set (l := TrimSpace line).
  destruct l as [|c l'] eqn:El.
  { cbn. now rewrite app_nil_r. }
  cbn [isEmpty orb].
  destruct (isMetadataLine (c :: l')).
  { rewrite orb_true_r. cbn. now rewrite app_nil_r. }
  rewrite orb_false_r.
  destruct (parseYrcLine (c :: l')) as [li|] eqn:Ep.
  - rewrite (parseYrcLine_Ok_prefix _ _ Ep). cbn [negb].
    destruct (LineInfo.Words li) as [|w ws] eqn:Ew.
    { cbn. now rewrite app_nil_r. }
    cbn [isEmpty app map concat]. rewrite app_nil_r.
    unfold eslrcOf, contentEndTime. rewrite Ew.
    change (0 <? length (w :: ws))%nat with true. cbv iota.
    rewrite (fold_left_write
               (fun word => msToEnhancedLrcTime (WordInfo.StartTime word) ++
                            WordInfo.Text word)).
    cbv zeta.
    destruct translations as [|t ts].
    + rewrite findClosestLine_nil. cbn [length Nat.ltb Nat.leb isEmpty].
      rewrite app_nil_r. now rewrite <- !app_assoc.
    + change (0 <? length (t :: ts))%nat with true. cbv iota.
      destruct (findClosestLine (LineInfo.StartTime li) (t :: ts)) as [|x xs];
        cbn [isEmpty negb].
      * rewrite app_nil_r. now rewrite <- !app_assoc.
      * now rewrite <- !app_assoc.
  - destruct (negb (HasPrefix (c :: l') (str "["))); cbn;
      now rewrite app_nil_r.
Qed.

Lemma eslrc_loop (translations : list MetaLine.t) (rawLines : list gostring)
    (result : gostring) :
  fold_left (eslrc_line translations) rawLines result
  = result ++ concat (map (eslrcOf translations)
                          (parsedOf (map TrimSpace rawLines))).
Proof.
  revert result. induction rawLines as [|line rest IH]; intros result.
  - cbn. now rewrite app_nil_r.
  - cbn [fold_left map]. rewrite IH, eslrc_line_spec, parsedOf_cons.
    rewrite map_app, concat_app. now rewrite app_assoc.
Qed.

Lemma eslrc_tags_loop (entries : list (gostring * gostring)) (result : gostring) :
  fold_left (fun result (entry : gostring * gostring) =>
               let '(key, value) := entry in
               if negb (gostring_eqb key (str "kana"))
               then result ++ str "[" ++ key ++ str ":" ++ value ++
                    str "]" ++ nl
               else result)
            entries result
  = result ++ eslrcTags entries.
Proof.
  unfold eslrcTags. revert result.
  induction entries as [|[key value] rest IH]; intros result.
  - cbn. now rewrite app_nil_r.
  - cbn [fold_left filter fst snd]. rewrite IH.
    destruct (negb (gostring_eqb key (str "kana"))).
    + cbn [map concat fst snd]. now rewrite <- !app_assoc.
    + reflexivity.
Qed.

Lemma map_id_on {A : Type} (f : A -> A) (l : list A) :
  Forall (fun x => f x = x) l -> map f l = l.
Proof. induction 1; cbn; congruence. Qed.

(** X17.  The enhanced-LRC writer never fails, and although it parses
    the raw lines itself its text is the tag lines followed by the text
    of each line the YRC parser keeps of the trimmed raw lines, in
    order; so when no raw line has white space at its ends, the
    enhanced LRC shows exactly the lines [parseYrcToLines] returns, the
    lines the TTML is written from.  The fourth argument, the
    romanization, plays no part. *)
Theorem X17_convertYrcToEnhancedLrc_lines
    (sort_Slice : (MetaLine.t -> MetaLine.t -> bool) ->
                  list MetaLine.t -> list MetaLine.t)
    (map_range : list (gostring * gostring) -> list (gostring * gostring))
    (yrcContent lrcContent transContent romaContent : gostring) :
  let translations := parseLrcTimedLines sort_Slice transContent in
  let tags := eslrcTags (map_range (parseLrcMeta lrcContent)) in
  convertYrcToEnhancedLrc sort_Slice map_range yrcContent lrcContent
    transContent romaContent
  = Ok (tags ++
        concat (map (eslrcOf translations)
                    (parsedOf (map TrimSpace (Split yrcContent newline))))) /\
  (Forall (fun line => TrimSpace line = line) (Split yrcContent newline) ->
   convertYrcToEnhancedLrc sort_Slice map_range yrcContent lrcContent
     transContent romaContent
   = Ok (tags ++
         concat (map (eslrcOf translations) (parseYrcToLines yrcContent)))).
Proof.
  cbv zeta.
  assert (G : convertYrcToEnhancedLrc sort_Slice map_range yrcContent lrcContent
                transContent romaContent
              = Ok (eslrcTags (map_range (parseLrcMeta lrcContent)) ++
                    concat (map (eslrcOf (parseLrcTimedLines sort_Slice
                                            transContent))
                                (parsedOf (map TrimSpace
                                             (Split yrcContent newline)))))).
  { unfold convertYrcToEnhancedLrc. cbv zeta.
    rewrite eslrc_loop, eslrc_tags_loop. reflexivity. }
  split; [exact G|].
  intros Htrim. rewrite G, (map_id_on TrimSpace _ Htrim). reflexivity.
Qed.

Lemma X17_convertYrcToEnhancedLrc_lines_witness :
  convertYrcToEnhancedLrc go_sort_Slice insertion_order
    (str "[0,500]la(0,200)li(200,300)" ++ [newline] ++ str "[ti:x]")
    (str "[ti:Song]") (str "[00:00.00]tra") []
  = Ok (str "[ti:Song]" ++ nl ++
        str "[00:00.00]<00:00.00>la<00:00.20>li<00:00.50>" ++ nl ++
        str "[00:00.00]tra" ++ nl).
Proof.
  refine (eq_trans
            (proj2 (X17_convertYrcToEnhancedLrc_lines go_sort_Slice
                      insertion_order
                      (str "[0,500]la(0,200)li(200,300)" ++ [newline] ++
                       str "[ti:x]")
                      (str "[ti:Song]") (str "[00:00.00]tra") []) _) _).
  - vm_compute. repeat constructor.
  - vm_compute. reflexivity.
Defined.

(** ** TTML times *)

Lemma below_1000 (P : Z -> bool) :
  forallb P (map Z.of_nat (seq 0 1000)) = true ->
  forall n, 0 <= n < 1000 -> P n = true.
Proof.
  intros H n Hn. rewrite forallb_forall in H. apply H.
  apply in_map_iff. exists (Z.to_nat n). split; [lia|]. apply in_seq. lia.
Qed.

(** [%03d] of a number below 1000: three digits that read back as the
    number. *)
Lemma formatInt3_spec (n : Z) :
  0 <= n < 1000 ->
  length (formatInt 3 n) = 3%nat /\ decimalValue (formatInt 3 n) = n.
Proof.
  intros Hn.
  pose (P := fun n => (length (formatInt 3 n) =? 3)%nat &&
                      (decimalValue (formatInt 3 n) =? n)).
  assert (H : P n = true)
    by (apply below_1000; [vm_compute; reflexivity | exact Hn]).
  unfold P in H. apply andb_true_iff in H. destruct H as [H1 H2].
  apply Nat.eqb_eq in H1. apply Z.eqb_eq in H2. auto.
Qed.

Lemma app_inj_length {A : Type} (a b c d : list A) :
  length a = length c -> a ++ b = c ++ d -> a = c /\ b = d.
Proof.
  revert c. induction a as [|x a IH]; intros [|y c] L E; try discriminate.
  - auto.
  - cbn in L, E. inversion E; subst.
    destruct (IH c ltac:(lia) H1) as [-> ->]. auto.
Qed.

Lemma mod_mod_1000 (ms : Z) : (ms mod 60000) mod 1000 = ms mod 1000.
Proof.
  pose proof (Z.div_mod ms 60000 ltac:(lia)) as D1.
  pose proof (Z.mod_pos_bound ms 60000 ltac:(lia)) as M1.
  pose proof (Z.mod_pos_bound (ms mod 60000) 1000 ltac:(lia)) as M2.
  pose proof (Z.div_mod (ms mod 60000) 1000 ltac:(lia)) as D2.
  apply (Z.mod_unique ms 1000 (60 * (ms / 60000) + ms mod 60000 / 1000)); lia.
Qed.

(** The TTML time of a time under an hour. *)
Lemma msToTtmlTime_small (ms : Z) :
  0 <= ms < 3600000 ->
  msToTtmlTime ms
  = formatInt 2 (ms / 60000) ++ str ":" ++ formatInt 2 (ms mod 60000 / 1000) ++
    str "." ++ formatInt 3 (ms mod 1000).
Proof.
  intros H. unfold msToTtmlTime, GoInt.div, GoInt.rem.
  rewrite (Z.quot_small ms 3600000), (Z.rem_small ms 3600000) by lia.
  change (GoInt.wrap 0) with 0. change (0 <? 0) with false. cbv iota.
  assert (B1 : 0 <= ms mod 60000 < 60000) by (apply Z.mod_pos_bound; lia).
  rewrite (Z.quot_div_nonneg ms 60000), (Z.rem_mod_nonneg ms 60000) by lia.
  rewrite (Z.quot_div_nonneg (ms mod 60000) 1000),
    (Z.rem_mod_nonneg (ms mod 60000) 1000) by lia.
  assert (B2 : 0 <= ms / 60000 < 60)
    by (split; [apply Z.div_pos | apply Z.div_lt_upper_bound]; lia).
  assert (B3 : 0 <= ms mod 60000 / 1000 < 60)
    by (split; [apply Z.div_pos | apply Z.div_lt_upper_bound]; lia).
  rewrite !wrap_inRange
    by (unfold GoInt.inRange, GoInt.minInt, GoInt.maxInt; lia).
  now rewrite mod_mod_1000.
Qed.

(** X18.  TTML times are exact to the millisecond: the text of a time
    under an hour has the nine bytes of [mm:ss.mmm], and two different
    times under an hour never get the same text (whereas [msToLrcTime]
    keeps centiseconds only). *)
Theorem X18_msToTtmlTime_exact (a b : Z) :
  0 <= a < 3600000 -> 0 <= b < 3600000 ->
  length (msToTtmlTime a) = 9%nat /\
  (msToTtmlTime a = msToTtmlTime b -> a = b).
Proof.
  intros Ha Hb. rewrite !msToTtmlTime_small by assumption.
  assert (R : forall ms, 0 <= ms < 3600000 ->
               0 <= ms / 60000 < 100 /\ 0 <= ms mod 60000 / 1000 < 100 /\
               0 <= ms mod 1000 < 1000 /\
               ms = 60000 * (ms / 60000) + 1000 * (ms mod 60000 / 1000) +
                    ms mod 1000).
  { intros ms H.
    pose proof (Z.div_mod ms 60000 ltac:(lia)) as D1.
    pose proof (Z.mod_pos_bound ms 60000 ltac:(lia)) as M1.
    pose proof (Z.div_mod (ms mod 60000) 1000 ltac:(lia)) as D2.
    pose proof (Z.mod_pos_bound (ms mod 60000) 1000 ltac:(lia)) as M2.
    rewrite mod_mod_1000 in *.
    assert (0 <= ms / 60000 < 60)
      by (split; [apply Z.div_pos | apply Z.div_lt_upper_bound]; lia).
    assert (0 <= ms mod 60000 / 1000 < 60)
      by (split; [apply Z.div_pos | apply Z.div_lt_upper_bound]; lia).
    lia. }
  destruct (R a Ha) as (A1 & A2 & A3 & EA).
  destruct (R b Hb) as (B1 & B2 & B3 & EB).
  destruct (formatInt2_spec _ A1) as (LA1 & _ & VA1).
  destruct (formatInt2_spec _ A2) as (LA2 & _ & VA2).
  destruct (formatInt3_spec _ A3) as (LA3 & VA3).
  destruct (formatInt2_spec _ B1) as (LB1 & _ & VB1).
  destruct (formatInt2_spec _ B2) as (LB2 & _ & VB2).
  destruct (formatInt3_spec _ B3) as (LB3 & VB3).
  split.
  - rewrite !length_app, LA1, LA2, LA3. reflexivity.
  - intros E.
    apply app_inj_length in E; [|congruence]. destruct E as [E1 E].
    cbn [str app] in E. inversion E as [E']. clear E.
    apply app_inj_length in E'; [|congruence]. destruct E' as [E2 E].
    cbn [str app] in E. inversion E as [E3]. clear E.
    rewrite E1 in VA1. rewrite E2 in VA2. rewrite E3 in VA3. lia.
Qed.

Lemma X18_msToTtmlTime_exact_witness :
  length (msToTtmlTime 61001) = 9%nat /\
  (msToTtmlTime 61001 = msToTtmlTime 61009 -> 61001 = 61009).
Proof. apply (X18_msToTtmlTime_exact 61001 61009); lia. Defined.

(** ** Distances *)

(** X19.  [abs] gives the magnitude of every [int] but the smallest,
    which it returns unchanged and negative; on the times the parsers
    return, between 0 and the largest [int], the difference the matchers
    take does not wrap, so the distance they compare is the true
    distance. *)
Theorem X19_abs_magnitude (x a b : Z) :
  GoInt.inRange x -> timeRange a -> timeRange b ->
  (x <> GoInt.minInt -> abs x = Z.abs x) /\
  abs GoInt.minInt = GoInt.minInt /\
  abs (GoInt.sub a b) = Z.abs (a - b).
Proof.
  intros Hx Ha Hb. split; [|split].
  - intros Hmin. unfold abs, GoInt.neg.
    unfold GoInt.inRange, GoInt.minInt, GoInt.maxInt in *.
    destruct (Z.ltb_spec x 0); [|lia].
    rewrite wrap_inRange
      by (unfold GoInt.inRange, GoInt.minInt, GoInt.maxInt; lia).
    lia.
  - vm_compute. reflexivity.
  - apply abs_sub_time; assumption.
Qed.

Lemma X19_abs_magnitude_witness :
  (-5 <> GoInt.minInt -> abs (-5) = Z.abs (-5)) /\
  abs GoInt.minInt = GoInt.minInt /\
  abs (GoInt.sub 100 700) = Z.abs (100 - 700).
Proof.
  apply (X19_abs_magnitude (-5) 100 700);
    unfold GoInt.inRange, timeRange, GoInt.minInt, GoInt.maxInt; lia.
Defined.
